(** * kendoai-mcp: the ACT schema, the start-up configuration and the three
    stage handlers of [src/server.ts], embedded in Rocq.

    The file follows the TypeScript sources:
    - [JS]      the JavaScript values the handlers compute with (what
                [response.json()] yields, property reads, truthiness, string
                conversion, [JSON.stringify]);
    - [Zod]     the zod combinators used by [src/types.ts] and [src/env.ts];
    - [Dedent]  the [dedent] template tag every report text goes through;
    - [Server]  the templates and the handlers [planner_tool],
                [structure_tool] and [merger_tool];
    - [Legacy]  the handler [generate_page] of the server with a single
                tool;
    - [Shapes]  predicates on the data the schema returns, on its issues
                and on the report templates.

    Strings are sequences of bytes (UTF-8); the white space of the model is
    the ASCII white space. *)

From Stdlib Require Import String Ascii List Bool Arith NArith Lia DecimalString.
From stdpp Require Import gmap strings.
Import ListNotations.
Open Scope string_scope.
Set Warnings "-register-all".

(** [simpl] may unfold the concatenation of strings. *)
Arguments String.append !s1 s2 : simpl nomatch.

(* ===================================================================== *)
(** ** Characters and strings *)
(* ===================================================================== *)

Definition LF : ascii := ascii_of_nat 10.
Definition CR : ascii := ascii_of_nat 13.
Definition TAB : ascii := ascii_of_nat 9.
Definition VT : ascii := ascii_of_nat 11.
Definition FF : ascii := ascii_of_nat 12.
Definition BS : ascii := ascii_of_nat 8.
Definition SPACE : ascii := ascii_of_nat 32.
Definition QUOTE : ascii := ascii_of_nat 34.
Definition BACKSLASH : ascii := ascii_of_nat 92.
Definition BACKTICK : ascii := ascii_of_nat 96.

(** A one-character string, and the double quote as a string. *)
Definition chr (c : ascii) : string := String c EmptyString.
Definition DQ : string := chr QUOTE.
Definition NL : string := chr LF.

Definition is_empty (s : string) : bool :=
  match s with EmptyString => true | String _ _ => false end.

(** [s.startsWith(p)]. *)
Fixpoint starts_with (p s : string) : bool :=
  match p, s with
  | EmptyString, _ => true
  | String a p', String b s' => Ascii.eqb a b && starts_with p' s'
  | String _ _, EmptyString => false
  end.

(** [s.includes(t)]: [t] occurs in [s] as a contiguous run. *)
Fixpoint includes (s t : string) : bool :=
  if starts_with t s then true
  else match s with
       | EmptyString => false
       | String _ s' => includes s' t
       end.

(** The same, as a proposition. *)
Definition occurs_in (t s : string) : Prop :=
  exists a b, s = a ++ t ++ b.

(** Every character of [s] satisfies [p]. *)
Fixpoint all_chars (p : ascii -> bool) (s : string) : bool :=
  match s with
  | EmptyString => true
  | String c s' => p c && all_chars p s'
  end.

Fixpoint last_char (s : string) : option ascii :=
  match s with
  | EmptyString => None
  | String c EmptyString => Some c
  | String _ s' => last_char s'
  end.

Definition decimal (n : N) : string := NilZero.string_of_uint (N.to_uint n).

(* ===================================================================== *)
(** ** JavaScript values *)
(* ===================================================================== *)

Module JS.

(** What [response.json()] can resolve to, plus [undefined] (the result of
    reading a property that is not there).  A number is carried by its
    rendering ([Number::toString]: 0, -1.5, 1e+21, ...): -0 renders as 0,
    and a number too large for a double (1e999 in the JSON text) is read as
    [Infinity] or [-Infinity]; a JSON text gives no NaN. *)
Inductive value : Type :=
| JUndefined
| JNull
| JBool (b : bool)
| JNumber (repr : string)
| JString (s : string)
| JArray (items : list value)
| JObject (fields : list (string * value)).

(** What a [catch] clause can receive: an [Error] instance with its
    [message], or any other thrown value. *)
Inductive thrown : Type :=
| ErrorObject (message : string)
| NonError (v : value).

(** Completion of an expression that may throw. *)
Inductive completion (A : Type) : Type :=
| Normal (a : A)
| Throw (e : thrown).
Arguments Normal {A} a.
Arguments Throw {A} e.

Definition bind {A B} (c : completion A) (k : A -> completion B) : completion B :=
  match c with
  | Normal a => k a
  | Throw e => Throw e
  end.

(** Own property of an object literal; the first binding of a key wins. *)
Fixpoint lookup (k : string) (fields : list (string * value)) : option value :=
  match fields with
  | [] => None
  | (k', v) :: rest => if String.eqb k k' then Some v else lookup k rest
  end.

Definition field (k : string) (fields : list (string * value)) : value :=
  match lookup k fields with
  | Some v => v
  | None => JUndefined
  end.

(** The property read [o.k], for the keys the handlers read ([success],
    [data], [error], [plan], [structure], [code], [mainComponent]): none of
    them is an inherited property of a string, an array, a number or a
    boolean.  Reading from [undefined] or [null] throws a [TypeError]
    (V8 wording). *)
Definition get (o : value) (k : string) : completion value :=
  match o with
  | JUndefined =>
      Throw (ErrorObject ("Cannot read properties of undefined (reading '" ++ k ++ "')"))
  | JNull =>
      Throw (ErrorObject ("Cannot read properties of null (reading '" ++ k ++ "')"))
  | JObject fields => Normal (field k fields)
  | _ => Normal JUndefined
  end.

(** [ToBoolean]. *)
Definition truthy (v : value) : bool :=
  match v with
  | JUndefined | JNull => false
  | JBool b => b
  | JNumber r => negb (String.eqb r "0")
  | JString s => negb (is_empty s)
  | JArray _ | JObject _ => true
  end.

(** [a || b]. *)
Definition or_else (a b : value) : value := if truthy a then a else b.

(** The [TypeError] of [OrdinaryToPrimitive] (V8 wording). *)
Definition not_primitive : thrown :=
  ErrorObject "Cannot convert object to primitive value".

(** The conversion of a value to a string, as [result += value] and
    [Array.prototype.join] apply it to what [response.json()] yields
    ([ToPrimitive], then [ToString]).  An object is converted by
    [OrdinaryToPrimitive], which calls its methods [toString] and
    [valueOf]: the inherited [valueOf] returns the object itself and the
    inherited [toString] returns [[object Object]]; an own property hides
    the inherited method, and no value of a parsed JSON text can be called.
    So an object with an own property [toString] cannot be converted, the
    conversion throws; an own [valueOf] changes nothing.  An array joins
    its elements with commas, [null] and [undefined] elements giving the
    empty string, the others being converted in turn. *)
Fixpoint to_string (v : value) : completion string :=
  match v with
  | JUndefined => Normal "undefined"
  | JNull => Normal "null"
  | JBool true => Normal "true"
  | JBool false => Normal "false"
  | JNumber r => Normal r
  | JString s => Normal s
  | JArray items =>
      (fix join (xs : list value) : completion string :=
         match xs with
         | [] => Normal EmptyString
         | x :: rest =>
             bind match x with
                  | JUndefined | JNull => Normal EmptyString
                  | _ => to_string x
                  end
               (fun sx =>
                  match rest with
                  | [] => Normal sx
                  | _ :: _ => bind (join rest) (fun sr => Normal (sx ++ "," ++ sr))
                  end)
         end) items
  | JObject fields =>
      match lookup "toString" fields with
      | Some _ => Throw not_primitive
      | None => Normal "[object Object]"
      end
  end.

(** *** JSON.stringify *)

Definition hex_digit (n : N) : ascii :=
  ascii_of_N (if (n <? 10)%N then 48 + n else 87 + n)%N.

(** [QuoteJSONString], character by character. *)
Definition quote_char (c : ascii) : string :=
  let n := N_of_ascii c in
  if Ascii.eqb c BS then "\b"
  else if Ascii.eqb c TAB then "\t"
  else if Ascii.eqb c LF then "\n"
  else if Ascii.eqb c FF then "\f"
  else if Ascii.eqb c CR then "\r"
  else if Ascii.eqb c QUOTE then String BACKSLASH DQ
  else if Ascii.eqb c BACKSLASH then "\\"
  else if (n <? 32)%N then
    "\u00" ++ chr (hex_digit (n / 16)) ++ chr (hex_digit (n mod 16))
  else chr c.

Fixpoint quote_body (s : string) : string :=
  match s with
  | EmptyString => EmptyString
  | String c s' => quote_char c ++ quote_body s'
  end.

Definition quote (s : string) : string := DQ ++ quote_body s ++ DQ.

Fixpoint join_with (sep : string) (parts : list string) : string :=
  match parts with
  | [] => EmptyString
  | [p] => p
  | p :: rest => p ++ sep ++ join_with sep rest
  end.

(** [{ ... }] or [[ ... ]] around the serialized members ([SerializeJSONObject]
    and [SerializeJSONArray]): [gap] is the indentation unit, [stepback] the
    indentation of the enclosing level. *)
Definition wrap (opening closing gap stepback : string) (partial : list string) : string :=
  match partial with
  | [] => opening ++ closing
  | _ :: _ =>
      if is_empty gap then opening ++ join_with "," partial ++ closing
      else
        let indent := stepback ++ gap in
        opening ++ NL ++ indent ++ join_with ("," ++ NL ++ indent) partial
                ++ NL ++ stepback ++ closing
  end.

(** The rendering of a finite number: the other numbers are written [null]
    by [JSON.stringify]. *)
Definition is_finite (r : string) : bool :=
  negb (String.eqb r "Infinity") && negb (String.eqb r "-Infinity")
  && negb (String.eqb r "NaN").

(** [SerializeJSONProperty]: [None] is the [undefined] that
    [JSON.stringify(undefined)] returns. *)
Fixpoint serialize (gap stepback : string) (v : value) : option string :=
  match v with
  | JUndefined => None
  | JNull => Some "null"
  | JBool true => Some "true"
  | JBool false => Some "false"
  | JNumber r => Some (if is_finite r then r else "null")
  | JString s => Some (quote s)
  | JArray items =>
      let indent := stepback ++ gap in
      Some (wrap "[" "]" gap stepback
              ((fix each (xs : list value) : list string :=
                  match xs with
                  | [] => []
                  | x :: rest =>
                      match serialize gap indent x with
                      | Some s => s
                      | None => "null"
                      end :: each rest
                  end) items))
  | JObject fields =>
      let indent := stepback ++ gap in
      Some (wrap "{" "}" gap stepback
              ((fix each (fs : list (string * value)) : list string :=
                  match fs with
                  | [] => []
                  | (k, x) :: rest =>
                      match serialize gap indent x with
                      | Some s =>
                          (quote k ++ ":" ++ (if is_empty gap then EmptyString else " ") ++ s)
                            :: each rest
                      | None => each rest
                      end
                  end) fields))
  end.

(** [JSON.stringify(v)] and [JSON.stringify(v, null, 2)]. *)
Definition stringify (v : value) : option string := serialize EmptyString EmptyString v.
Definition stringify2 (v : value) : option string := serialize "  " EmptyString v.

(** [`${JSON.stringify(...)}`]: an [undefined] result is interpolated as the
    word. *)
Definition interpolated (o : option string) : string :=
  match o with
  | Some s => s
  | None => "undefined"
  end.

(** Induction on a value together with the elements of its arrays and the
    values of its fields. *)
Section value_induction.

Variable P : value -> Prop.
Hypothesis Hundefined : P JUndefined.
Hypothesis Hnull : P JNull.
Hypothesis Hbool : forall b, P (JBool b).
Hypothesis Hnumber : forall r, P (JNumber r).
Hypothesis Hstring : forall s, P (JString s).
Hypothesis Harray : forall items, Forall P items -> P (JArray items).
Hypothesis Hobject : forall fields, Forall (fun kv => P (snd kv)) fields -> P (JObject fields).

Fixpoint value_ind' (v : value) : P v :=
  match v with
  | JUndefined => Hundefined
  | JNull => Hnull
  | JBool b => Hbool b
  | JNumber r => Hnumber r
  | JString s => Hstring s
  | JArray items =>
      Harray items
        ((fix all (xs : list value) : Forall P xs :=
            match xs with
            | [] => @List.Forall_nil _ P
            | x :: rest => @List.Forall_cons _ P x rest (value_ind' x) (all rest)
            end) items)
  | JObject fields =>
      Hobject fields
        ((fix all (fs : list (string * value)) : Forall (fun kv => P (snd kv)) fs :=
            match fs with
            | [] => @List.Forall_nil _ _
            | (k, x) :: rest =>
                @List.Forall_cons _ (fun kv => P (snd kv)) (k, x) rest (value_ind' x) (all rest)
            end) fields)
  end.

End value_induction.

End JS.

(* ===================================================================== *)
(** ** The zod schemas of [src/types.ts] and [src/env.ts] *)
(* ===================================================================== *)

Module Zod.
Import JS.

(** [getParsedType], for the values above. *)
Inductive ZodParsedType : Type :=
| t_undefined | t_null | t_boolean | t_number | t_string | t_array | t_object.

Definition getParsedType (v : value) : ZodParsedType :=
  match v with
  | JUndefined => t_undefined
  | JNull => t_null
  | JBool _ => t_boolean
  | JNumber _ => t_number
  | JString _ => t_string
  | JArray _ => t_array
  | JObject _ => t_object
  end.

Inductive path_elem : Type :=
| Key (k : string)
| Index (i : nat).

(** A [ZodIssue]: where it was found and its code; a failed union carries
    the issues of each of its options. *)
Inductive issue : Type :=
| invalid_type (path : list path_elem) (expected received : ZodParsedType)
| too_small (path : list path_elem) (minimum : nat)
| invalid_union (path : list path_elem) (unionErrors : list (list issue)).

(** [safeParse]: the parsed data, or the issues of the [ZodError] that
    [parse] throws. *)
Inductive result (A : Type) : Type :=
| Valid (data : A)
| Invalid (issues : list issue).
Arguments Valid {A} data.
Arguments Invalid {A} issues.

Definition is_valid {A} (r : result A) : bool :=
  match r with Valid _ => true | Invalid _ => false end.

Definition issues_of {A} (r : result A) : list issue :=
  match r with Valid _ => [] | Invalid issues => issues end.

(** [z.string()]. *)
Definition zstring (path : list path_elem) (input : value) : result value :=
  match input with
  | JString s => Valid (JString s)
  | _ => Invalid [invalid_type path t_string (getParsedType input)]
  end.

(** [z.string().min(n)]. *)
Definition zstring_min (n : nat) (path : list path_elem) (input : value) : result value :=
  match input with
  | JString s =>
      if Nat.ltb (String.length s) n then Invalid [too_small path n] else Valid (JString s)
  | _ => Invalid [invalid_type path t_string (getParsedType input)]
  end.

(** [inner.nullable()]. *)
Definition znullable (inner : list path_elem -> value -> result value)
    (path : list path_elem) (input : value) : result value :=
  match input with
  | JNull => Valid JNull
  | _ => inner path input
  end.

(** [z.union([a, b])] once both options have run on the input: the first
    valid option wins, otherwise one [invalid_union] issue. *)
Definition zunion2 (path : list path_elem) (a b : result value) : result value :=
  match a with
  | Valid data => Valid data
  | Invalid ia =>
      match b with
      | Valid data => Valid data
      | Invalid ib => Invalid [invalid_union path [ia; ib]]
      end
  end.

(** The end of [z.array(...)] on an array: every element was parsed; one
    invalid element makes the array invalid, the issues accumulate. *)
Fixpoint merge_array (parsed : list (result value)) : result (list value) :=
  match parsed with
  | [] => Valid []
  | r :: rest =>
      match r, merge_array rest with
      | Valid x, Valid xs => Valid (x :: xs)
      | _, m => Invalid (issues_of r ++ issues_of m)%list
      end
  end.

(** The end of [z.object(...)] on an object: the shape's keys were parsed in
    order; unknown keys are stripped. *)
Fixpoint merge_object (parsed : list (string * result value)) : result (list (string * value)) :=
  match parsed with
  | [] => Valid []
  | (k, r) :: rest =>
      match r, merge_object rest with
      | Valid x, Valid xs => Valid ((k, x) :: xs)
      | _, m => Invalid (issues_of r ++ issues_of m)%list
      end
  end.

Definition map_result {A B} (f : A -> B) (r : result A) : result B :=
  match r with
  | Valid data => Valid (f data)
  | Invalid issues => Invalid issues
  end.

(** [ACTComponentSchema] of [src/types.ts]:
    [z.lazy(() => z.object({component: z.string(), description: z.string(),
    mcpQuery: z.string().nullable(),
    children: z.union([z.array(ACTComponentSchema), z.string()])}))].
    The recursion of [z.lazy] follows the input: the only recursive calls are
    on the elements of an array [children]. *)
Fixpoint ACTComponentSchema (path : list path_elem) (input : value) {struct input}
    : result value :=
  match input with
  | JObject fields =>
      let at_key k := (path ++ [Key k])%list in
      let children :=
        (fix find (fs : list (string * value)) : result value :=
           match fs with
           | [] =>
               zunion2 (at_key "children")
                 (Invalid [invalid_type (at_key "children") t_array t_undefined])
                 (zstring (at_key "children") JUndefined)
           | (k, x) :: rest =>
               if String.eqb "children" k then
                 zunion2 (at_key "children")
                   match x with
                   | JArray items =>
                       map_result JArray
                         (merge_array
                            ((fix each (i : nat) (xs : list value) : list (result value) :=
                                match xs with
                                | [] => []
                                | y :: ys =>
                                    ACTComponentSchema (at_key "children" ++ [Index i])%list y
                                      :: each (S i) ys
                                end) 0 items))
                   | _ => Invalid [invalid_type (at_key "children") t_array (getParsedType x)]
                   end
                   (zstring (at_key "children") x)
               else find rest
           end) fields in
      map_result JObject
        (merge_object
           [("component", zstring (at_key "component") (field "component" fields));
            ("description", zstring (at_key "description") (field "description" fields));
            ("mcpQuery", znullable zstring (at_key "mcpQuery") (field "mcpQuery" fields));
            ("children", children)])
  | _ => Invalid [invalid_type path t_object (getParsedType input)]
  end.

(** [ACTComponentSchema.safeParse(input)]. *)
Definition validate (input : value) : result value := ACTComponentSchema [] input.

(** *** The union of [children], named *)

(** The elements of an array [children], parsed at their indices. *)
Fixpoint parse_items (path : list path_elem) (i : nat) (items : list value)
    : list (result value) :=
  match items with
  | [] => []
  | y :: ys => ACTComponentSchema (path ++ [Index i])%list y :: parse_items path (S i) ys
  end.

(** [z.union([z.array(ACTComponentSchema), z.string()])] at [path]. *)
Definition parse_children (path : list path_elem) (x : value) : result value :=
  zunion2 path
    match x with
    | JArray items => map_result JArray (merge_array (parse_items path 0 items))
    | _ => Invalid [invalid_type path t_array (getParsedType x)]
    end
    (zstring path x).

(** *** [src/env.ts] *)

(** The parsed configuration: [env.SECRET] and [env.SERVER_URL]. *)
Record Env : Type := { SECRET : string; SERVER_URL : string }.

(** [process.env.NAME]: a string, or [undefined]. *)
Definition env_var (process_env : gmap string string) (name : string) : value :=
  match process_env !! name with
  | Some s => JString s
  | None => JUndefined
  end.

(** [envSchema = z.object({SECRET: z.string().min(1),
    SERVER_URL: z.string().min(1)})], applied to [process.env]. *)
Definition envSchema (process_env : gmap string string) : result Env :=
  match
    merge_object
      [("SECRET", zstring_min 1 [Key "SECRET"] (env_var process_env "SECRET"));
       ("SERVER_URL", zstring_min 1 [Key "SERVER_URL"] (env_var process_env "SERVER_URL"))]
  with
  | Valid [(_, JString secret); (_, JString server_url)] =>
      Valid {| SECRET := secret; SERVER_URL := server_url |}
  | Valid _ => Invalid []
  | Invalid issues => Invalid issues
  end.

End Zod.

(* ===================================================================== *)
(** ** The [dedent] template tag *)
(* ===================================================================== *)

(** The npm package [dedent] (1.x), called as a template tag: the raw
    strings are unescaped and joined with the interpolated values, and only
    then is the indentation stripped, so the interpolated text is dedented
    with the rest.  The values reach the tag as they are: it is the tag
    that converts them to strings, and it throws when a value cannot be
    converted. *)
Module Dedent.
Import JS.

(** The regular expression class [\s] and the characters [trim] removes. *)
Definition is_space (c : ascii) : bool :=
  Ascii.eqb c SPACE || Ascii.eqb c TAB || Ascii.eqb c LF
  || Ascii.eqb c VT || Ascii.eqb c FF || Ascii.eqb c CR.

Definition is_blank (c : ascii) : bool := Ascii.eqb c SPACE || Ascii.eqb c TAB.

(** [next.replace(/\\\n[ \t]*/g, "")]: a backslash at the end of a line
    joins the line with the next one; [skipping] is true while the blanks
    that follow the removed line break are being dropped. *)
Fixpoint join_continued (skipping : bool) (s : string) : string :=
  match s with
  | EmptyString => EmptyString
  | String a t =>
      if skipping && is_blank a then join_continued true t
      else
        match t with
        | String b r =>
            if Ascii.eqb a BACKSLASH && Ascii.eqb b LF then join_continued true r
            else String a (join_continued false t)
        | EmptyString => String a EmptyString
        end
  end.

(** [s.replace(/\\c/g, by)]: every backslash followed by [c], left to right. *)
Fixpoint replace_escaped (c : ascii) (by_ : string) (s : string) : string :=
  match s with
  | EmptyString => EmptyString
  | String a t =>
      match t with
      | String b r =>
          if Ascii.eqb a BACKSLASH && Ascii.eqb b c then by_ ++ replace_escaped c by_ r
          else String a (replace_escaped c by_ t)
      | EmptyString => String a EmptyString
      end
  end.

(** The escapes handled in each raw string ([escapeSpecialCharacters]). *)
Definition unescape (next : string) : string :=
  replace_escaped "{" "{"
    (replace_escaped "$" "$"
       (replace_escaped BACKTICK (chr BACKTICK)
          (join_continued false next))).

(** The interpolation: [result += next; if (i < values.length) result +=
    values[i]], for each raw string in turn.  The second [+=] converts the
    value to a string, and throws when that cannot be done. *)
Fixpoint interpolate (raw : list string) (values : list value) : completion string :=
  match raw with
  | [] => Normal EmptyString
  | next :: raw' =>
      match values with
      | [] => bind (interpolate raw' []) (fun rest => Normal (unescape next ++ rest))
      | v :: values' =>
          bind (to_string v) (fun text =>
          bind (interpolate raw' values') (fun rest =>
          Normal (unescape next ++ text ++ rest)))
      end
  end.

(** The interpolation when every value is a string already: nothing is
    converted. *)
Fixpoint interpolate_strings (raw : list string) (texts : list string) : string :=
  match raw with
  | [] => EmptyString
  | next :: raw' =>
      unescape next ++
      match texts with
      | [] => interpolate_strings raw' []
      | text :: texts' => text ++ interpolate_strings raw' texts'
      end
  end.

(** [result.split("\n")]. *)
Fixpoint split_lines (s : string) : list string :=
  match s with
  | EmptyString => [EmptyString]
  | String c s' =>
      if Ascii.eqb c LF then EmptyString :: split_lines s'
      else match split_lines s' with
           | [] => [chr c]
           | l :: ls => String c l :: ls
           end
  end.

(** Length of the run of white space a string starts with. *)
Fixpoint leading_space (l : string) : nat :=
  match l with
  | EmptyString => 0
  | String c l' => if is_space c then S (leading_space l') else 0
  end.

Fixpoint drop (n : nat) (l : string) : string :=
  match n, l with
  | O, _ => l
  | S n', String _ l' => drop n' l'
  | S _, EmptyString => EmptyString
  end.

(** [l.match(/^(\s+)\S+/)]: the length of [m[1]] when the line starts with
    white space followed by something else. *)
Definition indent_of (l : string) : option nat :=
  let n := leading_space l in
  if (0 <? n)%nat && negb (is_empty (drop n l)) then Some n else None.

(** One turn of the loop that computes [mindent]; [!mindent] holds for
    [null] and for 0. *)
Definition mindent_step (mindent : option nat) (l : string) : option nat :=
  match indent_of l with
  | None => mindent
  | Some indent =>
      match mindent with
      | None => Some indent
      | Some m => if Nat.eqb m 0 then Some indent else Some (Nat.min m indent)
      end
  end.

Definition mindent_of (lines : list string) : option nat :=
  fold_left mindent_step lines None.

(** [l[0] === " " || l[0] === "\t" ? l.slice(m) : l]. *)
Definition strip_line (m : nat) (l : string) : string :=
  match l with
  | String c _ => if is_blank c then drop m l else l
  | EmptyString => l
  end.

(** [lines.join("\n")]. *)
Definition join_lines (lines : list string) : string := join_with NL lines.

Fixpoint trim_start (s : string) : string :=
  match s with
  | EmptyString => EmptyString
  | String c s' => if is_space c then trim_start s' else s
  end.

Fixpoint trim_end (s : string) : string :=
  match s with
  | EmptyString => EmptyString
  | String c s' =>
      match trim_end s' with
      | EmptyString => if is_space c then EmptyString else chr c
      | t => String c t
      end
  end.

(** [result.trim()]. *)
Definition trim (s : string) : string := trim_end (trim_start s).

(** The indentation stripping, the trim and the final
    [result.replace(/\\n/g, "\n")]. *)
Definition finish (result : string) : string :=
  let lines := split_lines result in
  let result :=
    match mindent_of lines with
    | Some m => join_lines (map (strip_line m) lines)
    | None => result
    end in
  replace_escaped "n" NL (trim result).

(** [dedent`...`] on the raw strings and the values of the template: it
    throws when the interpolation does. *)
Definition dedent (raw : list string) (values : list value) : completion string :=
  bind (interpolate raw values) (fun result => Normal (finish result)).

(** [dedent`...`] on a template whose values are strings: what [dedent]
    returns for them (lemma [dedent_of_strings]).  The [catch] clauses of
    the handlers interpolate two strings, a message and a time stamp. *)
Definition dedent_strings (raw : list string) (texts : list string) : string :=
  finish (interpolate_strings raw texts).

(** *** Text that [dedent] leaves alone *)

(** Neither a line feed nor a backslash. *)
Definition clean_char (c : ascii) : bool :=
  negb (Ascii.eqb c LF) && negb (Ascii.eqb c BACKSLASH).

Definition starts_nonspace (s : string) : bool :=
  match s with
  | String c _ => negb (is_space c)
  | EmptyString => false
  end.

Definition ends_nonspace (s : string) : bool :=
  match last_char s with
  | Some c => negb (is_space c)
  | None => false
  end.

(** A single line without backslashes that starts and ends with something
    other than white space. *)
Definition anchored (h : string) : bool :=
  all_chars clean_char h && starts_nonspace h && ends_nonspace h.

(** A single line without backslashes. *)
Definition plain_line (s : string) : bool := all_chars clean_char s.

Fixpoint strip_prefix (p s : string) : option string :=
  match p, s with
  | EmptyString, _ => Some s
  | String a p', String b s' => if Ascii.eqb a b then strip_prefix p' s' else None
  | String _ _, EmptyString => None
  end.

(** The blanks a line starts with, and the rest of the line. *)
Fixpoint span_blank (l : string) : string * string :=
  match l with
  | EmptyString => (EmptyString, EmptyString)
  | String c l' =>
      if is_blank c then let '(ind, rest) := span_blank l' in (String c ind, rest)
      else (EmptyString, l)
  end.

(** The first place of [s] where a line made of blanks, [h] and blanks
    stands between two line feeds: what is before it, the blanks on both
    sides of [h], what is after it. *)
Fixpoint locate (h s : string) : option (string * string * string * string) :=
  match s with
  | EmptyString => None
  | String c s' =>
      let here :=
        if Ascii.eqb c LF then
          let '(ind, rest) := span_blank s' in
          match strip_prefix h rest with
          | Some rest' =>
              let '(w, rest'') := span_blank rest' in
              match strip_prefix NL rest'' with
              | Some after => Some (EmptyString, ind, w, after)
              | None => None
              end
          | None => None
          end
        else None in
      match here with
      | Some found => Some found
      | None =>
          match locate h s' with
          | Some (before, ind, w, after) => Some (String c before, ind, w, after)
          | None => None
          end
      end
  end.

(** [s] cut at its last line feed. *)
Fixpoint rcut (s : string) : option (string * string) :=
  match s with
  | EmptyString => None
  | String c s' =>
      match rcut s' with
      | Some (a, b) => Some (String c a, b)
      | None => if Ascii.eqb c LF then Some (EmptyString, s') else None
      end
  end.

(** [s] without the line feed it starts with. *)
Definition lcut (s : string) : option string := strip_prefix NL s.

(** The string does not end with a backslash. *)
Definition ends_ok (s : string) : bool :=
  match last_char s with
  | Some c => negb (Ascii.eqb c BACKSLASH)
  | None => true
  end.

Definition no_backslash (s : string) : bool :=
  all_chars (fun c => negb (Ascii.eqb c BACKSLASH)) s.

(** *** The three places of a template a report is read at *)

(** A line of the template itself. *)
Definition has_line (h u : string) : bool :=
  match locate h u with
  | Some _ => true
  | None => false
  end.

(** An interpolated value alone on its line: the text before it ends with a
    line feed and blanks, the text after it starts with a line feed. *)
Definition hole_on_line (before after : string) : bool :=
  match rcut before, lcut after with
  | Some (_, ind), Some _ => all_chars is_blank ind
  | _, _ => false
  end.

(** An interpolated value at the end of a line that starts with blanks and
    [label]. *)
Definition hole_after (label before after : string) : bool :=
  match rcut before, lcut after with
  | Some (_, p), Some _ => String.eqb (snd (span_blank p)) label
  | _, _ => false
  end.

End Dedent.

(* ===================================================================== *)
(** ** [src/server.ts] *)
(* ===================================================================== *)

Module Server.
Import JS Zod Dedent.

(** *** The clock *)

(** A reading of the clock as [new Date()] takes it, by its UTC fields. *)
Record UTC : Type := {
  year : N; month : N; day : N;
  hours : N; minutes : N; seconds : N; milliseconds : N
}.

(** What one call reads from the clock: [Date.now()] when the request is
    built (only [structure_tool] reads it) and [new Date()] when a failure
    report is written. *)
Record Clock : Type := { request_ms : N; report_time : UTC }.

Fixpoint zeros (n : nat) : string :=
  match n with
  | O => EmptyString
  | S n' => String "0" (zeros n')
  end.

(** [s.padStart(width, "0")]. *)
Definition padStart (width : nat) (s : string) : string :=
  zeros (width - String.length s) ++ s.

(** [Date.prototype.toISOString]: [YYYY-MM-DDTHH:mm:ss.sssZ], the year
    with a sign and six digits past 9999. *)
Definition toISOString (t : UTC) : string :=
  (if (year t <=? 9999)%N then padStart 4 (decimal (year t))
   else "+" ++ padStart 6 (decimal (year t)))
  ++ "-" ++ padStart 2 (decimal (month t))
  ++ "-" ++ padStart 2 (decimal (day t))
  ++ "T" ++ padStart 2 (decimal (hours t))
  ++ ":" ++ padStart 2 (decimal (minutes t))
  ++ ":" ++ padStart 2 (decimal (seconds t))
  ++ "." ++ padStart 3 (decimal (milliseconds t))
  ++ "Z".

(** *** The remote service *)

(** The argument of [fetch]. *)
Record Request : Type := {
  url : string;
  method : string;
  headers : list (string * string);
  body : option string
}.

(** What the two awaits of a handler can meet: [fetch] rejects,
    [response.json()] rejects, or it resolves to the decoded envelope. *)
Inductive Reply : Type :=
| FetchRejects (e : thrown)
| JsonRejects (e : thrown)
| JsonResolves (result : value).

Definition Remote : Type := Request -> Reply.

Definition await_json (r : Reply) : completion value :=
  match r with
  | FetchRejects e => Throw e
  | JsonRejects e => Throw e
  | JsonResolves result => Normal result
  end.

(** *** What a handler returns *)

Record TextContent : Type := { type : string; text : string }.
Record CallToolResult : Type := { content : list TextContent }.

(** The return statement a call leaves its handler by: the API-error
    return inside [if (!result.success && !result.data)], the return of the
    instructions, or the return of the [catch] clause. *)
Inductive exit_point : Type :=
| ApiErrorReturn
| InstructionsReturn
| CatchReturn.

(** One call of a handler: the request it sent, what it logged with
    [console.error], the return statement taken and the value returned. *)
Record Run : Type := {
  sent : Request;
  logged : list thrown;
  exit : exit_point;
  returned : CallToolResult
}.

(** The text of the report ([content[0].text]). *)
Definition report_text (r : Run) : string :=
  match content (returned r) with
  | c :: _ => text c
  | [] => EmptyString
  end.

Definition is_failure (r : Run) : bool :=
  match exit r with
  | InstructionsReturn => false
  | ApiErrorReturn | CatchReturn => true
  end.

(** The error kinds of the specification, read off the return statement:
    the API-error return is [RemoteRejected], the [catch] clause is
    [TransportFault]; no return statement stands for [MalformedArtifact]. *)
Inductive ErrorKind : Type :=
| TransportFault
| RemoteRejected
| MalformedArtifact.

Definition error_kind (r : Run) : option ErrorKind :=
  match exit r with
  | ApiErrorReturn => Some RemoteRejected
  | CatchReturn => Some TransportFault
  | InstructionsReturn => None
  end.

#[global] Instance completion_ret : MRet completion := fun _ a => Normal a.
#[global] Instance completion_bind : MBind completion := fun _ _ k c => JS.bind c k.

Definition text_result (t : string) : CallToolResult :=
  {| content := [ {| type := "text"; text := t |} ] |}.

(** [try { body } catch (error) { console.error(..., error); return ... }].
    The text the [catch] clause returns is a [dedent] of two strings, the
    message and the time stamp: nothing can throw there. *)
Definition try_catch (request : Request) (body : completion (exit_point * string))
    (on_error : thrown -> string) : Run :=
  match body with
  | Normal (e, t) =>
      {| sent := request; logged := []; exit := e; returned := text_result t |}
  | Throw error =>
      {| sent := request; logged := [error]; exit := CatchReturn;
         returned := text_result (on_error error) |}
  end.

(** [error instanceof Error ? error.message : 'Unknown network error']. *)
Definition error_message (error : thrown) : string :=
  match error with
  | ErrorObject message => message
  | NonError _ => "Unknown network error"
  end.

(** [!result.success && !result.data]. *)
Definition no_success_no_data (result : value) : completion bool :=
  success ← get result "success";
  if negb (truthy success) then
    data ← get result "data";
    mret (negb (truthy data))
  else mret false.

Definition json_headers : list (string * string) :=
  [("Content-Type", "application/json")].

(** *** The report templates *)

(** The [dedent] template of the planner api error report; interpolated: [result.error || 'Unknown error occurred while generating the execution plan'], [new Date().toISOString()]. *)
Definition planner_api_error : list string :=
  ["
                ## ❌ Planner Tool API Error

                **Error Details:**
                ";
   ("

                **Troubleshooting Steps:**
                1. **Check your query** - Ensure it clearly describes what you want to build
                2. **Verify server connection** - The planning service may be temporarily unavailable
                3. **Try again** - Temporary issues sometimes resolve with retry
                4. **Simplify your request** - Break complex requirements into smaller parts

                **Example of a good query:**
                " ++ DQ ++ "Create a user management dashboard with a data grid showing user information, 
                filters for search, and buttons to add/edit/delete users using Kendo React components" ++ DQ ++ "

                **Timestamp:** ");
   "
              "].

(** The [dedent] template of the planner success report; interpolated: [result.data.plan]. *)
Definition planner_success : list string :=
  ["
        ## 📋 Kendo React Page Generation Plan

        **NEXT STEP:** Use the 'structure_tool' with this plan and the original query to generate the Abstract Component Tree.

        ### Execution Plan:
        ";
   "

        ### Instructions for Next Steps:
        1. **Copy this entire plan** - You'll need to pass it to the structure_tool
        2. **Call structure_tool** with both the original query and this execution plan
        3. **Follow the plan systematically** - Each step builds upon the previous one
        4. **Validate requirements** - Ensure all user requirements are captured in subsequent steps

        **Important:** Do not proceed to implementation without first generating the component structure using the structure_tool.
      "].

(** The [dedent] template of the planner network error report; interpolated: [error instanceof Error ? error.message : 'Unknown network error'], [new Date().toISOString()]. *)
Definition planner_network_error : list string :=
  ["
              ## ⚠️ Planner Tool Network Error

              **Connection Error:**
              ";
   "

              **Possible Causes:**
              1. **Server unavailable** - The planning service endpoint may be down
              2. **Network issues** - Check your internet connection
              3. **Configuration error** - Verify SERVER_URL and SECRET in environment
              4. **Timeout** - The request may have taken too long

              **Next Steps:**
              1. Check server status and retry in a few moments
              2. Verify environment configuration
              3. Contact administrator if issue persists

              **Timestamp:** ";
   "
            "].

(** The [dedent] template of the structure api error report; interpolated: [result.error || 'Unknown error occurred while generating the component structure'], [new Date().toISOString()]. *)
Definition structure_api_error : list string :=
  ["
                ## ❌ Structure Tool API Error

                **Error Details:**
                ";
   "

                **Troubleshooting Steps:**
                1. **Verify execution plan** - Ensure you're passing the complete plan from planner_tool
                2. **Check plan format** - The execution plan should be in the correct object format
                3. **Validate query** - Ensure the original query is included and matches the plan
                4. **Retry the request** - Temporary service issues may resolve automatically

                **Required Input Format:**
                - query: Original user request string
                - executionPlan: Complete plan object with id, userQuery, plan, and createdAt

                **Timestamp:** ";
   "
              "].

(** The [dedent] template of the structure success report; interpolated: [JSON.stringify(result.data.structure, null, 2)]. *)
Definition structure_success : list string :=
  ["
        ## 🏗️ Abstract Component Tree (ACT) Generated

        **NEXT STEP:** Use the 'merger_tool' with this ACT structure to generate the final Kendo React code.

        ### Component Structure:
        ";
   "

        ### Instructions for Next Steps:
        1. **Validate the structure** - Review the component hierarchy and ensure it matches your requirements
        2. **Copy the ACT structure** - You'll need to pass this exact structure to the merger_tool
        3. **Call merger_tool** with the ACT structure to generate the final React code
        4. **Review component choices** - Ensure the selected Kendo components align with your needs

        ### What This Structure Provides:
        - **Hierarchical layout** - Shows how components nest within each other
        - **Component types** - Specific Kendo React components recommended for each element
        - **Descriptions** - Purpose and functionality of each component
        - **MCP queries** - Specific queries to get detailed component documentation if needed

        **Important:** This structure serves as the blueprint for code generation. Verify it captures all your requirements before proceeding to the merger_tool.
      "].

(** The [dedent] template of the structure network error report; interpolated: [error instanceof Error ? error.message : 'Unknown network error'], [new Date().toISOString()]. *)
Definition structure_network_error : list string :=
  ["
              ## ⚠️ Structure Tool Network Error

              **Connection Error:**
              ";
   "

              **Possible Causes:**
              1. **Server unavailable** - The structure service endpoint may be down
              2. **Invalid execution plan** - The plan format may not be recognized
              3. **Network issues** - Check your internet connection
              4. **Configuration error** - Verify SERVER_URL and SECRET in environment

              **Next Steps:**
              1. Verify the execution plan is properly formatted
              2. Check server status and retry
              3. Ensure you're using the plan from planner_tool
              4. Contact administrator if issue persists

              **Timestamp:** ";
   "
            "].

(** The [dedent] template of the merger api error report; interpolated: [result.error || 'Unknown error occurred while generating the Kendo React code'], [new Date().toISOString()]. *)
Definition merger_api_error : list string :=
  ["
                ## ❌ Code Generator API Error

                **Error Details:**
                ";
   ("

                **Troubleshooting Steps:**
                1. **Verify ACT structure** - Ensure you're passing the complete Abstract Component Tree from structure_tool
                2. **Check component types** - Verify all component names are valid Kendo React components
                3. **Validate schema** - The ACT structure must follow the ACTComponentSchema format
                4. **Review component hierarchy** - Ensure the nesting structure is logical

                **Required Input Format:**
                - actStructure: Complete ACT object with component, description, mcpQuery, and children fields
                - All components should be valid Kendo React component names or HTML elements

                **Common Issues:**
                - Invalid component names (use " ++ DQ ++ "Grid" ++ DQ ++ ", " ++ DQ ++ "Button" ++ DQ ++ ", " ++ DQ ++ "Input" ++ DQ ++ ", etc.)
                - Missing or malformed component descriptions
                - Incorrect nesting structure in children arrays

                **Timestamp:** ");
   "
              "].

(** The [dedent] template of the merger success report; interpolated: [JSON.stringify(result.data.code.mainComponent, null, 2)]. *)
Definition merger_success : list string :=
  ["
        ## 🚀 Kendo React Code Generated Successfully!

        ### Generated Code:
        \`\`\`tsx
        ";
   "
        \`\`\`

        ## 📋 Implementation Checklist

        ### Step 1: Create the React Component File
        1. **Create the file** - Save the generated code to an appropriate location (e.g., \`src/components/GeneratedPage.tsx\`)
        2. **Review the code** - Ensure all imports and component usage look correct
        3. **Check file structure** - Verify the component follows React best practices

        ### Step 2: Install Required Dependencies
        Before running any scripts, ensure all Kendo React packages are installed:
        \`\`\`bash
        # Check if these packages are in package.json, install if missing:
        npm install @progress/kendo-react-grid
        npm install @progress/kendo-react-inputs
        npm install @progress/kendo-react-layout
        npm install @progress/kendo-react-buttons
        npm install @progress/kendo-react-dateinputs
        npm install @progress/kendo-react-dropdowns
        npm install @progress/kendo-theme-default
        \`\`\`

        ### Step 3: Validation & Error Resolution (Run in Order)
        Execute these commands and fix any errors before proceeding to the next:

        #### 3.1 TypeScript Compilation Check
        \`\`\`bash
        npx tsc --noEmit
        \`\`\`
        **Fix any TypeScript errors:**
        - Import statements and module resolution
        - Type definitions and interfaces
        - Component prop types
        - Missing type declarations

        #### 3.2 ESLint Code Quality Check
        \`\`\`bash
        npm run lint  # or pnpm lint
        \`\`\`
        **Fix any ESLint errors:**
        - Code style and formatting issues
        - Unused variables and imports
        - Missing dependencies in useEffect
        - Accessibility violations

        #### 3.3 Build Compilation
        \`\`\`bash
        npm run build  # or pnpm build
        \`\`\`
        **Fix any build errors:**
        - Module resolution issues
        - Missing dependencies
        - Configuration problems
        - Asset loading issues

        #### 3.4 Code Formatting (if available)
        \`\`\`bash
        npm run prettier  # or pnpm prettier (if available)
        \`\`\`

        ### Step 4: Testing & Verification
        1. **Start development server** - \`npm start\` or \`npm run dev\`
        2. **Test component rendering** - Verify all Kendo components display correctly
        3. **Test interactions** - Check buttons, inputs, and other interactive elements
        4. **Test responsiveness** - Ensure layout works on different screen sizes
        5. **Test data flow** - Verify state management and event handling

        ### Step 5: Common Issues & Solutions

        #### Missing Kendo Packages:
        - Install specific packages: \`npm install @progress/kendo-react-[component-name]\`
        - Add theme CSS: \`import '@progress/kendo-theme-default/dist/all.css'\`

        #### Import Errors:
        - Check component names match Kendo documentation
        - Verify package versions are compatible
        - Use correct import paths

        #### TypeScript Errors:
        - Add type definitions: \`npm install @types/[package-name]\`
        - Use proper typing for Kendo components
        - Define interfaces for data structures

        #### Styling Issues:
        - Import Kendo theme CSS in your main App component
        - Apply proper CSS classes for layout
        - Check responsive breakpoints

        ### Success Criteria ✅
        The implementation is complete when:
        - [ ] TypeScript compilation passes without errors
        - [ ] ESLint passes without warnings/errors  
        - [ ] Build completes successfully
        - [ ] All Kendo components render correctly
        - [ ] Interactive elements function as expected
        - [ ] Layout is responsive and accessible
        - [ ] No console errors in browser dev tools

        **🎉 Once all criteria are met, your Kendo React page is ready for production!**
      "].

(** The [dedent] template of the merger network error report; interpolated: [error instanceof Error ? error.message : 'Unknown network error'], [new Date().toISOString()]. *)
Definition merger_network_error : list string :=
  ["
              ## ⚠️ Code Generator Network Error

              **Connection Error:**
              ";
   "

              **Possible Causes:**
              1. **Server unavailable** - The code generation service endpoint may be down
              2. **Invalid ACT structure** - The component tree format may not be recognized
              3. **Network issues** - Check your internet connection
              4. **Configuration error** - Verify SERVER_URL and SECRET in environment

              **Next Steps:**
              1. Verify the ACT structure is properly formatted
              2. Check server status and retry
              3. Ensure you're using the structure from structure_tool
              4. Contact administrator if issue persists

              **Debug Info:**
              - Check that actStructure contains valid component data
              - Verify component types are recognized Kendo components
              - Ensure the structure follows the ACT schema

              **Timestamp:** ";
   "
            "].

(** *** The handlers *)

(** The handler registered as [planner_tool].  The two [dedent] calls of
    the [try] block are given [result.error || '...'] and
    [result.data.plan] as the remote sent them, and throw, inside the
    [try], when the value cannot be converted to a string. *)
Definition planner_tool (env : Env) (remote : Remote) (clock : Clock) (query : string) : Run :=
  let request :=
    {| url := SERVER_URL env ++ "/api/agents/planner/generate";
       method := "POST";
       headers := json_headers;
       body := stringify (JObject [("query", JString query);
                                   ("secret", JString (SECRET env))]) |} in
  try_catch request
    (result ← await_json (remote request);
     failed ← no_success_no_data result;
     if failed : bool then
       error ← get result "error";
       text ← dedent planner_api_error
                [or_else error
                   (JString "Unknown error occurred while generating the execution plan");
                 JString (toISOString (report_time clock))];
       mret (ApiErrorReturn, text)
     else
       data ← get result "data";
       plan ← get data "plan";
       instructions ← dedent planner_success [plan];
       mret (InstructionsReturn, instructions))
    (fun error =>
       dedent_strings planner_network_error
         [error_message error; toISOString (report_time clock)]).

(** The handler registered as [structure_tool]. *)
Definition structure_tool (env : Env) (remote : Remote) (clock : Clock)
    (plan query : string) : Run :=
  let request :=
    {| url := SERVER_URL env ++ "/api/agents/structure/generate";
       method := "POST";
       headers := json_headers;
       body := stringify
                 (JObject [("executionPlan",
                            JObject [("id", JString ("plan-" ++ decimal (request_ms clock)));
                                     ("userQuery", JString query);
                                     ("plan", JString plan)]);
                           ("query", JString query);
                           ("secret", JString (SECRET env))]) |} in
  try_catch request
    (result ← await_json (remote request);
     failed ← no_success_no_data result;
     if failed : bool then
       error ← get result "error";
       text ← dedent structure_api_error
                [or_else error
                   (JString "Unknown error occurred while generating the component structure");
                 JString (toISOString (report_time clock))];
       mret (ApiErrorReturn, text)
     else
       data ← get result "data";
       structure ← get data "structure";
       instructions ← dedent structure_success
                        [JString (interpolated (stringify2 structure))];
       mret (InstructionsReturn, instructions))
    (fun error =>
       dedent_strings structure_network_error
         [error_message error; toISOString (report_time clock)]).

(** The handler registered as [merger_tool]; [actStructure] has passed the
    input schema. *)
Definition merger_tool (env : Env) (remote : Remote) (clock : Clock)
    (actStructure : value) : Run :=
  let request :=
    {| url := SERVER_URL env ++ "/api/agents/merger/generate";
       method := "POST";
       headers := json_headers;
       body := stringify (JObject [("actStructure", actStructure);
                                   ("secret", JString (SECRET env))]) |} in
  try_catch request
    (result ← await_json (remote request);
     failed ← no_success_no_data result;
     if failed : bool then
       error ← get result "error";
       text ← dedent merger_api_error
                [or_else error
                   (JString "Unknown error occurred while generating the Kendo React code");
                 JString (toISOString (report_time clock))];
       mret (ApiErrorReturn, text)
     else
       data ← get result "data";
       code ← get data "code";
       mainComponent ← get code "mainComponent";
       instructions ← dedent merger_success
                        [JString (interpolated (stringify2 mainComponent))];
       mret (InstructionsReturn, instructions))
    (fun error =>
       dedent_strings merger_network_error
         [error_message error; toISOString (report_time clock)]).

(** A tool call with arguments of the declared types. *)
Inductive tool_call : Type :=
| call_planner (query : string)
| call_structure (plan query : string)
| call_merger (actStructure : value).

(** The handler a call is dispatched to. *)
Definition handler (env : Env) (remote : Remote) (clock : Clock) (c : tool_call) : Run :=
  match c with
  | call_planner query => planner_tool env remote clock query
  | call_structure plan query => structure_tool env remote clock plan query
  | call_merger actStructure => merger_tool env remote clock actStructure
  end.

(** *** The shape the three handlers share

    Used to reason about the three handlers at once: the request, the two
    failure templates, the default error text and the instructions are what
    differs between them. *)

Definition stage (request : Request) (api_error network_error : list string)
    (unknown : string) (instructions : value -> completion string)
    (remote : Remote) (clock : Clock) : Run :=
  try_catch request
    (result ← await_json (remote request);
     failed ← no_success_no_data result;
     if failed : bool then
       error ← get result "error";
       text ← dedent api_error
                [or_else error (JString unknown);
                 JString (toISOString (report_time clock))];
       mret (ApiErrorReturn, text)
     else
       t ← instructions result;
       mret (InstructionsReturn, t))
    (fun error =>
       dedent_strings network_error
         [error_message error; toISOString (report_time clock)]).

Definition endpoint (c : tool_call) : string :=
  match c with
  | call_planner _ => "/api/agents/planner/generate"
  | call_structure _ _ => "/api/agents/structure/generate"
  | call_merger _ => "/api/agents/merger/generate"
  end.

(** The fields of the request body that come before [secret]. *)
Definition payload (clock : Clock) (c : tool_call) : list (string * value) :=
  match c with
  | call_planner query => [("query", JString query)]
  | call_structure plan query =>
      [("executionPlan",
        JObject [("id", JString ("plan-" ++ decimal (request_ms clock)));
                 ("userQuery", JString query);
                 ("plan", JString plan)]);
       ("query", JString query)]
  | call_merger actStructure => [("actStructure", actStructure)]
  end.

Definition request_of (env : Env) (clock : Clock) (c : tool_call) : Request :=
  {| url := SERVER_URL env ++ endpoint c;
     method := "POST";
     headers := json_headers;
     body := stringify (JObject (payload clock c ++ [("secret", JString (SECRET env))])%list) |}.

Definition api_error_template (c : tool_call) : list string :=
  match c with
  | call_planner _ => planner_api_error
  | call_structure _ _ => structure_api_error
  | call_merger _ => merger_api_error
  end.

Definition network_error_template (c : tool_call) : list string :=
  match c with
  | call_planner _ => planner_network_error
  | call_structure _ _ => structure_network_error
  | call_merger _ => merger_network_error
  end.

Definition unknown_error (c : tool_call) : string :=
  match c with
  | call_planner _ => "Unknown error occurred while generating the execution plan"
  | call_structure _ _ => "Unknown error occurred while generating the component structure"
  | call_merger _ => "Unknown error occurred while generating the Kendo React code"
  end.

Definition instructions_of (c : tool_call) (result : value) : completion string :=
  match c with
  | call_planner _ =>
      data ← get result "data";
      plan ← get data "plan";
      dedent planner_success [plan]
  | call_structure _ _ =>
      data ← get result "data";
      structure ← get data "structure";
      dedent structure_success [JString (interpolated (stringify2 structure))]
  | call_merger _ =>
      data ← get result "data";
      code ← get data "code";
      mainComponent ← get code "mainComponent";
      dedent merger_success [JString (interpolated (stringify2 mainComponent))]
  end.

(** The section heading under which a failure report gives its advice. *)
Definition remediation_heading (e : exit_point) : string :=
  match e with
  | ApiErrorReturn => "**Troubleshooting Steps:**"
  | CatchReturn => "**Next Steps:**"
  | InstructionsReturn => EmptyString
  end.

(** *** The shape of the failure templates *)

(** A failure template: the cause stands alone on a line, the advice is
    under the heading [heading], and the time stamp ends the line that
    starts with the label. *)
Definition timestamp_label : string := "**Timestamp:** ".

(** The lines of the template between the cause and the time stamp, without
    their indentation, the empty ones left out: the advice of the report. *)
Definition fixed_lines (template : list string) : list string :=
  match template with
  | [_; r1; _] =>
      filter (fun h => negb (is_empty h))
        (map trim (removelast (split_lines (unescape r1))))
  | _ => []
  end.

Definition failure_template (heading : string) (template : list string) : bool :=
  match template with
  | [r0; r1; r2] =>
      hole_on_line (unescape r0) (unescape r1)
      && forallb (fun h => has_line h (unescape r1) && anchored h) (fixed_lines template)
      && existsb (String.eqb heading) (fixed_lines template)
      && hole_after timestamp_label (unescape r1) (unescape r2)
  | _ => false
  end.

(** The line of the cause of a failure template is not the least indented
    one, and lines with something else than white space stand before it
    and after it: the text before the cause has a line indented no deeper
    than the cause, and the text between the cause and the time stamp has
    an indented line. *)
Definition cause_enclosed (template : list string) : bool :=
  match template with
  | [r0; r1; _] =>
      match rcut (unescape r0), lcut (unescape r1) with
      | Some (before, ind), Some after =>
          match rcut after with
          | Some (lines_after, _) =>
              existsb (fun l => match indent_of l with
                                | Some k => (k <=? String.length ind)%nat
                                | None => false
                                end) (split_lines before)
              && existsb (fun l => match indent_of l with
                                   | Some _ => true
                                   | None => false
                                   end) (split_lines lines_after)
          | None => false
          end
      | _, _ => false
      end
  | _ => false
  end.

(** The advice a failure report gives, by the return it comes from. *)
Definition advice (c : tool_call) (e : exit_point) : list string :=
  match e with
  | ApiErrorReturn => fixed_lines (api_error_template c)
  | CatchReturn => fixed_lines (network_error_template c)
  | InstructionsReturn => []
  end.

(** What a time stamp is made of. *)
Definition stamp_char (c : ascii) : bool := clean_char c && negb (is_space c).

(** *** Start-up *)

Record McpServer : Type := { name : string; version : string; tools : list string }.

Definition registerTool (tool : string) (server : McpServer) : McpServer :=
  {| name := name server; version := version server;
     tools := (tools server ++ [tool])%list |}.

(** Evaluating the module [server.ts]: its import of [./env.js] is
    evaluated first, and [envSchema.parse(process.env)] throws there when
    the configuration is invalid, so that no statement of [server.ts] runs;
    otherwise the server is created and the three tools are registered. *)
Inductive startup : Type :=
| Fatal (issues : list issue)
| Serving (env : Env) (server : McpServer).

Definition start (process_env : gmap string string) : startup :=
  match envSchema process_env with
  | Invalid issues => Fatal issues
  | Valid env =>
      Serving env
        (registerTool "merger_tool"
           (registerTool "structure_tool"
              (registerTool "planner_tool"
                 {| name := "kendoai-mcp"; version := "1.0.0"; tools := [] |})))
  end.

Definition registered (s : startup) : list string :=
  match s with
  | Fatal _ => []
  | Serving _ server => tools server
  end.

Inductive invocation : Type :=
| NotServing
| InvalidParams (issues : list issue)
| Handled (run : Run).

(** A call reaches a handler only through a server that started; the
    handler then runs with the parsed configuration.  The tree given to
    [merger_tool] is checked against its input schema first. *)
Definition invoke (s : startup) (remote : Remote) (clock : Clock) (c : tool_call)
    : invocation :=
  match s with
  | Fatal _ => NotServing
  | Serving env _ =>
      match c with
      | call_merger input =>
          match ACTComponentSchema [Key "actStructure"] input with
          | Valid actStructure => Handled (handler env remote clock (call_merger actStructure))
          | Invalid issues => InvalidParams issues
          end
      | _ => Handled (handler env remote clock c)
      end
  end.

End Server.

(* ===================================================================== *)
(** ** Values used in the statements *)
(* ===================================================================== *)

Module Samples.
Import JS Zod Server.

(** An object with the four keys of an ACT node, in the order of the schema. *)
Definition node (component description mcpQuery children : value) : value :=
  JObject [("component", component); ("description", description);
           ("mcpQuery", mcpQuery); ("children", children)].

Definition is_string (v : value) : bool :=
  match v with JString _ => true | _ => false end.

Definition is_nullable_string (v : value) : bool :=
  match v with JString _ | JNull => true | _ => false end.

Definition is_array (v : value) : bool :=
  match v with JArray _ => true | _ => false end.

(** What the union of [children] accepts: a string, or an array whose
    elements the schema accepts. *)
Definition children_accepted (x : value) : bool :=
  match x with
  | JString _ => true
  | JArray items => forallb (fun y => is_valid (validate y)) items
  | _ => false
  end.

(** A remote service that gives the same reply to every request. *)
Definition always (reply : Reply) : Remote := fun _ => reply.

Definition sample_env : Env :=
  {| SECRET := "hunter2"; SERVER_URL := "http://localhost:3000" |}.

Definition sample_time : UTC :=
  {| year := 2026; month := 11; day := 3;
     hours := 9; minutes := 30; seconds := 15; milliseconds := 7 |}.

Definition sample_clock : Clock :=
  {| request_ms := 1793698215007; report_time := sample_time |}.

(** The same call, reported one second later. *)
Definition later_clock : Clock :=
  {| request_ms := 1793698215007;
     report_time := {| year := 2026; month := 11; day := 3;
                       hours := 9; minutes := 30; seconds := 16; milliseconds := 7 |} |}.

(** The node of the specification's third scenario. *)
Definition scenario3_structure : value :=
  JObject [("component", JString "Grid"); ("description", JString EmptyString);
           ("children", JString "x")].

End Samples.

(* ===================================================================== *)
(** ** The server with a single tool ([generate_page]) *)
(* ===================================================================== *)

(** The other [server.ts] of the repository registers one tool,
    [generate_page].  Its handler has the guard and the [try]/[catch] of
    the three handlers above; its failure reports are JSON texts and its
    instructions are an ordinary template literal, without [dedent].  The
    handler reads [result.data.kendoComponents.code]; [kendoComponents] is
    no inherited property of a primitive or an array either. *)
Module Legacy.
Import JS Zod Dedent Server.

(** The template literal of the instructions of [generate_page], around
    [${JSON.stringify(result.data.kendoComponents.code, null, 2)}]. *)
Definition instructions_before : string :=
  "
    TASK: Create a new React page with Kendo UI components

    GENERATED CODE:
    ".

Definition instructions_after : string :=
  "

    INSTRUCTIONS:
    1. Create the file with the generated code
    2. Check available scripts in package.json and run them iteratively until all errors are resolved:
       - Run 'npm run build' or 'pnpm build' to compile the page
       - Run 'npm run lint' or 'pnpm lint' to check for ESLint errors
       - Run 'npm run prettier' or 'pnpm prettier' if available to format code
       - Run 'npx tsc --noEmit' to check TypeScript compilation errors
    3. Fix any errors that appear and iterate until everything works:
       - Fix ESLint errors by correcting code style and syntax issues
       - Fix TypeScript errors by correcting type issues and imports
       - Fix build errors by ensuring all dependencies are properly installed
       - Fix Prettier formatting issues if the script is available
    4. If build fails, check for missing Kendo packages and install them:
       - Install missing @progress/kendo-react-* packages as needed
       - Ensure all imports are valid and components are used correctly
    5. Continue iterating through the script checks until:
       - Build completes successfully with no errors
       - Lint passes with no warnings or errors
       - TypeScript compilation succeeds with no type errors
       - Prettier formatting is applied (if available)
    6. The page should be fully functional and error-free before considering the task complete
".

(** [JSON.stringify({...})] as the text of a report: an object literal
    always serializes to a string. *)
Definition json_text (fields : list (string * value)) : string :=
  match stringify (JObject fields) with
  | Some s => s
  | None => EmptyString
  end.

(** [error instanceof Error ? error.message : 'Unknown error']. *)
Definition caught_message (error : thrown) : value :=
  match error with
  | ErrorObject message => JString message
  | NonError _ => JString "Unknown error"
  end.

(** The handler registered as [generate_page]. *)
Definition generate_page (env : Env) (remote : Remote) (clock : Clock) (query : string) : Run :=
  let request :=
    {| url := SERVER_URL env ++ "/api/agents/generate";
       method := "POST";
       headers := json_headers;
       body := stringify (JObject [("query", JString query);
                                   ("secret", JString (SECRET env))]) |} in
  try_catch request
    (result ← await_json (remote request);
     failed ← no_success_no_data result;
     if failed : bool then
       error ← get result "error";
       mret (ApiErrorReturn,
             json_text [("success", JBool false);
                        ("error", error);
                        ("timestamp", JString (toISOString (report_time clock)))])
     else
       data ← get result "data";
       kendoComponents ← get data "kendoComponents";
       code ← get kendoComponents "code";
       mret (InstructionsReturn,
             instructions_before ++ interpolated (stringify2 code) ++ instructions_after))
    (fun error =>
       json_text [("success", JBool false);
                  ("error", caught_message error);
                  ("timestamp", JString (toISOString (report_time clock)))]).

(** The request of [generate_page]. *)
Definition generate_page_request (env : Env) (query : string) : Request :=
  {| url := SERVER_URL env ++ "/api/agents/generate";
     method := "POST";
     headers := json_headers;
     body := stringify (JObject [("query", JString query);
                                 ("secret", JString (SECRET env))]) |}.

(** The start and the end of the JSON text of a failure report. *)
Definition failure_opening : string := "{" ++ quote "success" ++ ":false".

Definition failure_closing (clock : Clock) : string :=
  "," ++ quote "timestamp" ++ ":" ++ quote (toISOString (report_time clock)) ++ "}".

End Legacy.

(* ===================================================================== *)
(** ** Shapes: of the data the schema returns, of its issues, of the reports *)
(* ===================================================================== *)

Module Shapes.
Import JS Zod Dedent Server Samples.

(** *** [src/types.ts] *)

(** The shape of the data the schema returns: exactly the four keys of the
    shape, in its order, [component] and [description] strings, [mcpQuery] a
    string or [null], [children] a string or an array of such objects. *)
Fixpoint normalized (v : value) : bool :=
  match v with
  | JObject [(k1, JString _); (k2, JString _); (k3, q); (k4, ch)] =>
      String.eqb k1 "component" && String.eqb k2 "description"
      && String.eqb k3 "mcpQuery" && String.eqb k4 "children"
      && match q with JString _ | JNull => true | _ => false end
      && match ch with
         | JString _ => true
         | JArray items => forallb normalized items
         | _ => false
         end
  | _ => false
  end.

(** The keys of the shape of [ACTComponentSchema]. *)
Definition shape_keys : list string := ["component"; "description"; "mcpQuery"; "children"].

Definition in_shape (k : string) : bool := existsb (String.eqb k) shape_keys.

Definition issue_path (i : issue) : list path_elem :=
  match i with
  | invalid_type path _ _ => path
  | too_small path _ => path
  | invalid_union path _ => path
  end.

Fixpoint is_prefix (p q : list path_elem) : bool :=
  match p, q with
  | [], _ => true
  | a :: p', b :: q' =>
      match a, b with
      | Key k, Key k' => String.eqb k k' && is_prefix p' q'
      | Index i, Index j => Nat.eqb i j && is_prefix p' q'
      | _, _ => false
      end
  | _ :: _, [] => false
  end.

(** The issue, and every issue nested in it by a failed union, is located
    at [p] or below. *)
Fixpoint located_under (p : list path_elem) (i : issue) : bool :=
  is_prefix p (issue_path i)
  && match i with
     | invalid_union _ unionErrors =>
         forallb (forallb (located_under p)) unionErrors
     | _ => true
     end.

(** How many of the four fields of an object the schema rejects. *)
Definition rejected_fields (fields : list (string * value)) : nat :=
  let count (b : bool) := if b then 0 else 1 in
  count (is_string (field "component" fields))
  + count (is_string (field "description" fields))
  + count (is_nullable_string (field "mcpQuery" fields))
  + count (children_accepted (field "children" fields)).

(** Induction on an issue together with the issues a failed union carries. *)
Section issue_induction.

Variable P : issue -> Prop.
Hypothesis Htype : forall path expected received, P (invalid_type path expected received).
Hypothesis Hsmall : forall path minimum, P (too_small path minimum).
Hypothesis Hunion : forall path unionErrors,
  Forall (Forall P) unionErrors -> P (invalid_union path unionErrors).

Fixpoint issue_ind' (i : issue) : P i :=
  match i with
  | invalid_type path expected received => Htype path expected received
  | too_small path minimum => Hsmall path minimum
  | invalid_union path unionErrors =>
      Hunion path unionErrors
        ((fix outer (ls : list (list issue)) : Forall (Forall P) ls :=
            match ls with
            | [] => @List.Forall_nil _ (Forall P)
            | l :: rest =>
                @List.Forall_cons _ (Forall P) l rest
                  ((fix inner (xs : list issue) : Forall P xs :=
                      match xs with
                      | [] => @List.Forall_nil _ P
                      | x :: xs' => @List.Forall_cons _ P x xs' (issue_ind' x) (inner xs')
                      end) l)
                  (outer rest)
            end) unionErrors)
  end.

End issue_induction.

(** *** [src/env.ts] *)

(** The issue [envSchema] reports for one variable of the environment:
    none when it is set to a non-empty string. *)
Definition variable_issues (process_env : gmap string string) (name : string) : list issue :=
  match process_env !! name with
  | None => [invalid_type [Key name] t_string t_undefined]
  | Some s => if is_empty s then [too_small [Key name] 1] else []
  end.

(** *** [src/server.ts] *)

(** [s.endsWith(p)]. *)
Definition ends_with (p s : string) : bool :=
  String.eqb (Dedent.drop (String.length s - String.length p) s) p.

(** The template starts with a line feed and a line made of blanks, [h]
    and blanks. *)
Definition heads (h u : string) : bool :=
  match locate h u with
  | Some (EmptyString, _, _, _) => true
  | _ => false
  end.

(** The template ends with a line feed and blanks. *)
Definition closes (u : string) : bool :=
  match lcut u with
  | Some y => all_chars is_blank y
  | None => false
  end.

(** The lines of a piece of a template that stand between two line feeds,
    without the blanks around them, the empty ones left out. *)
Definition lines_of (piece : string) : list string :=
  filter (fun h => negb (is_empty h)) (map trim (removelast (split_lines (unescape piece)))).

Definition success_template (c : tool_call) : list string :=
  match c with
  | call_planner _ => planner_success
  | call_structure _ _ => structure_success
  | call_merger _ => merger_success
  end.

(** The template a report is written from, by the return it comes from. *)
Definition template_of (c : tool_call) (e : exit_point) : list string :=
  match e with
  | ApiErrorReturn => api_error_template c
  | InstructionsReturn => success_template c
  | CatchReturn => network_error_template c
  end.

(** The first line of a template, its heading. *)
Definition report_heading (c : tool_call) (e : exit_point) : string :=
  match template_of c e with
  | r0 :: _ => hd EmptyString (lines_of r0)
  | [] => EmptyString
  end.


(** The shape of a template of instructions: the heading comes first, the
    artifact stands alone on its line, and every other line is kept as it
    is. *)
Definition success_template_shape (c : tool_call) : bool :=
  match success_template c with
  | [r0; r1] =>
      hole_on_line (unescape r0) (unescape r1)
      && forallb (fun h => has_line h (unescape r0) && anchored h) (lines_of r0)
      && forallb (fun h => has_line h (unescape r1) && anchored h) (lines_of r1)
  | _ => false
  end.

(** The heading of each of the three templates of a tool comes first in its
    template, and no heading starts with another. *)
Definition headings_shape (c : tool_call) : bool :=
  let all := [ApiErrorReturn; InstructionsReturn; CatchReturn] in
  forallb (fun e =>
             match template_of c e with
             | r0 :: _ => heads (report_heading c e) (unescape r0)
             | [] => false
             end
             && anchored (report_heading c e)
             && forallb (fun e' =>
                           match e, e' with
                           | ApiErrorReturn, ApiErrorReturn
                           | InstructionsReturn, InstructionsReturn
                           | CatchReturn, CatchReturn => true
                           | _, _ => negb (starts_with (report_heading c e) (report_heading c e'))
                           end) all) all.

(** A failure template ends after the time stamp. *)
Definition failure_template_end (template : list string) : bool :=
  match template with
  | [_; _; r2] => closes (unescape r2)
  | _ => false
  end.

(** The property of [result.data] a handler reads first. *)
Definition artifact_key (c : tool_call) : string :=
  match c with
  | call_planner _ => "plan"
  | call_structure _ _ => "structure"
  | call_merger _ => "code"
  end.

Definition is_object (v : value) : bool :=
  match v with JObject _ => true | _ => false end.

End Shapes.

(* ===================================================================== *)
(** * Properties *)
(* ===================================================================== *)

Import JS Zod Dedent Server Samples.

(** ** Strings *)

Lemma append_nil_r (s : string) : s ++ EmptyString = s.
Proof. induction s as [|c s IH]; simpl; [reflexivity | now rewrite IH]. Qed.

Lemma append_assoc (a b c : string) : (a ++ b) ++ c = a ++ b ++ c.
Proof. induction a as [|x a IH]; simpl; [reflexivity | now rewrite IH]. Qed.

Lemma append_length (a b : string) :
  String.length (a ++ b) = String.length a + String.length b.
Proof. induction a as [|x a IH]; simpl; [reflexivity | now rewrite IH]. Qed.

Lemma starts_with_spec (p s : string) :
  starts_with p s = true <-> exists r, s = p ++ r.
Proof.
  revert s. induction p as [|a p IH]; intros s; simpl.
  - split; [intros _; now exists s | reflexivity].
  - destruct s as [|b s].
    + split; [discriminate | intros [r Hr]; discriminate].
    + rewrite andb_true_iff, IH, Ascii.eqb_eq. split.
      * intros [-> [r ->]]. now exists r.
      * intros [r Hr]. injection Hr as -> ->. split; [reflexivity | now exists r].
Qed.

Lemma occurs_in_app_l (t s a : string) : occurs_in t s -> occurs_in t (a ++ s).
Proof.
  intros [x [y ->]]. exists (a ++ x), y. now rewrite append_assoc.
Qed.

Lemma occurs_in_app_r (t s b : string) : occurs_in t s -> occurs_in t (s ++ b).
Proof.
  intros [x [y ->]]. exists x, (y ++ b). now rewrite !append_assoc.
Qed.

Lemma occurs_in_here (t a b : string) : occurs_in t (a ++ t ++ b).
Proof. now exists a, b. Qed.

Lemma includes_spec (s t : string) : includes s t = true <-> occurs_in t s.
Proof.
  induction s as [|c s IH]; simpl.
  - destruct (starts_with t EmptyString) eqn:E.
    + split; [intros _ | reflexivity].
      apply starts_with_spec in E as [r Hr]. exists EmptyString, r. exact Hr.
    + split; [discriminate|]. intros [a [b H]].
      destruct a; [|discriminate]. simpl in H.
      assert (starts_with t EmptyString = true) as E'
        by (apply starts_with_spec; now exists b).
      congruence.
  - destruct (starts_with t (String c s)) eqn:E.
    + split; [intros _ | reflexivity].
      apply starts_with_spec in E as [r Hr]. exists EmptyString, r. exact Hr.
    + rewrite IH. split.
      * intros H. apply (occurs_in_app_l t s (chr c)) in H. exact H.
      * intros [a [b H]]. destruct a as [|x a].
        -- simpl in H.
           assert (starts_with t (String c s) = true) as E'
             by (apply starts_with_spec; now exists b).
           congruence.
        -- simpl in H. injection H as _ ->. now exists a, b.
Qed.

Lemma all_chars_app (p : ascii -> bool) (a b : string) :
  all_chars p (a ++ b) = all_chars p a && all_chars p b.
Proof.
  induction a as [|x a IH]; simpl; [reflexivity|].
  now rewrite IH, andb_assoc.
Qed.

Lemma all_chars_impl (p q : ascii -> bool) (s : string) :
  (forall c, p c = true -> q c = true) ->
  all_chars p s = true -> all_chars q s = true.
Proof.
  intros Hpq. induction s as [|c s IH]; simpl; [reflexivity|].
  rewrite !andb_true_iff. intros [Hc Hs]. split; auto.
Qed.

Lemma last_char_cons (c : ascii) (s : string) :
  last_char (String c s) = match s with EmptyString => Some c | _ => last_char s end.
Proof. destruct s; reflexivity. Qed.

Lemma last_char_app_r (a b : string) (c : ascii) :
  last_char b = Some c -> last_char (a ++ b) = Some c.
Proof.
  intros Hb. induction a as [|x a IH]; simpl; [exact Hb|].
  destruct (a ++ b) eqn:E; [discriminate IH | exact IH].
Qed.

Lemma last_char_none (s : string) : last_char s = None -> s = EmptyString.
Proof.
  induction s as [|c s IH]; [reflexivity|].
  rewrite last_char_cons. destruct s; [discriminate|]. intros H.
  specialize (IH H). discriminate.
Qed.

(** ** [dedent]: lines *)

Lemma NL_app (s : string) : NL ++ s = String LF s.
Proof. reflexivity. Qed.

Lemma split_lines_nonempty (s : string) : split_lines s <> [].
Proof.
  destruct s as [|c s]; simpl; [discriminate|].
  destruct (Ascii.eqb c LF); [discriminate|].
  destruct (split_lines s); discriminate.
Qed.

Lemma split_lines_app_LF (a b : string) :
  split_lines (a ++ String LF b) = (split_lines a ++ split_lines b)%list.
Proof.
  induction a as [|c a IH]; simpl.
  - reflexivity.
  - rewrite IH. destruct (Ascii.eqb c LF); [reflexivity|].
    pose proof (split_lines_nonempty a) as Hne.
    destruct (split_lines a); [congruence | reflexivity].
Qed.

Lemma split_lines_single (l : string) :
  all_chars (fun c => negb (Ascii.eqb c LF)) l = true -> split_lines l = [l].
Proof.
  induction l as [|c l IH]; simpl; [reflexivity|].
  rewrite andb_true_iff, negb_true_iff. intros [Hc Hl].
  rewrite Hc, (IH Hl). reflexivity.
Qed.

Lemma join_with_cons (sep p : string) (rest : list string) :
  rest <> [] -> join_with sep (p :: rest) = p ++ sep ++ join_with sep rest.
Proof. destruct rest; [congruence | reflexivity]. Qed.

Lemma join_lines_mid (L1 : list string) (l : string) (L2 : list string) :
  L1 <> [] -> L2 <> [] ->
  join_lines (L1 ++ l :: L2) = join_lines L1 ++ NL ++ l ++ NL ++ join_lines L2.
Proof.
  unfold join_lines. intros H1 H2. induction L1 as [|x L1 IH]; [congruence|].
  destruct L1 as [|y L1].
  - cbn [app]. rewrite join_with_cons by discriminate.
    rewrite join_with_cons by assumption. reflexivity.
  - change ((x :: y :: L1) ++ l :: L2)%list with (x :: ((y :: L1) ++ l :: L2))%list.
    rewrite join_with_cons by discriminate.
    rewrite IH by discriminate.
    rewrite (join_with_cons NL x (y :: L1)) by discriminate.
    now rewrite !append_assoc.
Qed.

(** ** [dedent]: the smallest indentation *)

Lemma indent_of_pos (l : string) (k : nat) : indent_of l = Some k -> 1 <= k.
Proof.
  unfold indent_of. destruct (leading_space l) as [|n]; simpl; [discriminate|].
  destruct (is_empty _); simpl; [discriminate|]. intros [= <-]. lia.
Qed.

Lemma mindent_step_pos (acc : option nat) (l : string) :
  (forall a, acc = Some a -> 1 <= a) ->
  forall a, mindent_step acc l = Some a -> 1 <= a.
Proof.
  intros Hacc a. unfold mindent_step.
  destruct (indent_of l) as [k|] eqn:Hk; [|auto].
  apply indent_of_pos in Hk.
  destruct acc as [m|]; [|intros [= <-]; exact Hk].
  destruct (Nat.eqb m 0); intros [= <-]; [exact Hk|].
  specialize (Hacc m eq_refl). lia.
Qed.

Lemma mindent_fold_le (lines : list string) (a : nat) :
  1 <= a ->
  exists m, fold_left mindent_step lines (Some a) = Some m /\ 1 <= m <= a.
Proof.
  revert a. induction lines as [|x xs IH]; intros a Ha; simpl.
  - exists a. split; [reflexivity | lia].
  - unfold mindent_step at 2. destruct (indent_of x) as [k|] eqn:Hk.
    + apply indent_of_pos in Hk.
      destruct (Nat.eqb_spec a 0) as [->|_]; [lia|].
      destruct (IH (Nat.min a k)) as [m [Hm Hle]]; [lia|].
      exists m. split; [exact Hm | lia].
    + apply IH, Ha.
Qed.

Lemma mindent_fold_bound (lines : list string) (acc : option nat) (l : string) (k : nat) :
  (forall a, acc = Some a -> 1 <= a) ->
  In l lines -> indent_of l = Some k ->
  exists m, fold_left mindent_step lines acc = Some m /\ 1 <= m <= k.
Proof.
  revert acc. induction lines as [|x xs IH]; intros acc Hacc Hin Hk; [destruct Hin|].
  simpl. destruct Hin as [->|Hin].
  - assert (exists a, mindent_step acc l = Some a /\ 1 <= a <= k) as [a [Ha Hle]].
    { pose proof (indent_of_pos _ _ Hk) as Hpos.
      unfold mindent_step. rewrite Hk. destruct acc as [m|].
      - destruct (Nat.eqb m 0).
        + exists k. split; [reflexivity | lia].
        + specialize (Hacc m eq_refl). exists (Nat.min m k). split; [reflexivity | lia].
      - exists k. split; [reflexivity | lia]. }
    rewrite Ha. destruct (mindent_fold_le xs a) as [m [Hm Hm']]; [lia|].
    exists m. split; [exact Hm | lia].
  - apply IH; [|exact Hin | exact Hk].
    apply mindent_step_pos, Hacc.
Qed.

Lemma leading_space_blank_app (ind h : string) :
  all_chars is_blank ind = true -> starts_nonspace h = true ->
  leading_space (ind ++ h) = String.length ind.
Proof.
  intros Hind Hh. induction ind as [|c ind IH]; simpl in *.
  - destruct h as [|x h]; [discriminate|]. simpl in *.
    apply negb_true_iff in Hh. now rewrite Hh.
  - apply andb_true_iff in Hind as [Hc Hind].
    assert (is_space c = true) as ->.
    { unfold is_blank in Hc. unfold is_space.
      apply orb_true_iff in Hc as [-> | ->]; [reflexivity|].
      now rewrite orb_true_r. }
    now rewrite IH.
Qed.

Lemma drop_app (m : nat) (a b : string) :
  m <= String.length a -> drop m (a ++ b) = drop m a ++ b.
Proof.
  revert a. induction m as [|m IH]; intros a Hm; [reflexivity|].
  destruct a as [|c a]; simpl in *; [lia|]. apply IH. lia.
Qed.

Lemma drop_all_chars (p : ascii -> bool) (m : nat) (a : string) :
  all_chars p a = true -> all_chars p (drop m a) = true.
Proof.
  revert a. induction m as [|m IH]; intros a Ha; [exact Ha|].
  destruct a as [|c a]; [reflexivity|]. simpl in *.
  apply andb_true_iff in Ha as [_ Ha]. now apply IH.
Qed.

Lemma indent_of_blank_app (ind h : string) :
  ind <> EmptyString ->
  all_chars is_blank ind = true -> starts_nonspace h = true ->
  indent_of (ind ++ h) = Some (String.length ind).
Proof.
  intros Hne Hind Hh. unfold indent_of.
  rewrite (leading_space_blank_app _ _ Hind Hh).
  rewrite drop_app by lia.
  assert (drop (String.length ind) ind = EmptyString) as ->.
  { clear. induction ind as [|c ind IH]; [reflexivity | exact IH]. }
  destruct ind as [|c ind]; [congruence|].
  destruct h as [|x h]; [discriminate | reflexivity].
Qed.

(** ** [dedent]: trimming and the final replacement *)

Lemma trim_start_app (p r : string) :
  starts_nonspace r = true -> trim_start (p ++ r) = trim_start p ++ r.
Proof.
  intros Hr. induction p as [|c p IH]; simpl.
  - destruct r as [|x r]; [discriminate|]. simpl in *.
    apply negb_true_iff in Hr. now rewrite Hr.
  - destruct (is_space c); [exact IH | reflexivity].
Qed.

Lemma ends_nonspace_app (a b : string) :
  ends_nonspace b = true -> ends_nonspace (a ++ b) = true.
Proof.
  unfold ends_nonspace. destruct (last_char b) as [c|] eqn:E; [|discriminate].
  now rewrite (last_char_app_r a b c E).
Qed.

Lemma trim_end_app (s q : string) :
  ends_nonspace s = true -> trim_end (s ++ q) = s ++ trim_end q.
Proof.
  induction s as [|c s IH]; [discriminate|].
  unfold ends_nonspace. rewrite last_char_cons. intros Hs.
  destruct s as [|d s].
  - simpl. apply negb_true_iff in Hs. rewrite Hs.
    destruct (trim_end q); reflexivity.
  - change (String c (String d s) ++ q) with (String c (String d s ++ q)).
    cbn [trim_end]. fold trim_end.
    change (trim_end (String d (s ++ q))) with (trim_end (String d s ++ q)).
    rewrite (IH Hs). reflexivity.
Qed.

Lemma ends_ok_tail (c : ascii) (s : string) : ends_ok (String c s) = true -> ends_ok s = true.
Proof.
  unfold ends_ok. rewrite last_char_cons. destruct s; [reflexivity | auto].
Qed.

Lemma ends_ok_trim_start (s : string) : ends_ok s = true -> ends_ok (trim_start s) = true.
Proof.
  induction s as [|c s IH]; [reflexivity|]. intros H. simpl.
  destruct (is_space c); [|exact H]. apply IH. exact (ends_ok_tail _ _ H).
Qed.

Lemma ends_ok_space_end (a w : string) :
  all_chars is_space w = true -> w <> EmptyString -> ends_ok (a ++ w) = true.
Proof.
  intros Hw Hne. unfold ends_ok.
  destruct (last_char w) as [c|] eqn:E; [|apply last_char_none in E; congruence].
  rewrite (last_char_app_r a w c E).
  assert (is_space c = true) as Hc.
  { clear Hne. revert E. induction w as [|x w IH]; [discriminate|].
    simpl in Hw. apply andb_true_iff in Hw as [Hx Hw].
    rewrite last_char_cons. destruct w; [now intros [= <-] | now apply IH]. }
  destruct (Ascii.eqb_spec c BACKSLASH) as [->|_]; [discriminate Hc | reflexivity].
Qed.

Lemma replace_escaped_app_plain (c : ascii) (by_ h q : string) :
  no_backslash h = true ->
  replace_escaped c by_ (h ++ q) = h ++ replace_escaped c by_ q.
Proof.
  unfold no_backslash. induction h as [|a h IH]; intros Hh; [reflexivity|].
  simpl in Hh. apply andb_true_iff in Hh as [Ha Hh]. apply negb_true_iff in Ha.
  change (String a h ++ q) with (String a (h ++ q)).
  cbn [replace_escaped]. fold replace_escaped.
  destruct (h ++ q) as [|b r] eqn:E.
  - destruct h; [|discriminate]. simpl in E. subst q. reflexivity.
  - rewrite Ha. simpl. rewrite <- (IH Hh). reflexivity.
Qed.

Lemma replace_escaped_prefix (c : ascii) (by_ : string) (n : nat) :
  forall p r, String.length p <= n -> ends_ok p = true ->
  exists p', replace_escaped c by_ (p ++ r) = p' ++ replace_escaped c by_ r.
Proof.
  induction n as [n IH] using lt_wf_ind. intros p r Hn Hp.
  destruct p as [|a p]; [now exists EmptyString|].
  change (String a p ++ r) with (String a (p ++ r)).
  cbn [replace_escaped]. fold replace_escaped.
  destruct (p ++ r) as [|b t] eqn:E.
  - destruct p; [|discriminate]. simpl in E. subst r. now exists (chr a).
  - destruct (Ascii.eqb a BACKSLASH && Ascii.eqb b c) eqn:Hab.
    + destruct p as [|b' p].
      * apply andb_true_iff in Hab as [Ha _]. unfold ends_ok in Hp. simpl in Hp.
        rewrite Ha in Hp. discriminate.
      * simpl in E. injection E as -> <-. simpl in Hn.
        destruct (IH (String.length p)) with (p := p) (r := r) as [p' Hp'];
          [lia | lia | exact (ends_ok_tail _ _ (ends_ok_tail _ _ Hp)) |].
        exists (by_ ++ p'). rewrite Hp'. now rewrite append_assoc.
    + rewrite <- E. simpl in Hn.
      destruct (IH (String.length p)) with (p := p) (r := r) as [p' Hp'];
        [lia | lia | exact (ends_ok_tail _ _ Hp) |].
      exists (String a p'). rewrite Hp'. reflexivity.
Qed.

Lemma anchored_parts (h : string) :
  anchored h = true ->
  all_chars clean_char h = true /\ starts_nonspace h = true /\ ends_nonspace h = true.
Proof.
  unfold anchored. rewrite !andb_true_iff. tauto.
Qed.

Lemma clean_no_backslash (h : string) :
  all_chars clean_char h = true -> no_backslash h = true.
Proof.
  apply all_chars_impl. intros c. unfold clean_char.
  rewrite andb_true_iff. tauto.
Qed.

Lemma clean_no_LF (h : string) :
  all_chars clean_char h = true ->
  all_chars (fun c => negb (Ascii.eqb c LF)) h = true.
Proof.
  apply all_chars_impl. intros c. unfold clean_char.
  rewrite andb_true_iff. tauto.
Qed.

Lemma blank_is_space (c : ascii) : is_blank c = true -> is_space c = true.
Proof.
  unfold is_blank, is_space. intros H.
  apply orb_true_iff in H as [-> | ->]; [reflexivity | now rewrite orb_true_r].
Qed.

Lemma blank_no_LF (ind : string) :
  all_chars is_blank ind = true ->
  all_chars (fun c => negb (Ascii.eqb c LF)) ind = true.
Proof.
  apply all_chars_impl. intros c Hc.
  destruct (Ascii.eqb_spec c LF) as [->|_]; [discriminate Hc | reflexivity].
Qed.

(** After the indentation is stripped: [h] at the start of a line, after
    blanks, goes through the trim and the replacement unchanged. *)
Lemma trim_replace_keeps (c : ascii) (by_ a ind h q : string) :
  all_chars is_blank ind = true -> anchored h = true ->
  occurs_in h (replace_escaped c by_ (trim (a ++ NL ++ ind ++ h ++ q))).
Proof.
  intros Hind Hh. apply anchored_parts in Hh as [Hclean [Hstart Hend]].
  assert (a ++ NL ++ ind ++ h ++ q = (a ++ NL ++ ind) ++ h ++ q) as ->
    by now rewrite !append_assoc.
  set (p := a ++ NL ++ ind).
  unfold trim. rewrite trim_start_app.
  2:{ destruct h; [discriminate | exact Hstart]. }
  rewrite <- append_assoc, trim_end_app by now apply ends_nonspace_app.
  rewrite append_assoc.
  assert (ends_ok (trim_start p) = true) as Hok.
  { apply ends_ok_trim_start. subst p. rewrite <- append_assoc.
    destruct ind as [|x ind].
    - rewrite append_nil_r. now apply ends_ok_space_end.
    - rewrite append_assoc. apply ends_ok_space_end; [|discriminate].
      rewrite all_chars_app. simpl. revert Hind. simpl.
      rewrite !andb_true_iff. intros [Hx Hi]. split; [now apply blank_is_space|].
      revert Hi. apply all_chars_impl, blank_is_space. }
  destruct (replace_escaped_prefix c by_ _ (trim_start p) (h ++ trim_end q) (le_n _) Hok)
    as [p' ->].
  rewrite replace_escaped_app_plain by now apply clean_no_backslash.
  apply occurs_in_here.
Qed.

(** ** [dedent]: a whole line of the interpolated text survives *)

Lemma strip_line_blank_app (m : nat) (ind h : string) :
  all_chars is_blank ind = true -> starts_nonspace h = true ->
  (ind <> EmptyString -> m <= String.length ind) ->
  exists ind', all_chars is_blank ind' = true /\ strip_line m (ind ++ h) = ind' ++ h.
Proof.
  intros Hind Hh Hm. destruct ind as [|c ind].
  - exists EmptyString. split; [reflexivity|].
    destruct h as [|x h]; [discriminate|]. simpl in *.
    assert (is_blank x = false) as ->; [|reflexivity].
    destruct (is_blank x) eqn:E; [|reflexivity].
    apply blank_is_space in E. rewrite E in Hh. discriminate.
  - exists (drop m (String c ind)). split; [now apply drop_all_chars|].
    assert (m <= String.length (String c ind)) as Hle by (apply Hm; discriminate).
    rewrite <- drop_app by exact Hle.
    simpl in Hind. apply andb_true_iff in Hind as [Hc _].
    change (String c ind ++ h) with (String c (ind ++ h)).
    unfold strip_line. now rewrite Hc.
Qed.

Lemma starts_nonspace_app (h w : string) :
  starts_nonspace h = true -> starts_nonspace (h ++ w) = true.
Proof. destruct h; [discriminate | exact (fun H => H)]. Qed.

(** The main fact about [dedent]: when the interpolated text has a line
    made of blanks, [h] and blanks, and [h] is a single line without
    backslashes that neither starts nor ends with white space, the result
    contains [h] unchanged, whatever the other lines are. *)
Theorem line_survives (x y ind h w : string) :
  all_chars is_blank ind = true -> anchored h = true -> all_chars is_blank w = true ->
  occurs_in h (finish (x ++ NL ++ ind ++ h ++ w ++ NL ++ y)).
Proof.
  intros Hind Hh Hw. pose proof (anchored_parts h Hh) as [Hclean [Hstart Hend]].
  pose proof (starts_nonspace_app h w Hstart) as Hstart'.
  unfold finish.
  assert (split_lines (x ++ NL ++ ind ++ h ++ w ++ NL ++ y)
          = (split_lines x ++ (ind ++ h ++ w)%string :: split_lines y)%list) as Hlines.
  { rewrite NL_app, split_lines_app_LF.
    assert (ind ++ h ++ w ++ NL ++ y = (ind ++ h ++ w) ++ String LF y) as ->
      by now rewrite !append_assoc.
    rewrite split_lines_app_LF.
    rewrite (split_lines_single (ind ++ h ++ w)); [reflexivity|].
    rewrite !all_chars_app, (blank_no_LF ind), (blank_no_LF w), (clean_no_LF h)
      by assumption.
    reflexivity. }
  rewrite Hlines.
  destruct (mindent_of _) as [m|] eqn:Hm.
  - rewrite map_app. cbn [map].
    rewrite join_lines_mid.
    2:{ intros E. apply map_eq_nil in E. now apply split_lines_nonempty in E. }
    2:{ intros E. apply map_eq_nil in E. now apply split_lines_nonempty in E. }
    destruct (strip_line_blank_app m ind (h ++ w) Hind Hstart') as [ind' [Hind' ->]].
    { intros Hne. unfold mindent_of in Hm.
      destruct (mindent_fold_bound
                  (split_lines x ++ (ind ++ h ++ w)%string :: split_lines y)%list None
                  (ind ++ h ++ w) (String.length ind)) as [m' [Hm' Hle]].
      - discriminate.
      - apply in_or_app. right. now left.
      - now apply indent_of_blank_app.
      - rewrite Hm in Hm'. injection Hm' as <-. lia. }
    rewrite !append_assoc. now apply trim_replace_keeps.
  - now apply trim_replace_keeps.
Qed.

Lemma strip_prefix_spec (p s r : string) : strip_prefix p s = Some r -> s = p ++ r.
Proof.
  revert s. induction p as [|a p IH]; intros s; simpl.
  - now intros [= ->].
  - destruct s as [|b s]; [discriminate|].
    destruct (Ascii.eqb_spec a b) as [->|_]; [|discriminate].
    intros H. now rewrite (IH _ H).
Qed.

Lemma rcut_spec (s a b : string) : rcut s = Some (a, b) -> s = a ++ NL ++ b.
Proof.
  revert a. induction s as [|c s IH]; intros a; [discriminate|].
  simpl. destruct (rcut s) as [[a' b']|].
  - intros [= <- <-]. now rewrite (IH a' eq_refl).
  - destruct (Ascii.eqb_spec c LF) as [->|_]; [|discriminate].
    now intros [= <- <-].
Qed.

Lemma span_blank_spec (l ind rest : string) :
  span_blank l = (ind, rest) -> l = ind ++ rest /\ all_chars is_blank ind = true.
Proof.
  revert ind. induction l as [|c l IH]; intros ind; simpl.
  - now intros [= <- <-].
  - destruct (is_blank c) eqn:Hc.
    + destruct (span_blank l) as [i r]. intros [= <- <-].
      destruct (IH i eq_refl) as [-> Hi]. simpl. now rewrite Hc.
    + now intros [= <- <-].
Qed.

Lemma locate_spec (h s a ind w b : string) :
  locate h s = Some (a, ind, w, b) ->
  s = a ++ NL ++ ind ++ h ++ w ++ NL ++ b
  /\ all_chars is_blank ind = true /\ all_chars is_blank w = true.
Proof.
  revert a. induction s as [|c s IH]; intros a; [discriminate|].
  cbn [locate].
  assert (match locate h s with
          | Some (before, ind0, w0, after) => Some (String c before, ind0, w0, after)
          | None => None
          end = Some (a, ind, w, b) ->
          String c s = a ++ NL ++ ind ++ h ++ w ++ NL ++ b
          /\ all_chars is_blank ind = true /\ all_chars is_blank w = true) as Hrec.
  { destruct (locate h s) as [[[[a' i'] w'] b']|]; [|discriminate].
    intros [= <- <- <- <-]. destruct (IH a' eq_refl) as [-> Hi]. now split. }
  destruct (Ascii.eqb_spec c LF) as [->|Hc]; [|exact Hrec].
  destruct (span_blank s) as [i rest] eqn:Es.
  destruct (strip_prefix h rest) as [rest'|] eqn:Ep; [|exact Hrec].
  destruct (span_blank rest') as [w0 rest''] eqn:Ew.
  destruct (strip_prefix NL rest'') as [after|] eqn:En; [|exact Hrec].
  intros [= <- <- <- <-]. apply span_blank_spec in Es as [-> Hi].
  apply strip_prefix_spec in Ep. apply span_blank_spec in Ew as [-> Hw0].
  apply strip_prefix_spec in En. subst rest rest''.
  split; [|now split]. reflexivity.
Qed.

Lemma fixed_line_survives (pre u post h : string) :
  has_line h u = true -> anchored h = true ->
  occurs_in h (finish (pre ++ u ++ post)).
Proof.
  unfold has_line. destruct (locate h u) as [[[[a ind] w] b]|] eqn:E; [|discriminate].
  intros _ Hh. apply locate_spec in E as [-> [Hind Hw]].
  assert (pre ++ (a ++ NL ++ ind ++ h ++ w ++ NL ++ b) ++ post
          = (pre ++ a) ++ NL ++ ind ++ h ++ w ++ NL ++ (b ++ post)) as ->
    by now rewrite !append_assoc.
  now apply line_survives.
Qed.

Lemma hole_line_survives (before v after rest : string) :
  hole_on_line before after = true -> anchored v = true ->
  occurs_in v (finish (before ++ v ++ after ++ rest)).
Proof.
  unfold hole_on_line.
  destruct (rcut before) as [[a ind]|] eqn:Ea; [|discriminate].
  destruct (lcut after) as [b|] eqn:Eb; [|discriminate].
  intros Hind Hv. apply rcut_spec in Ea. apply strip_prefix_spec in Eb.
  rewrite Ea, Eb.
  assert ((a ++ NL ++ ind) ++ v ++ (NL ++ b) ++ rest
          = a ++ NL ++ ind ++ v ++ EmptyString ++ NL ++ (b ++ rest)) as ->
    by now rewrite !append_assoc.
  now apply line_survives.
Qed.

Lemma labelled_hole_survives (label pre before v after : string) :
  hole_after label before after = true -> anchored (label ++ v) = true ->
  occurs_in (label ++ v) (finish (pre ++ before ++ v ++ after)).
Proof.
  unfold hole_after.
  destruct (rcut before) as [[a p]|] eqn:Ea; [|discriminate].
  destruct (lcut after) as [b|] eqn:Eb; [|discriminate].
  destruct (span_blank p) as [ind rest] eqn:Ep. simpl.
  intros Hl Hv. apply String.eqb_eq in Hl. subst rest.
  apply rcut_spec in Ea. apply strip_prefix_spec in Eb.
  apply span_blank_spec in Ep as [-> Hind].
  rewrite Ea, Eb.
  assert (pre ++ (a ++ NL ++ ind ++ label) ++ v ++ NL ++ b
          = (pre ++ a) ++ NL ++ ind ++ (label ++ v) ++ EmptyString ++ NL ++ b) as ->
    by now rewrite !append_assoc.
  now apply line_survives.
Qed.

(** ** [dedent]: a value alone on its line, whatever it starts and ends with *)

Lemma trim_start_keeps (p r : string) :
  all_chars is_space p = false -> trim_start (p ++ r) = trim_start p ++ r.
Proof.
  induction p as [|c p IH]; [discriminate|]. simpl.
  destruct (is_space c); [exact IH | reflexivity].
Qed.

Lemma trim_end_empty (q : string) :
  trim_end q = EmptyString -> all_chars is_space q = true.
Proof.
  induction q as [|c q IH]; [reflexivity|]. simpl.
  destruct (trim_end q) as [|x t]; [|discriminate].
  destruct (is_space c); [intros _; now apply IH | discriminate].
Qed.

Lemma trim_end_keeps (s q : string) :
  all_chars is_space q = false -> trim_end (s ++ q) = s ++ trim_end q.
Proof.
  intros Hq. induction s as [|c s IH]; [reflexivity|].
  change (String c s ++ q) with (String c (s ++ q)).
  cbn [trim_end]. fold trim_end. rewrite IH.
  destruct (s ++ trim_end q) as [|x t] eqn:E; [|now rewrite <- E].
  destruct s; [|discriminate]. simpl in E. apply trim_end_empty in E. congruence.
Qed.

Lemma drop_keeps_nonspace (l : string) :
  forall m, m <= leading_space l -> Dedent.drop (leading_space l) l <> EmptyString ->
  all_chars is_space (Dedent.drop m l) = false.
Proof.
  induction l as [|c l IH]; intros m Hm Hne; [now destruct m|].
  simpl in Hm, Hne. destruct (is_space c) eqn:Hc.
  - destruct m as [|m].
    + simpl. rewrite Hc. apply (IH 0); [lia | exact Hne].
    + simpl. apply IH; [lia | exact Hne].
  - assert (m = 0) as -> by lia. simpl. now rewrite Hc.
Qed.

Lemma strip_line_keeps_nonspace (m : nat) (l : string) (k : nat) :
  indent_of l = Some k -> m <= k -> all_chars is_space (strip_line m l) = false.
Proof.
  unfold indent_of. intros Hk Hm.
  destruct ((0 <? leading_space l)%nat) eqn:Hpos; [|discriminate]. cbn [andb] in Hk.
  destruct (is_empty (Dedent.drop (leading_space l) l)) eqn:He; [discriminate|].
  injection Hk as <-.
  assert (Dedent.drop (leading_space l) l <> EmptyString) as Hne
    by (intros E; rewrite E in He; discriminate).
  unfold strip_line. destruct l as [|c l']; [now destruct Hne|].
  destruct (is_blank c).
  - now apply drop_keeps_nonspace.
  - apply (drop_keeps_nonspace (String c l') 0); [lia | exact Hne].
Qed.

Lemma join_has_nonspace (lines : list string) (l : string) :
  In l lines -> all_chars is_space l = false ->
  all_chars is_space (join_lines lines) = false.
Proof.
  unfold join_lines. induction lines as [|p rest IH]; intros Hin Hl; [destruct Hin|].
  destruct rest as [|q rest].
  - destruct Hin as [->|[]]. exact Hl.
  - rewrite join_with_cons by discriminate. rewrite !all_chars_app.
    destruct Hin as [->|Hin]; [now rewrite Hl|].
    rewrite (IH Hin Hl). now rewrite !andb_false_r.
Qed.

Lemma stripped_has_nonspace (m : nat) (lines : list string) (l : string) (k : nat) :
  In l lines -> indent_of l = Some k -> m <= k ->
  all_chars is_space (join_lines (map (strip_line m) lines)) = false.
Proof.
  intros Hin Hk Hm. apply (join_has_nonspace _ (strip_line m l)).
  - now apply in_map.
  - now apply (strip_line_keeps_nonspace m l k).
Qed.

(** A value alone on a line of a text that has lines with something else
    than white space before and after it, one of them indented no deeper:
    the result of [dedent] contains the value, as long as it is a single
    line without backslashes. *)
Theorem hole_line_kept (a ind v b : string) (la lb : string) (ka kb : nat) :
  all_chars is_blank ind = true -> plain_line v = true ->
  In la (split_lines a) -> indent_of la = Some ka -> ka <= String.length ind ->
  In lb (split_lines b) -> indent_of lb = Some kb ->
  occurs_in v (finish (a ++ NL ++ ind ++ v ++ NL ++ b)).
Proof.
  intros Hind Hv Hla Hka Hle Hlb Hkb. unfold plain_line in Hv. unfold finish.
  assert (split_lines (a ++ NL ++ ind ++ v ++ NL ++ b)
          = (split_lines a ++ (ind ++ v)%string :: split_lines b)%list) as Hlines.
  { rewrite NL_app, split_lines_app_LF.
    assert (ind ++ v ++ NL ++ b = (ind ++ v) ++ String LF b) as ->
      by now rewrite !append_assoc.
    rewrite split_lines_app_LF.
    rewrite (split_lines_single (ind ++ v)); [reflexivity|].
    now rewrite all_chars_app, (blank_no_LF ind), (clean_no_LF v). }
  rewrite Hlines. set (lines := (split_lines a ++ (ind ++ v)%string :: split_lines b)%list).
  assert (In la lines) as Hla' by (apply in_or_app; now left).
  assert (In lb lines) as Hlb' by (apply in_or_app; right; now right).
  destruct (mindent_fold_bound lines None la ka) as [m [Hm [Hm1 Hma]]];
    [discriminate | exact Hla' | exact Hka |].
  destruct (mindent_fold_bound lines None lb kb) as [m' [Hm' [_ Hmb]]];
    [discriminate | exact Hlb' | exact Hkb |].
  rewrite Hm in Hm'. injection Hm' as <-.
  unfold mindent_of. rewrite Hm. subst lines. rewrite map_app. cbn [map].
  rewrite join_lines_mid.
  2:{ intros E. apply map_eq_nil in E. now apply split_lines_nonempty in E. }
  2:{ intros E. apply map_eq_nil in E. now apply split_lines_nonempty in E. }
  set (X := join_lines (map (strip_line m) (split_lines a))).
  set (Y := join_lines (map (strip_line m) (split_lines b))).
  assert (all_chars is_space X = false) as HX
    by (apply (stripped_has_nonspace m _ la ka); [assumption | assumption | lia]).
  assert (all_chars is_space Y = false) as HY
    by (apply (stripped_has_nonspace m _ lb kb); assumption).
  assert (exists ind', all_chars is_blank ind' = true /\ strip_line m (ind ++ v) = ind' ++ v)
    as [ind' [Hind' ->]].
  { destruct ind as [|c ind0]; [simpl in Hle; lia|].
    exists (Dedent.drop m (String c ind0)). split; [now apply drop_all_chars|].
    rewrite <- drop_app by lia.
    simpl in Hind. apply andb_true_iff in Hind as [Hc _].
    change (String c ind0 ++ v) with (String c (ind0 ++ v)).
    unfold strip_line. now rewrite Hc. }
  unfold trim. rewrite trim_start_keeps by exact HX.
  assert (trim_start X ++ NL ++ (ind' ++ v) ++ NL ++ Y
          = (trim_start X ++ NL ++ ind' ++ v ++ NL) ++ Y) as ->
    by now rewrite !append_assoc.
  rewrite trim_end_keeps by exact HY.
  assert ((trim_start X ++ NL ++ ind' ++ v ++ NL) ++ trim_end Y
          = (trim_start X ++ NL ++ ind') ++ v ++ NL ++ trim_end Y) as ->
    by now rewrite !append_assoc.
  assert (ends_ok (trim_start X ++ NL ++ ind') = true) as Hok.
  { apply ends_ok_space_end; [|discriminate].
    rewrite all_chars_app. apply andb_true_iff. split; [reflexivity|].
    revert Hind'. apply all_chars_impl, blank_is_space. }
  destruct (replace_escaped_prefix "n" NL _ (trim_start X ++ NL ++ ind')
              (v ++ NL ++ trim_end Y) (le_n _) Hok) as [p' ->].
  rewrite replace_escaped_app_plain by now apply clean_no_backslash.
  apply occurs_in_here.
Qed.

Lemma rcut_lines (s c d z : string) :
  rcut s = Some (c, d) -> forall l, In l (split_lines c) -> In l (split_lines (s ++ z)).
Proof.
  intros H l Hl. apply rcut_spec in H. subst s.
  rewrite !append_assoc, NL_app, split_lines_app_LF. apply in_or_app. now left.
Qed.

(** ** [dedent]: the interpolation *)

Lemma interpolate_of_strings (raw texts : list string) :
  interpolate raw (map JString texts) = Normal (interpolate_strings raw texts).
Proof.
  revert texts. induction raw as [|next raw IH]; intros texts; [reflexivity|].
  destruct texts as [|text texts].
  - cbn [map interpolate interpolate_strings]. specialize (IH []). cbn [map] in IH.
    now rewrite IH.
  - cbn [map interpolate interpolate_strings to_string JS.bind]. now rewrite IH.
Qed.

Lemma interpolate_nil (raw : list string) :
  interpolate raw [] = Normal (interpolate_strings raw []).
Proof. apply (interpolate_of_strings raw []). Qed.

Lemma interpolate_string (raw : list string) (text : string) :
  interpolate raw [JString text] = Normal (interpolate_strings raw [text]).
Proof. apply (interpolate_of_strings raw [text]). Qed.

(** [dedent] does not throw on strings. *)
Lemma dedent_of_strings (raw texts : list string) :
  dedent raw (map JString texts) = Normal (dedent_strings raw texts).
Proof. unfold dedent. now rewrite interpolate_of_strings. Qed.

Lemma dedent_of_string (raw : list string) (text : string) :
  dedent raw [JString text] = Normal (dedent_strings raw [text]).
Proof. apply (dedent_of_strings raw [text]). Qed.

(** A template with one value throws when the conversion of the value
    does, and only then. *)
Lemma dedent_one (r0 r1 : string) (v : value) :
  dedent [r0; r1] [v]
  = JS.bind (to_string v) (fun text => Normal (dedent_strings [r0; r1] [text])).
Proof. unfold dedent. cbn [interpolate]. destruct (to_string v); reflexivity. Qed.

(** The same for a template with two values, the second one a string. *)
Lemma dedent_two (r0 r1 r2 : string) (v : value) (t : string) :
  dedent [r0; r1; r2] [v; JString t]
  = JS.bind (to_string v) (fun text => Normal (dedent_strings [r0; r1; r2] [text; t])).
Proof. unfold dedent. cbn [interpolate]. destruct (to_string v); reflexivity. Qed.

(** ** The report templates *)

Lemma failure_template_text (heading : string) (template : list string) (v t : string) :
  failure_template heading template = true ->
  let text := dedent_strings template [v; t] in
  (anchored v = true -> includes text v = true)
  /\ (forall h, In h (fixed_lines template) -> includes text h = true)
  /\ In heading (fixed_lines template)
  /\ (anchored (timestamp_label ++ t) = true ->
      includes text (timestamp_label ++ t) = true).
Proof.
  destruct template as [|r0 [|r1 [|r2 [|]]]]; try discriminate.
  unfold failure_template. rewrite !andb_true_iff.
  intros [[[Hcause Hfixed] Hhead] Hstamp]. cbv zeta. unfold dedent_strings.
  cbn [interpolate_strings]. rewrite append_nil_r.
  set (u0 := unescape r0) in *. set (u1 := unescape r1) in *.
  set (u2 := unescape r2) in *.
  split; [|split; [|split]].
  - intros Hv. apply includes_spec. now apply hole_line_survives.
  - intros h Hh. rewrite forallb_forall in Hfixed.
    apply Hfixed, andb_true_iff in Hh as [Hline Hanch].
    apply includes_spec. rewrite <- (append_assoc u0).
    now apply fixed_line_survives.
  - apply existsb_exists in Hhead as [h [Hin Heq]].
    apply String.eqb_eq in Heq. now subst h.
  - intros Ht. apply includes_spec. rewrite <- (append_assoc u0).
    now apply labelled_hole_survives.
Qed.

Lemma planner_api_error_ok :
  failure_template (remediation_heading ApiErrorReturn) planner_api_error = true.
Proof. vm_compute. reflexivity. Qed.

Lemma structure_api_error_ok :
  failure_template (remediation_heading ApiErrorReturn) structure_api_error = true.
Proof. vm_compute. reflexivity. Qed.

Lemma merger_api_error_ok :
  failure_template (remediation_heading ApiErrorReturn) merger_api_error = true.
Proof. vm_compute. reflexivity. Qed.

Lemma planner_network_error_ok :
  failure_template (remediation_heading CatchReturn) planner_network_error = true.
Proof. vm_compute. reflexivity. Qed.

Lemma structure_network_error_ok :
  failure_template (remediation_heading CatchReturn) structure_network_error = true.
Proof. vm_compute. reflexivity. Qed.

Lemma merger_network_error_ok :
  failure_template (remediation_heading CatchReturn) merger_network_error = true.
Proof. vm_compute. reflexivity. Qed.

(** The cause of a failure report, when it is a single line without
    backslashes. *)
Lemma failure_cause_kept (heading : string) (template : list string) (v t : string) :
  failure_template heading template = true -> cause_enclosed template = true ->
  plain_line v = true -> includes (dedent_strings template [v; t]) v = true.
Proof.
  destruct template as [|r0 [|r1 [|r2 [|]]]]; try discriminate.
  unfold failure_template, cause_enclosed, hole_on_line. rewrite !andb_true_iff.
  intros [[[Hhole _] _] _].
  destruct (rcut (unescape r0)) as [[a ind]|] eqn:Ea; [|discriminate].
  destruct (lcut (unescape r1)) as [b1|] eqn:Eb; [|discriminate].
  destruct (rcut b1) as [[c d]|] eqn:Ec; [|discriminate].
  rewrite andb_true_iff. intros [Hbefore Hafter] Hv.
  apply existsb_exists in Hbefore as [la [Hla Hka]].
  destruct (indent_of la) as [ka|] eqn:Eka; [|discriminate]. apply Nat.leb_le in Hka.
  apply existsb_exists in Hafter as [lb [Hlb Hkb]].
  destruct (indent_of lb) as [kb|] eqn:Ekb; [|discriminate].
  apply rcut_spec in Ea. apply strip_prefix_spec in Eb.
  unfold dedent_strings. cbn [interpolate_strings]. rewrite append_nil_r, Ea, Eb.
  apply includes_spec.
  assert ((a ++ NL ++ ind) ++ v ++ (NL ++ b1) ++ t ++ unescape r2
          = a ++ NL ++ ind ++ v ++ NL ++ (b1 ++ t ++ unescape r2)) as ->
    by now rewrite !append_assoc.
  apply (hole_line_kept a ind v _ la lb ka kb); try assumption.
  apply (rcut_lines b1 c d _ Ec _ Hlb).
Qed.

Lemma api_error_enclosed (c : tool_call) : cause_enclosed (api_error_template c) = true.
Proof. destruct c; vm_compute; reflexivity. Qed.

Lemma network_error_enclosed (c : tool_call) :
  cause_enclosed (network_error_template c) = true.
Proof. destruct c; vm_compute; reflexivity. Qed.

Lemma anchored_plain (h : string) : anchored h = true -> plain_line h = true.
Proof. intros H. now apply anchored_parts in H as [H _]. Qed.

(** ** The time stamp *)

Lemma string_of_uint_stamp (u : Decimal.uint) :
  all_chars stamp_char (NilEmpty.string_of_uint u) = true.
Proof. induction u; simpl; auto. Qed.

Lemma decimal_stamp (n : N) : all_chars stamp_char (decimal n) = true.
Proof.
  unfold decimal, NilZero.string_of_uint.
  destruct (N.to_uint n) eqn:E; try reflexivity;
    rewrite <- E; apply string_of_uint_stamp.
Qed.

Lemma zeros_stamp (n : nat) : all_chars stamp_char (zeros n) = true.
Proof. induction n; simpl; auto. Qed.

Lemma padStart_stamp (w : nat) (n : N) : all_chars stamp_char (padStart w (decimal n)) = true.
Proof.
  unfold padStart. now rewrite all_chars_app, zeros_stamp, decimal_stamp.
Qed.

Lemma toISOString_stamp (t : UTC) : all_chars stamp_char (toISOString t) = true.
Proof.
  unfold toISOString.
  destruct (year t <=? 9999)%N;
    repeat (rewrite all_chars_app || rewrite padStart_stamp); reflexivity.
Qed.

Lemma toISOString_ends (t : UTC) : last_char (toISOString t) = Some "Z"%char.
Proof.
  unfold toISOString. repeat apply last_char_app_r. reflexivity.
Qed.

Lemma timestamp_anchored (t : UTC) :
  anchored (timestamp_label ++ toISOString t) = true.
Proof.
  unfold anchored. apply andb_true_iff. split; [apply andb_true_iff; split|].
  - rewrite all_chars_app. apply andb_true_iff. split; [reflexivity|].
    generalize (toISOString_stamp t). apply all_chars_impl.
    intros c. unfold stamp_char. rewrite andb_true_iff. tauto.
  - reflexivity.
  - unfold ends_nonspace.
    now rewrite (last_char_app_r timestamp_label _ _ (toISOString_ends t)).
Qed.

(** ** The handlers *)

Arguments dedent : simpl never.
Arguments dedent_strings : simpl never.
Arguments toISOString : simpl never.
Arguments stringify : simpl never.
Arguments stringify2 : simpl never.
Arguments decimal : simpl never.

Ltac unfold_monad :=
  unfold mbind, mret, completion_bind, completion_ret, JS.bind in *.

(** The guard [!result.success && !result.data] holds exactly when both
    reads succeed and both values are falsy. *)
Lemma guard_spec (result : value) :
  no_success_no_data result = Normal true <->
  exists s d, get result "success" = Normal s /\ get result "data" = Normal d
              /\ truthy s = false /\ truthy d = false.
Proof.
  unfold no_success_no_data. unfold_monad. split.
  - destruct (get result "success") as [s|e] eqn:Es; [|discriminate].
    destruct (truthy s) eqn:Hs; cbn; [discriminate|].
    destruct (get result "data") as [d|e] eqn:Ed; [|discriminate].
    destruct (truthy d) eqn:Hd; cbn; [discriminate|]. intros _.
    now exists s, d.
  - intros [s [d [-> [Hd [Hs Ht]]]]]. rewrite Hs. cbn. rewrite Hd, Ht. reflexivity.
Qed.

(** Once [result.success] has been read, no other read of [result] throws. *)
Lemma get_total (result : value) (k k' : string) (v : value) :
  get result k = Normal v -> exists v', get result k' = Normal v'.
Proof. destruct result; try discriminate; intros _; eexists; reflexivity. Qed.

Lemma guard_throws (result : value) (e : thrown) :
  no_success_no_data result = Throw e -> result = JUndefined \/ result = JNull.
Proof.
  destruct result; try (now left); try (now right);
    unfold no_success_no_data; unfold_monad; cbn;
    match goal with |- context [truthy ?s] => destruct (truthy s) end;
    cbn; try discriminate.
  all: match goal with |- context [truthy ?s] => destruct (truthy s) end; discriminate.
Qed.

Section Stage.

Variables (request : Request) (api_error network_error : list string)
          (unknown : string) (instructions : value -> completion string)
          (remote : Remote) (clock : Clock).

Let run : Run := stage request api_error network_error unknown instructions remote clock.
Let stamp : string := toISOString (report_time clock).

(** The text of the API-error return, or what its [dedent] throws. *)
Let api_error_text (error : value) : completion string :=
  dedent api_error [or_else error (JString unknown); JString stamp].

Lemma stage_sent : sent run = request.
Proof.
  unfold run, stage, try_catch.
  destruct (_ ≫= _) as [[e t]|e]; reflexivity.
Qed.

Lemma stage_rejects (e : thrown) :
  remote request = FetchRejects e \/ remote request = JsonRejects e ->
  exit run = CatchReturn /\ logged run = [e]
  /\ report_text run = dedent_strings network_error [error_message e; stamp].
Proof.
  unfold run, stage. unfold_monad.
  intros [-> | ->]; cbn; repeat split; reflexivity.
Qed.

(** When the guard holds, the API-error report is written; the call leaves
    by the API-error return unless writing it throws. *)
Lemma stage_guard_true (result error : value) :
  remote request = JsonResolves result ->
  no_success_no_data result = Normal true ->
  get result "error" = Normal error ->
  match api_error_text error with
  | Normal t => exit run = ApiErrorReturn /\ report_text run = t /\ logged run = []
  | Throw e =>
      exit run = CatchReturn /\ logged run = [e]
      /\ report_text run = dedent_strings network_error [error_message e; stamp]
  end.
Proof.
  unfold run, stage, api_error_text, stamp. unfold_monad. intros -> Hg He. cbn.
  rewrite Hg, He. destruct (dedent api_error _); cbn; repeat split; reflexivity.
Qed.

Lemma stage_api_error_iff (result : value) :
  remote request = JsonResolves result ->
  (exit run = ApiErrorReturn <->
   no_success_no_data result = Normal true
   /\ exists error t, get result "error" = Normal error /\ api_error_text error = Normal t).
Proof.
  intros Hr. split.
  - revert Hr. unfold run, stage, api_error_text, stamp. unfold_monad. intros ->. cbn.
    destruct (no_success_no_data result) as [[|]|e] eqn:Hg; cbn.
    + destruct (get result "error") as [err|e]; cbn; [|discriminate].
      destruct (dedent api_error _) as [t|e] eqn:Ht; cbn; [|discriminate].
      intros _. split; [reflexivity|]. now exists err, t.
    + destruct (instructions result); cbn; discriminate.
    + discriminate.
  - intros [Hg [error [t [He Ht]]]].
    pose proof (stage_guard_true result error Hr Hg He) as H.
    rewrite Ht in H. apply H.
Qed.

Lemma stage_api_error (H : exit run = ApiErrorReturn) :
  exists result error t,
    remote request = JsonResolves result
    /\ no_success_no_data result = Normal true
    /\ get result "error" = Normal error
    /\ api_error_text error = Normal t
    /\ logged run = []
    /\ report_text run = t.
Proof.
  revert H. unfold run, stage, api_error_text, stamp. unfold_monad.
  destruct (remote request) as [e|e|result]; cbn; try discriminate.
  destruct (no_success_no_data result) as [[|]|e] eqn:Hg; cbn; try discriminate.
  - destruct (get result "error") as [err|e] eqn:Herr; cbn; [|discriminate].
    destruct (dedent api_error _) as [t|e] eqn:Ht; cbn; [|discriminate].
    intros _. exists result, err, t. repeat split; assumption.
  - destruct (instructions result); cbn; discriminate.
Qed.

Lemma stage_catch (H : exit run = CatchReturn) :
  exists e,
    logged run = [e]
    /\ report_text run = dedent_strings network_error [error_message e; stamp].
Proof.
  revert H. unfold run, stage, stamp. unfold_monad.
  destruct (remote request) as [e|e|result]; cbn.
  1,2: intros _; exists e; split; reflexivity.
  destruct (no_success_no_data result) as [[|]|e] eqn:Hg; cbn.
  - destruct (get result "error") as [err|e]; cbn.
    + destruct (dedent api_error _) as [t|e]; cbn; [discriminate|].
      intros _. exists e. split; reflexivity.
    + intros _. exists e. split; reflexivity.
  - destruct (instructions result) as [t|e]; cbn; [discriminate|].
    intros _. exists e. split; reflexivity.
  - intros _. exists e. split; reflexivity.
Qed.

Lemma stage_instructions (H : exit run = InstructionsReturn) :
  exists result t,
    remote request = JsonResolves result
    /\ no_success_no_data result = Normal false
    /\ instructions result = Normal t
    /\ logged run = []
    /\ report_text run = t.
Proof.
  revert H. unfold run, stage. unfold_monad.
  destruct (remote request) as [e|e|result]; cbn; try discriminate.
  destruct (no_success_no_data result) as [[|]|e] eqn:Hg; cbn; try discriminate.
  - destruct (get result "error") as [err|e]; cbn; [|discriminate].
    destruct (dedent api_error _); cbn; discriminate.
  - destruct (instructions result) as [t|e] eqn:Hi; cbn; [|discriminate].
    intros _. exists result, t. repeat split; assumption.
Qed.

Lemma stage_guard_false (result : value) :
  remote request = JsonResolves result ->
  no_success_no_data result = Normal false ->
  match instructions result with
  | Normal t => exit run = InstructionsReturn /\ report_text run = t /\ logged run = []
  | Throw e => exit run = CatchReturn /\ logged run = [e]
  end.
Proof.
  unfold run, stage. unfold_monad. intros -> Hg. cbn. rewrite Hg.
  destruct (instructions result); cbn; repeat split; reflexivity.
Qed.

(** What the caller gets depends on the remote through its reply only. *)
Lemma stage_reply_only (request' : Request) (remote' : Remote) :
  remote request = remote' request' ->
  let run' := stage request' api_error network_error unknown instructions remote' clock in
  exit run = exit run' /\ logged run = logged run' /\ returned run = returned run'.
Proof.
  unfold run, stage. intros <-.
  destruct (_ ≫= _) as [[e t]|e]; cbn; repeat split; reflexivity.
Qed.

End Stage.

Lemma handler_stage (env : Env) (remote : Remote) (clock : Clock) (c : tool_call) :
  handler env remote clock c
  = stage (request_of env clock c) (api_error_template c) (network_error_template c)
      (unknown_error c) (instructions_of c) remote clock.
Proof.
  destruct c as [query|plan query|actStructure];
    unfold handler, planner_tool, structure_tool, merger_tool, stage, request_of,
      instructions_of;
    cbn [payload endpoint api_error_template network_error_template unknown_error app];
    unfold_monad;
    (destruct (remote _) as [e|e|result]; cbn; try reflexivity);
    (destruct (no_success_no_data result) as [[|]|e]; cbn; try reflexivity);
    (destruct (get result "data") as [data|e]; cbn; try reflexivity).
  - destruct (get data "plan"); reflexivity.
  - destruct (get data "structure"); reflexivity.
  - destruct (get data "code") as [code|e]; cbn; [|reflexivity].
    destruct (get code "mainComponent"); reflexivity.
Qed.

(** ** The ACT schema *)

Lemma ACTComponentSchema_object (path : list path_elem) (fields : list (string * value)) :
  ACTComponentSchema path (JObject fields)
  = map_result JObject
      (merge_object
         [("component", zstring (path ++ [Key "component"]) (field "component" fields));
          ("description", zstring (path ++ [Key "description"]) (field "description" fields));
          ("mcpQuery", znullable zstring (path ++ [Key "mcpQuery"]) (field "mcpQuery" fields));
          ("children", parse_children (path ++ [Key "children"]) (field "children" fields))]).
Proof.
  cbn [ACTComponentSchema]. do 2 f_equal. do 3 f_equal. f_equal. f_equal.
  unfold field. induction fields as [|[k x] rest IH].
  - reflexivity.
  - cbn [lookup]. destruct (String.eqb "children" k); [|exact IH].
    unfold parse_children. f_equal. destruct x; try reflexivity.
    do 2 f_equal. generalize 0. induction items as [|y ys IHy]; intros i; [reflexivity|].
    cbn [parse_items]. f_equal. apply IHy.
Qed.

Lemma merge_object_valid (parsed : list (string * result value)) :
  is_valid (merge_object parsed) = forallb (fun kr => is_valid (snd kr)) parsed.
Proof.
  induction parsed as [|[k r] rest IH]; [reflexivity|].
  cbn [merge_object forallb snd]. rewrite <- IH.
  destruct r, (merge_object rest); reflexivity.
Qed.

Lemma merge_array_valid (parsed : list (result value)) :
  is_valid (merge_array parsed) = forallb is_valid parsed.
Proof.
  induction parsed as [|r rest IH]; [reflexivity|].
  cbn [merge_array forallb]. rewrite <- IH.
  destruct r, (merge_array rest); reflexivity.
Qed.

Lemma map_result_valid {A B} (f : A -> B) (r : result A) :
  is_valid (map_result f r) = is_valid r.
Proof. destruct r; reflexivity. Qed.

Lemma zstring_valid (path : list path_elem) (x : value) :
  is_valid (zstring path x) = match x with JString _ => true | _ => false end.
Proof. destruct x; reflexivity. Qed.

Lemma znullable_valid (path : list path_elem) (x : value) :
  is_valid (znullable zstring path x)
  = match x with JString _ | JNull => true | _ => false end.
Proof. destruct x; reflexivity. Qed.

Lemma zunion2_valid (path : list path_elem) (a b : result value) :
  is_valid (zunion2 path a b) = is_valid a || is_valid b.
Proof. destruct a, b; reflexivity. Qed.

Lemma parse_children_valid (path : list path_elem) (x : value) :
  is_valid (parse_children path x)
  = match x with
    | JString _ => true
    | JArray items => forallb is_valid (parse_items path 0 items)
    | _ => false
    end.
Proof.
  unfold parse_children. rewrite zunion2_valid, zstring_valid.
  destruct x; try reflexivity.
  now rewrite map_result_valid, merge_array_valid, orb_false_r.
Qed.

(** The verdict of the schema on a value, by its fields. *)
Lemma ACTComponentSchema_valid (path : list path_elem) (fields : list (string * value)) :
  is_valid (ACTComponentSchema path (JObject fields))
  = match field "component" fields with JString _ => true | _ => false end
    && (match field "description" fields with JString _ => true | _ => false end
    && (match field "mcpQuery" fields with JString _ | JNull => true | _ => false end
    && is_valid (parse_children (path ++ [Key "children"]) (field "children" fields)))).
Proof.
  rewrite ACTComponentSchema_object, map_result_valid, merge_object_valid.
  cbn [forallb snd]. rewrite !zstring_valid, znullable_valid, andb_true_r.
  reflexivity.
Qed.

Lemma lookup_In (k : string) (fields : list (string * value)) (x : value) :
  lookup k fields = Some x -> In (k, x) fields.
Proof.
  induction fields as [|[k' y] rest IH]; [discriminate|].
  cbn [lookup]. destruct (String.eqb_spec k k') as [->|_].
  - intros [= ->]. now left.
  - intros H. right. now apply IH.
Qed.

(** Whether a value is accepted does not depend on where it stands. *)
Lemma valid_any_path (v : value) :
  forall p p', is_valid (ACTComponentSchema p v) = is_valid (ACTComponentSchema p' v).
Proof.
  enough ((forall p p', is_valid (ACTComponentSchema p v) = is_valid (ACTComponentSchema p' v))
          /\ (forall items, v = JArray items ->
              Forall (fun y => forall p p',
                        is_valid (ACTComponentSchema p y) = is_valid (ACTComponentSchema p' y))
                     items)) as [H _] by exact H.
  induction v as [| |b|r|s|items IH|fields IH] using value_ind';
    try (split; [reflexivity | discriminate]).
  - split; [reflexivity|]. intros items' [= <-].
    eapply List.Forall_impl; [|exact IH]. intros y [Hy _]. exact Hy.
  - split; [|discriminate]. intros p p'.
    rewrite !ACTComponentSchema_valid, !parse_children_valid.
    do 3 f_equal. unfold field.
    destruct (lookup "children" fields) as [x|] eqn:Ex; [|reflexivity].
    destruct x as [| | | | |items|]; try reflexivity.
    apply lookup_In in Ex. rewrite List.Forall_forall in IH.
    destruct (IH _ Ex) as [_ Hitems]. specialize (Hitems items eq_refl).
    cbn [snd] in Hitems. clear -Hitems. generalize 0.
    induction Hitems as [|y ys Hy _ IHys]; intros i; [reflexivity|].
    cbn [parse_items forallb]. rewrite (IHys (S i)). f_equal. apply Hy.
Qed.

Lemma parse_items_valid (path : list path_elem) (items : list value) :
  forallb is_valid (parse_items path 0 items) = forallb (fun y => is_valid (validate y)) items.
Proof.
  generalize 0. induction items as [|y ys IH]; intros i; [reflexivity|].
  cbn [parse_items forallb]. rewrite (IH (S i)). f_equal. apply valid_any_path.
Qed.

Lemma children_accepted_spec (path : list path_elem) (x : value) :
  is_valid (parse_children path x) = children_accepted x.
Proof.
  rewrite parse_children_valid. destruct x; try reflexivity.
  apply parse_items_valid.
Qed.

(** The verdict of the schema, field by field. *)
Lemma accepted_by_fields (path : list path_elem) (fields : list (string * value)) :
  is_valid (ACTComponentSchema path (JObject fields))
  = is_string (field "component" fields)
    && (is_string (field "description" fields)
    && (is_nullable_string (field "mcpQuery" fields)
    && children_accepted (field "children" fields))).
Proof. now rewrite ACTComponentSchema_valid, children_accepted_spec. Qed.

Lemma only_objects_accepted (path : list path_elem) (input : value) :
  is_valid (ACTComponentSchema path input) = true -> exists fields, input = JObject fields.
Proof. destruct input; try discriminate. intros _. now eexists. Qed.

(** The data the schema returns for a node whose [children] is a string. *)
Lemma leaf_output (path : list path_elem) (fields : list (string * value))
    (c d s : string) (q : value) :
  field "component" fields = JString c -> field "description" fields = JString d ->
  field "mcpQuery" fields = q -> is_nullable_string q = true ->
  field "children" fields = JString s ->
  ACTComponentSchema path (JObject fields)
  = Valid (node (JString c) (JString d) q (JString s)).
Proof.
  intros Hc Hd Hq Hn Hs. rewrite ACTComponentSchema_object, Hc, Hd, Hq, Hs.
  destruct q; try discriminate; reflexivity.
Qed.

(** The same for the empty array. *)
Lemma empty_container_output (path : list path_elem) (fields : list (string * value))
    (c d : string) (q : value) :
  field "component" fields = JString c -> field "description" fields = JString d ->
  field "mcpQuery" fields = q -> is_nullable_string q = true ->
  field "children" fields = JArray [] ->
  ACTComponentSchema path (JObject fields)
  = Valid (node (JString c) (JString d) q (JArray [])).
Proof.
  intros Hc Hd Hq Hn Hs. rewrite ACTComponentSchema_object, Hc, Hd, Hq, Hs.
  destruct q; try discriminate; reflexivity.
Qed.

(** ** Start-up *)

Lemma zstring_min_valid (path : list path_elem) (x : value) (data : value) :
  zstring_min 1 path x = Valid data ->
  exists s, x = JString s /\ data = JString s /\ s <> EmptyString.
Proof.
  destruct x as [| | | |s| |]; try discriminate. cbn.
  destruct s as [|a s]; [discriminate|]. intros [= <-].
  exists (String a s). repeat split. discriminate.
Qed.

Lemma envSchema_valid (process_env : gmap string string) (env : Env) :
  envSchema process_env = Valid env ->
  process_env !! "SECRET" = Some (SECRET env) /\ SECRET env <> EmptyString
  /\ process_env !! "SERVER_URL" = Some (SERVER_URL env) /\ SERVER_URL env <> EmptyString.
Proof.
  unfold envSchema. cbn [merge_object].
  destruct (zstring_min 1 [Key "SECRET"] (env_var process_env "SECRET")) as [a|ia] eqn:Ea;
    destruct (zstring_min 1 [Key "SERVER_URL"] (env_var process_env "SERVER_URL"))
      as [b|ib] eqn:Eb; cbn; try discriminate.
  apply zstring_min_valid in Ea as [s [Hs [-> Hne]]].
  apply zstring_min_valid in Eb as [u [Hu [-> Hune]]].
  intros [= <-]. cbn. unfold env_var in Hs, Hu.
  destruct (process_env !! "SECRET") as [s'|]; [|discriminate].
  destruct (process_env !! "SERVER_URL") as [u'|]; [|discriminate].
  injection Hs as ->. injection Hu as ->. auto.
Qed.

Lemma envSchema_invalid (process_env : gmap string string) (issues : list issue) :
  envSchema process_env = Invalid issues -> issues <> [].
Proof.
  unfold envSchema. cbn [merge_object].
  destruct (zstring_min 1 [Key "SECRET"] (env_var process_env "SECRET")) as [a|ia] eqn:Ea;
    destruct (zstring_min 1 [Key "SERVER_URL"] (env_var process_env "SERVER_URL"))
      as [b|ib] eqn:Eb; cbn.
  - apply zstring_min_valid in Ea as [s [_ [-> _]]].
    apply zstring_min_valid in Eb as [u [_ [-> _]]]. discriminate.
  - intros [= <-]. revert Eb. unfold zstring_min.
    destruct (env_var process_env "SERVER_URL") as [| | | |s| |]; try (intros [= <-]; discriminate).
    destruct (Nat.ltb _ _); [|discriminate]. intros [= <-]. discriminate.
  - intros [= <-]. rewrite app_nil_r. revert Ea. unfold zstring_min.
    destruct (env_var process_env "SECRET") as [| | | |s| |]; try (intros [= <-]; discriminate).
    destruct (Nat.ltb _ _); [|discriminate]. intros [= <-]. discriminate.
  - intros [= <-]. revert Ea. unfold zstring_min.
    destruct (env_var process_env "SECRET") as [| | | |s| |]; try (intros [= <-]; discriminate).
    destruct (Nat.ltb _ _); [|discriminate]. intros [= <-]. discriminate.
Qed.

(** What start-up guarantees the handlers: a serving process has parsed both
    values, non-empty, from the environment, and has registered the three
    tools. *)
Lemma serving_configuration (process_env : gmap string string) (env : Env) (server : McpServer) :
  start process_env = Serving env server ->
  process_env !! "SECRET" = Some (SECRET env) /\ SECRET env <> EmptyString
  /\ process_env !! "SERVER_URL" = Some (SERVER_URL env) /\ SERVER_URL env <> EmptyString
  /\ tools server = ["planner_tool"; "structure_tool"; "merger_tool"].
Proof.
  unfold start. destruct (envSchema process_env) as [env'|issues] eqn:E; [|discriminate].
  intros [= <- <-]. apply envSchema_valid in E. cbn. tauto.
Qed.

(** ** The handlers, by the reply they meet *)

Lemma request_sent (env : Env) (remote : Remote) (clock : Clock) (c : tool_call) :
  sent (handler env remote clock c) = request_of env clock c.
Proof. rewrite handler_stage. apply stage_sent. Qed.

Lemma guard_total (result d : value) :
  get result "data" = Normal d -> exists b, no_success_no_data result = Normal b.
Proof.
  intros Hd. destruct (get_total result "data" "success" d Hd) as [s Hs].
  unfold no_success_no_data. unfold_monad. rewrite Hs, Hd.
  destruct (truthy s); cbn; eexists; reflexivity.
Qed.

Lemma guard_false_truthy (result d : value) :
  get result "data" = Normal d -> truthy d = true ->
  no_success_no_data result = Normal false.
Proof.
  intros Hd Ht. destruct (get_total result "data" "success" d Hd) as [s Hs].
  unfold no_success_no_data. unfold_monad. rewrite Hs, Hd, Ht.
  destruct (truthy s); reflexivity.
Qed.

(** Without [data] the instructions cannot be written: reading a property
    of [undefined] or [null] throws. *)
Lemma instructions_need_data (c : tool_call) (result d : value) :
  get result "data" = Normal d -> d = JUndefined \/ d = JNull ->
  exists e, instructions_of c result = Throw e.
Proof.
  intros Hd Habs. destruct c; unfold instructions_of; unfold_monad; rewrite Hd;
    destruct Habs as [-> | ->]; cbn; eexists; reflexivity.
Qed.

Lemma instructions_read_data (c : tool_call) (result : value) (t : string) :
  instructions_of c result = Normal t ->
  exists d, get result "data" = Normal d /\ d <> JUndefined /\ d <> JNull.
Proof.
  destruct c; unfold instructions_of; unfold_monad;
    (destruct (get result "data") as [d|e]; [|discriminate]);
    intros H; exists d; (split; [reflexivity|]);
    split; intros ->; discriminate H.
Qed.

Lemma instructions_planner (query : string) (result : value) (fields : list (string * value)) :
  get result "data" = Normal (JObject fields) ->
  instructions_of (call_planner query) result
  = dedent planner_success [field "plan" fields].
Proof. intros Hd. unfold instructions_of. unfold_monad. now rewrite Hd. Qed.

Lemma instructions_structure (plan query : string) (result : value)
    (fields : list (string * value)) :
  get result "data" = Normal (JObject fields) ->
  instructions_of (call_structure plan query) result
  = Normal (dedent_strings structure_success
              [interpolated (stringify2 (field "structure" fields))]).
Proof.
  intros Hd. unfold instructions_of. unfold_monad. rewrite Hd. cbn [get].
  apply (dedent_of_strings structure_success [_]).
Qed.

Lemma api_error_template_ok (c : tool_call) :
  failure_template (remediation_heading ApiErrorReturn) (api_error_template c) = true.
Proof.
  destruct c; [apply planner_api_error_ok | apply structure_api_error_ok
               | apply merger_api_error_ok].
Qed.

Lemma network_error_template_ok (c : tool_call) :
  failure_template (remediation_heading CatchReturn) (network_error_template c) = true.
Proof.
  destruct c; [apply planner_network_error_ok | apply structure_network_error_ok
               | apply merger_network_error_ok].
Qed.

(** The [dedent] of a failure template throws when the conversion of the
    cause does, and only then. *)
Lemma failure_dedent (heading : string) (template : list string) (v : value) (t : string) :
  failure_template heading template = true ->
  dedent template [v; JString t]
  = JS.bind (to_string v) (fun text => Normal (dedent_strings template [text; t])).
Proof.
  destruct template as [|r0 [|r1 [|r2 [|]]]]; try discriminate. intros _.
  apply dedent_two.
Qed.

(** When the guard holds: the API-error return if the cause can be written,
    the [catch] clause if its conversion throws. *)
Lemma guard_true_report (env : Env) (remote : Remote) (clock : Clock) (c : tool_call)
    (result error : value) :
  let run := handler env remote clock c in
  remote (sent run) = JsonResolves result ->
  no_success_no_data result = Normal true ->
  get result "error" = Normal error ->
  match to_string (or_else error (JString (unknown_error c))) with
  | Normal cause =>
      exit run = ApiErrorReturn /\ logged run = []
      /\ report_text run
         = dedent_strings (api_error_template c) [cause; toISOString (report_time clock)]
  | Throw e =>
      exit run = CatchReturn /\ logged run = [e]
      /\ report_text run
         = dedent_strings (network_error_template c)
             [error_message e; toISOString (report_time clock)]
  end.
Proof.
  cbv zeta. rewrite request_sent, handler_stage. intros Hr Hg He.
  pose proof (stage_guard_true _ (api_error_template c) (network_error_template c)
                (unknown_error c) (instructions_of c) _ clock result error Hr Hg He) as H.
  cbv beta zeta in H. rewrite (failure_dedent _ _ _ _ (api_error_template_ok c)) in H.
  destruct (to_string _) as [cause|e]; cbn [JS.bind] in H; tauto.
Qed.

(** The report of the API-error return: cause, advice and time stamp. *)
Lemma api_error_report (env : Env) (remote : Remote) (clock : Clock) (c : tool_call) :
  let run := handler env remote clock c in
  exit run = ApiErrorReturn ->
  exists result error cause,
    remote (sent run) = JsonResolves result
    /\ no_success_no_data result = Normal true
    /\ get result "error" = Normal error
    /\ to_string (or_else error (JString (unknown_error c))) = Normal cause
    /\ logged run = []
    /\ (plain_line cause = true -> includes (report_text run) cause = true)
    /\ (forall h, In h (advice c ApiErrorReturn) -> includes (report_text run) h = true)
    /\ includes (report_text run)
         (timestamp_label ++ toISOString (report_time clock)) = true.
Proof.
  cbv zeta. rewrite request_sent, handler_stage. intros H.
  destruct (stage_api_error _ _ _ _ _ _ _ H) as [result [error [t [Hr [Hg [He [Ht [Hl Hx]]]]]]]].
  cbv beta zeta in Ht. rewrite (failure_dedent _ _ _ _ (api_error_template_ok c)) in Ht.
  destruct (to_string _) as [cause|e] eqn:Hc; cbn [JS.bind] in Ht; [|discriminate].
  injection Ht as <-.
  exists result, error, cause. do 5 (split; [assumption|]). rewrite Hx.
  destruct (failure_template_text _ _ cause (toISOString (report_time clock))
              (api_error_template_ok c)) as [_ [Hfixed [_ Hstamp]]].
  split; [apply (failure_cause_kept _ _ _ _ (api_error_template_ok c) (api_error_enclosed c))|].
  split; [exact Hfixed|].
  apply Hstamp, timestamp_anchored.
Qed.

(** The report of the [catch] clause. *)
Lemma catch_report (env : Env) (remote : Remote) (clock : Clock) (c : tool_call) :
  let run := handler env remote clock c in
  exit run = CatchReturn ->
  exists e,
    logged run = [e]
    /\ (plain_line (error_message e) = true ->
        includes (report_text run) (error_message e) = true)
    /\ (forall h, In h (advice c CatchReturn) -> includes (report_text run) h = true)
    /\ includes (report_text run)
         (timestamp_label ++ toISOString (report_time clock)) = true.
Proof.
  cbv zeta. rewrite handler_stage. intros H.
  destruct (stage_catch _ _ _ _ _ _ _ H) as [e [Hl Ht]].
  exists e. split; [assumption|]. rewrite Ht.
  destruct (failure_template_text _ _ (error_message e) (toISOString (report_time clock))
              (network_error_template_ok c)) as [_ [Hfixed [_ Hstamp]]].
  split; [apply (failure_cause_kept _ _ _ _ (network_error_template_ok c)
                   (network_error_enclosed c))|].
  split; [exact Hfixed|].
  apply Hstamp, timestamp_anchored.
Qed.

(** The heading of the advice is one of its lines. *)
Lemma advice_heading (c : tool_call) (e : exit_point) :
  e <> InstructionsReturn -> In (remediation_heading e) (advice c e).
Proof.
  intros He. destruct e; [| congruence |]; unfold advice.
  - destruct (failure_template_text _ _ EmptyString EmptyString (api_error_template_ok c))
      as [_ [_ [H _]]]. exact H.
  - destruct (failure_template_text _ _ EmptyString EmptyString (network_error_template_ok c))
      as [_ [_ [H _]]]. exact H.
Qed.

(** When the guard holds the call is a failure, by one return or the
    other. *)
Lemma guard_true_is_failure (env : Env) (remote : Remote) (clock : Clock) (c : tool_call)
    (result : value) :
  remote (sent (handler env remote clock c)) = JsonResolves result ->
  no_success_no_data result = Normal true ->
  is_failure (handler env remote clock c) = true.
Proof.
  intros Hr Hg. pose proof Hg as Hg'. apply guard_spec in Hg' as [s [d [Hs _]]].
  destruct (get_total result "success" "error" s Hs) as [error He].
  pose proof (guard_true_report env remote clock c result error Hr Hg He) as H.
  cbv zeta in H. unfold is_failure.
  destruct (to_string _); destruct H as [-> _]; reflexivity.
Qed.

(** A reply without [data] is reported as a failure. *)
Lemma no_data_is_failure (env : Env) (remote : Remote) (clock : Clock) (c : tool_call)
    (result d : value) :
  remote (sent (handler env remote clock c)) = JsonResolves result ->
  get result "data" = Normal d -> d = JUndefined \/ d = JNull ->
  is_failure (handler env remote clock c) = true.
Proof.
  intros Hr Hd Habs.
  destruct (guard_total result d Hd) as [[|] Hg];
    [exact (guard_true_is_failure env remote clock c result Hr Hg)|].
  rewrite request_sent in Hr. rewrite handler_stage. unfold is_failure.
  pose proof (stage_guard_false _ (api_error_template c) (network_error_template c)
                (unknown_error c) (instructions_of c) _ clock _ Hr Hg) as H.
  destruct (instructions_need_data c result d Hd Habs) as [e He].
  rewrite He in H. destruct H as [-> _]. reflexivity.
Qed.

(** A reply with a truthy [data] is never the API error. *)
Lemma data_passes_guard (env : Env) (remote : Remote) (clock : Clock) (c : tool_call)
    (result d : value) :
  remote (sent (handler env remote clock c)) = JsonResolves result ->
  get result "data" = Normal d -> truthy d = true ->
  match instructions_of c result with
  | Normal t =>
      exit (handler env remote clock c) = InstructionsReturn
      /\ report_text (handler env remote clock c) = t
  | Throw e =>
      exit (handler env remote clock c) = CatchReturn
      /\ logged (handler env remote clock c) = [e]
  end.
Proof.
  rewrite request_sent. intros Hr Hd Ht. rewrite handler_stage.
  pose proof (stage_guard_false _ (api_error_template c) (network_error_template c)
                (unknown_error c) (instructions_of c) _ clock _ Hr
                (guard_false_truthy _ _ Hd Ht)) as H.
  destruct (instructions_of c result); tauto.
Qed.

Lemma guard_is_api_error (env : Env) (remote : Remote) (clock : Clock) (c : tool_call)
    (result : value) :
  remote (sent (handler env remote clock c)) = JsonResolves result ->
  (exit (handler env remote clock c) = ApiErrorReturn <->
   exists s d error cause,
     get result "success" = Normal s /\ get result "data" = Normal d
     /\ truthy s = false /\ truthy d = false
     /\ get result "error" = Normal error
     /\ to_string (or_else error (JString (unknown_error c))) = Normal cause).
Proof.
  intros Hr. split.
  - intros E. destruct (api_error_report env remote clock c E)
      as [result' [error [cause [Hr' [Hg [He [Hc _]]]]]]].
    rewrite Hr in Hr'. injection Hr' as <-.
    apply guard_spec in Hg as [s [d [Hs [Hd [Hts Htd]]]]].
    exists s, d, error, cause. now repeat split.
  - intros [s [d [error [cause [Hs [Hd [Hts [Htd [He Hc]]]]]]]]].
    assert (no_success_no_data result = Normal true) as Hg
      by (apply guard_spec; now exists s, d).
    pose proof (guard_true_report env remote clock c result error Hr Hg He) as H.
    cbv zeta in H. rewrite Hc in H. apply H.
Qed.

(** ** The clock and the plan *)

(** The time stamp does not decide whether a [dedent] throws. *)
Lemma dedent_two_clocks (raw : list string) (v : value) (t t' : string) :
  match dedent raw [v; JString t] with
  | Normal _ => exists s, dedent raw [v; JString t'] = Normal s
  | Throw e => dedent raw [v; JString t'] = Throw e
  end.
Proof.
  unfold dedent. destruct raw as [|r0 raw]; cbn [interpolate JS.bind].
  - now eexists.
  - destruct (to_string v) as [text|e]; cbn [JS.bind]; [|reflexivity].
    rewrite !interpolate_string. cbn [JS.bind]. now eexists.
Qed.

Lemma stage_two_clocks (request : Request) (api_error network_error : list string)
    (unknown : string) (instructions : value -> completion string)
    (remote : Remote) (clock clock' : Clock) :
  let r := stage request api_error network_error unknown instructions remote clock in
  let r' := stage request api_error network_error unknown instructions remote clock' in
  sent r = sent r' /\ exit r = exit r' /\ logged r = logged r'
  /\ (exit r = InstructionsReturn -> returned r = returned r').
Proof.
  unfold stage. unfold_monad.
  destruct (remote request) as [e|e|result]; cbn; try (repeat split; discriminate).
  destruct (no_success_no_data result) as [[|]|e]; cbn; try (repeat split; discriminate).
  - destruct (get result "error") as [err|e]; cbn; [|repeat split; discriminate].
    pose proof (dedent_two_clocks api_error (or_else err (JString unknown))
                  (toISOString (report_time clock)) (toISOString (report_time clock'))) as H.
    destruct (dedent api_error [_; JString (toISOString (report_time clock))]) as [t|e].
    + destruct H as [t' ->]. cbn. repeat split; discriminate.
    + rewrite H. cbn. repeat split; discriminate.
  - destruct (instructions result); cbn; repeat split; discriminate.
Qed.

Lemma request_ignores_report_time (env : Env) (ms : N) (t1 t2 : UTC) (c : tool_call) :
  request_of env {| request_ms := ms; report_time := t1 |} c
  = request_of env {| request_ms := ms; report_time := t2 |} c.
Proof. destruct c; reflexivity. Qed.

(** The plan is alone on its line in the template of the plan report. *)
Lemma planner_success_hole :
  match planner_success with
  | [r0; r1] => hole_on_line (unescape r0) (unescape r1)
  | _ => false
  end = true.
Proof. vm_compute. reflexivity. Qed.

Lemma planner_success_text (plan : string) :
  anchored plan = true ->
  includes (dedent_strings planner_success [plan]) plan = true.
Proof.
  intros Hp. pose proof planner_success_hole as H.
  destruct planner_success as [|r0 [|r1 [|]]]; try discriminate.
  unfold dedent_strings. cbn [interpolate_strings]. rewrite append_nil_r.
  apply includes_spec.
  rewrite <- (append_nil_r (unescape r1)).
  now apply hole_line_survives.
Qed.

(* ===================================================================== *)
(** * The statements of the specification *)
(* ===================================================================== *)

(** ** C1 *)

(** C1, counterexample: the remote answers [success: false] together with a
    [data] object; [planner_tool] returns the instructions, not a failure. *)
Lemma C1_success_false_with_data_is_success :
  let result := JObject [("success", JBool false);
                         ("data", JObject [("plan", JString "1. Add a Grid")])] in
  let run := planner_tool sample_env (always (JsonResolves result)) sample_clock
               "build a login form" in
  get result "success" = Normal (JBool false)
  /\ exit run = InstructionsReturn
  /\ is_failure run = false
  /\ includes (report_text run) "1. Add a Grid" = true.
Proof. vm_compute. repeat split. Qed.

(** C1, as amended: each handler takes its API-error return exactly when
    both signals are negative, [success] falsy AND [data] falsy, and the
    cause can be written: [result.error || '...'] is converted to a string
    by [dedent], inside the [try], and the conversion throws on an object
    with an own [toString] key (or an array that holds one).  A reply with
    both signals negative is always reported as a failure, by the API-error
    return or, when that conversion throws, by the [catch] clause.  A reply
    without a [data] field is always reported as a failure too (by the
    [catch] clause when [success] is truthy, the read of a property of
    [undefined] having thrown).  A reply with a [data] object is never the
    API error, whatever [success] says: [structure_tool] returns the
    instructions, and so does [planner_tool] unless the conversion of the
    plan throws, which the [catch] clause reports. *)
Theorem C1_failure_guard (env : Env) (remote : Remote) (clock : Clock) (c : tool_call)
    (result : value) :
  let run := handler env remote clock c in
  remote (sent run) = JsonResolves result ->
  (exit run = ApiErrorReturn <->
   exists s d error cause,
     get result "success" = Normal s /\ get result "data" = Normal d
     /\ truthy s = false /\ truthy d = false
     /\ get result "error" = Normal error
     /\ to_string (or_else error (JString (unknown_error c))) = Normal cause)
  /\ (forall s d error,
        get result "success" = Normal s -> get result "data" = Normal d ->
        truthy s = false -> truthy d = false -> get result "error" = Normal error ->
        match to_string (or_else error (JString (unknown_error c))) with
        | Normal _ => exit run = ApiErrorReturn
        | Throw e => exit run = CatchReturn /\ logged run = [e]
        end)
  /\ (get result "data" = Normal JUndefined -> is_failure run = true)
  /\ (forall fields, get result "data" = Normal (JObject fields) ->
      match c with
      | call_planner _ =>
          match to_string (field "plan" fields) with
          | Normal _ => exit run = InstructionsReturn
          | Throw e => exit run = CatchReturn /\ logged run = [e]
          end
      | call_structure _ _ => exit run = InstructionsReturn
      | call_merger _ => exit run <> ApiErrorReturn
      end).
Proof.
  intros run Hr. split; [now apply guard_is_api_error|]. split; [|split].
  - intros s d error Hs Hd Hts Htd He.
    assert (no_success_no_data result = Normal true) as Hg
      by (apply guard_spec; now exists s, d).
    pose proof (guard_true_report env remote clock c result error Hr Hg He) as H.
    cbv zeta in H. fold run in H. destruct (to_string _); tauto.
  - intros Hd. apply (no_data_is_failure env remote clock c result JUndefined Hr Hd).
    now left.
  - intros fields Hd.
    pose proof (data_passes_guard env remote clock c result _ Hr Hd eq_refl) as H.
    fold run in H. destruct c as [query|plan query|actStructure].
    + rewrite (instructions_planner _ _ _ Hd) in H.
      pose proof planner_success_hole as Hshape.
      destruct planner_success as [|r0 [|r1 [|]]]; try discriminate.
      rewrite dedent_one in H.
      destruct (to_string (field "plan" fields)); cbn [JS.bind] in H; tauto.
    + rewrite (instructions_structure _ _ _ _ Hd) in H. apply H.
    + destruct (instructions_of _ result); [destruct H as [-> _]|destruct H as [-> _]];
        discriminate.
Qed.

(** C1, witness: [planner_tool] meets [{success: true}], a reply without
    [data], and reports a failure. *)
Lemma C1_failure_guard_witness :
  let result := JObject [("success", JBool true)] in
  let run := handler sample_env (always (JsonResolves result)) sample_clock
               (call_planner "build a login form") in
  always (JsonResolves result) (sent run) = JsonResolves result
  /\ is_failure run = true.
Proof.
  split; [reflexivity|].
  apply (C1_failure_guard sample_env (always (JsonResolves (JObject [("success", JBool true)])))
           sample_clock (call_planner "build a login form")
           (JObject [("success", JBool true)]) eq_refl).
  reflexivity.
Defined.

(** ** C2 *)

(** C2, counterexample: the node of scenario 3, which the ACT schema
    rejects, comes back in a successful reply; [structure_tool] returns the
    instructions with the node in them, no failure of any kind. *)
Lemma C2_invalid_structure_forwarded :
  let result := JObject [("success", JBool true);
                         ("data", JObject [("structure", scenario3_structure)])] in
  let run := structure_tool sample_env (always (JsonResolves result)) sample_clock
               "1. Add a Grid" "build a page" in
  is_valid (validate scenario3_structure) = false
  /\ exit run = InstructionsReturn
  /\ error_kind run = None
  /\ includes (report_text run) "Abstract Component Tree (ACT) Generated" = true
  /\ includes (report_text run) (DQ ++ "description" ++ DQ ++ ": " ++ DQ ++ DQ) = true.
Proof. vm_compute. repeat split. Qed.

(** C2, as amended: [structure_tool] does not validate what the remote
    returns.  Whenever the reply carries a [data] object, the handler
    returns the instructions with
    [JSON.stringify(result.data.structure, null, 2)] interpolated, whether
    the ACT schema accepts that value or not; and no return of any handler
    stands for [MalformedArtifact]. *)
Theorem C2_structure_not_validated (env : Env) (remote : Remote) (clock : Clock)
    (plan query : string) (result : value) (fields : list (string * value)) :
  let run := structure_tool env remote clock plan query in
  remote (sent run) = JsonResolves result ->
  get result "data" = Normal (JObject fields) ->
  exit run = InstructionsReturn
  /\ error_kind run = None
  /\ dedent structure_success
       [JString (interpolated (stringify2 (field "structure" fields)))]
     = Normal (report_text run)
  /\ (forall env' remote' clock' c,
        error_kind (handler env' remote' clock' c) <> Some MalformedArtifact).
Proof.
  intros run Hr Hd.
  pose proof (data_passes_guard env remote clock (call_structure plan query) result _
                Hr Hd eq_refl) as H.
  rewrite (instructions_structure _ _ _ _ Hd) in H. destruct H as [He Ht].
  change (handler env remote clock (call_structure plan query)) with run in He, Ht.
  split; [exact He|]. split; [unfold error_kind; now rewrite He|]. split.
  { rewrite Ht. apply (dedent_of_strings structure_success [_]). }
  intros env' remote' clock' c'. unfold error_kind.
  destruct (exit (handler env' remote' clock' c')); discriminate.
Qed.

(** C2, witness: the remote returns the number 42 as the structure. *)
Lemma C2_structure_not_validated_witness :
  let result := JObject [("success", JBool true);
                         ("data", JObject [("structure", JNumber "42")])] in
  let run := structure_tool sample_env (always (JsonResolves result)) sample_clock
               "1. Add a Grid" "build a page" in
  (always (JsonResolves result) (sent run) = JsonResolves result
   /\ get result "data" = Normal (JObject [("structure", JNumber "42")]))
  /\ is_valid (validate (JNumber "42")) = false
  /\ exit run = InstructionsReturn.
Proof.
  split; [split; reflexivity|]. split; [reflexivity|].
  apply (C2_structure_not_validated sample_env
           (always (JsonResolves (JObject [("success", JBool true);
                                           ("data", JObject [("structure", JNumber "42")])])))
           sample_clock "1. Add a Grid" "build a page" _ [("structure", JNumber "42")]
           eq_refl eq_refl).
Defined.

(** ** C3 *)

(** C3, counterexample: the schema accepts a node whose [component] and
    [description] are both the empty string. *)
Lemma C3_empty_strings_accepted :
  validate (node (JString EmptyString) (JString EmptyString) JNull (JString "Submit"))
  = Valid (node (JString EmptyString) (JString EmptyString) JNull (JString "Submit")).
Proof. reflexivity. Qed.

(** C3, as amended: the schema accepts a value only if it is an object whose
    [component] and [description] fields are strings; it asks nothing of
    their length, so that a node with these two fields strings, [mcpQuery] a
    string or [null] and [children] accepted is accepted even when they are
    empty; a node whose [component] or [description] is missing or not a
    string is rejected. *)
Theorem C3_component_description_strings (path : list path_elem) (input : value) :
  is_valid (ACTComponentSchema path input) = true ->
  exists fields c d,
    input = JObject fields
    /\ field "component" fields = JString c
    /\ field "description" fields = JString d
    /\ forall c' d',
         is_valid (ACTComponentSchema path
                     (node (JString c') (JString d') (field "mcpQuery" fields)
                        (field "children" fields))) = true.
Proof.
  intros H. destruct (only_objects_accepted _ _ H) as [fields ->].
  rewrite accepted_by_fields in H.
  apply andb_true_iff in H as [Hc H]. apply andb_true_iff in H as [Hd H].
  destruct (field "component" fields) as [| | | |c| |] eqn:Ec; try discriminate.
  destruct (field "description" fields) as [| | | |d| |] eqn:Ed; try discriminate.
  exists fields, c, d. do 3 (split; [first [reflexivity | assumption]|]). intros c' d'.
  unfold node. rewrite accepted_by_fields. exact H.
Qed.

(** C3, witness: an accepted grid node. *)
Lemma C3_component_description_strings_witness :
  let grid := node (JString "Grid") (JString "Main data grid") JNull (JArray []) in
  is_valid (ACTComponentSchema [] grid) = true
  /\ exists fields c d,
       grid = JObject fields
       /\ field "component" fields = JString c
       /\ field "description" fields = JString d
       /\ forall c' d',
            is_valid (ACTComponentSchema []
                        (node (JString c') (JString d') (field "mcpQuery" fields)
                           (field "children" fields))) = true.
Proof.
  split; [reflexivity|].
  apply (C3_component_description_strings []
           (node (JString "Grid") (JString "Main data grid") JNull (JArray []))).
  reflexivity.
Defined.

(** ** C4 *)

(** C4: [children] is read as a union of two cases.  For a node whose
    other fields are well formed ([component] and [description] strings,
    [mcpQuery] a string or [null]) the empty string is accepted and
    returned as a string, the empty array is accepted and returned as an
    array, and the two results are different values.  For every node, a
    [children] that is neither a string nor an array (a missing one
    included) is rejected, and so is an array with an element that the
    schema rejects. *)
Theorem C4_children_union (fields : list (string * value)) :
  (forall c d,
     field "component" fields = JString c ->
     field "description" fields = JString d ->
     is_nullable_string (field "mcpQuery" fields) = true ->
     let q := field "mcpQuery" fields in
     (field "children" fields = JString EmptyString ->
      validate (JObject fields)
      = Valid (node (JString c) (JString d) q (JString EmptyString)))
     /\ (field "children" fields = JArray [] ->
         validate (JObject fields) = Valid (node (JString c) (JString d) q (JArray [])))
     /\ node (JString c) (JString d) q (JString EmptyString)
        <> node (JString c) (JString d) q (JArray []))
  /\ (is_string (field "children" fields) = false ->
      is_array (field "children" fields) = false ->
      is_valid (validate (JObject fields)) = false)
  /\ (forall items y,
        field "children" fields = JArray items ->
        In y items -> is_valid (validate y) = false ->
        is_valid (validate (JObject fields)) = false).
Proof.
  split; [|split].
  - intros c d Hc Hd Hq q. split; [|split].
    + intros Hs. now apply leaf_output.
    + intros Hs. now apply empty_container_output.
    + discriminate.
  - intros Hs Ha. unfold validate. rewrite accepted_by_fields.
    destruct (field "children" fields) as [| | | |s|items|] eqn:E;
      try discriminate; cbn; now rewrite !andb_false_r.
  - intros items y Hs Hy Hbad. unfold validate. rewrite accepted_by_fields, Hs.
    cbn [children_accepted].
    assert (forallb (fun y => is_valid (validate y)) items = false) as ->.
    { apply not_true_is_false. intros Hall. rewrite forallb_forall in Hall.
      rewrite (Hall y Hy) in Hbad. discriminate. }
    now rewrite !andb_false_r.
Qed.

(** C4, witness: a button with the empty string as [children], and the
    same button inside an array next to a number. *)
Lemma C4_children_union_witness :
  let button := [("component", JString "Button"); ("description", JString "Saves the form");
                 ("mcpQuery", JNull); ("children", JString EmptyString)] in
  let toolbar := [("component", JString "Toolbar"); ("description", JString "Actions");
                  ("mcpQuery", JNull); ("children", JArray [JObject button; JNumber "7"])] in
  validate (JObject button)
  = Valid (node (JString "Button") (JString "Saves the form") JNull (JString EmptyString))
  /\ is_valid (validate (JObject toolbar)) = false.
Proof.
  split.
  - apply (C4_children_union
             [("component", JString "Button"); ("description", JString "Saves the form");
              ("mcpQuery", JNull); ("children", JString EmptyString)]);
      reflexivity.
  - apply (proj2 (proj2 (C4_children_union
             [("component", JString "Toolbar"); ("description", JString "Actions");
              ("mcpQuery", JNull);
              ("children",
               JArray [JObject [("component", JString "Button");
                                ("description", JString "Saves the form");
                                ("mcpQuery", JNull); ("children", JString EmptyString)];
                       JNumber "7"])]))
             _ (JNumber "7") eq_refl); [right; now left | reflexivity].
Defined.

(** ** C5 *)

(** C5, counterexample: a node that is well formed but for the [mcpQuery]
    key, which it does not have, is rejected. *)
Lemma C5_missing_mcpQuery_rejected :
  lookup "mcpQuery" [("component", JString "Grid"); ("description", JString "Users");
                     ("children", JString EmptyString)] = None
  /\ validate (JObject [("component", JString "Grid"); ("description", JString "Users");
                        ("children", JString EmptyString)])
     = Invalid [invalid_type [Key "mcpQuery"] t_string t_undefined].
Proof. split; reflexivity. Qed.

(** C5, as amended: for a node whose other fields are well formed, the
    schema accepts [mcpQuery] when it is [null], the explicit mark that no
    documentation query is given, and returns it as [null]; it also accepts
    any string, the empty string included, and returns a string, which is
    not [null]; a node that has no [mcpQuery] key at all is rejected. *)
Theorem C5_mcpQuery_null_not_missing (fields : list (string * value)) (c d : string) :
  field "component" fields = JString c ->
  field "description" fields = JString d ->
  children_accepted (field "children" fields) = true ->
  (field "mcpQuery" fields = JNull ->
   exists children, validate (JObject fields)
                    = Valid (node (JString c) (JString d) JNull children))
  /\ (forall s, field "mcpQuery" fields = JString s ->
      exists children, validate (JObject fields)
                       = Valid (node (JString c) (JString d) (JString s) children))
  /\ JNull <> JString EmptyString
  /\ (lookup "mcpQuery" fields = None -> is_valid (validate (JObject fields)) = false).
Proof.
  intros Hc Hd Hch.
  assert (forall q, field "mcpQuery" fields = q -> is_nullable_string q = true ->
            exists children, validate (JObject fields)
                             = Valid (node (JString c) (JString d) q children)) as Hout.
  { intros q Hq Hn. unfold validate.
    pose proof (children_accepted_spec [Key "children"] (field "children" fields)) as Hv.
    rewrite Hch in Hv. rewrite ACTComponentSchema_object, Hc, Hd, Hq.
    cbn [app] in *.
    destruct (parse_children [Key "children"] (field "children" fields)) as [ch|];
      [|discriminate Hv].
    exists ch. destruct q; try discriminate; reflexivity. }
  repeat split.
  - intros Hq. now apply Hout.
  - intros s Hq. now apply Hout.
  - discriminate.
  - intros Hq. unfold validate. rewrite accepted_by_fields. unfold field at 3.
    rewrite Hq. cbn. now rewrite !andb_false_r.
Qed.

(** C5, witness: a grid node whose [mcpQuery] is [null]. *)
Lemma C5_mcpQuery_null_not_missing_witness :
  let fields := [("component", JString "Grid"); ("description", JString "Users");
                 ("mcpQuery", JNull); ("children", JArray [])] in
  (field "component" fields = JString "Grid"
   /\ field "description" fields = JString "Users"
   /\ children_accepted (field "children" fields) = true)
  /\ exists children, validate (JObject fields)
                      = Valid (node (JString "Grid") (JString "Users") JNull children).
Proof.
  split; [repeat split|].
  apply (C5_mcpQuery_null_not_missing
           [("component", JString "Grid"); ("description", JString "Users");
            ("mcpQuery", JNull); ("children", JArray [])]
           "Grid" "Users" eq_refl eq_refl eq_refl).
  reflexivity.
Defined.

(** ** C6 *)

(** C6: when [SERVER_URL] or [SECRET] is absent from the environment or
    empty, start-up is fatal: [envSchema.parse] throws a [ZodError] with at
    least one issue while [./env.js] is evaluated, no tool is registered,
    and no call reaches a handler; conversely a server that is serving runs
    its handlers with both values present and non-empty, so that a missing
    configuration never shows as the failure of a stage. *)
Theorem C6_configuration_fatal (process_env : gmap string string) :
  (process_env !! "SERVER_URL" = None \/ process_env !! "SERVER_URL" = Some EmptyString
   \/ process_env !! "SECRET" = None \/ process_env !! "SECRET" = Some EmptyString) ->
  (exists issues, start process_env = Fatal issues /\ issues <> [])
  /\ registered (start process_env) = []
  /\ (forall remote clock c, invoke (start process_env) remote clock c = NotServing)
  /\ (forall env server, start process_env = Serving env server -> False).
Proof.
  intros Hbad. unfold start.
  destruct (envSchema process_env) as [env|issues] eqn:E.
  - apply envSchema_valid in E as [Hs [Hsne [Hu Hune]]].
    destruct Hbad as [H|[H|[H|H]]]; rewrite H in *; congruence.
  - split; [exists issues; split; [reflexivity | now apply envSchema_invalid in E]|].
    repeat split. discriminate.
Qed.

(** C6, witness: an environment with [SECRET] and without [SERVER_URL]. *)
Lemma C6_configuration_fatal_witness :
  ((<["SECRET" := "hunter2"]> ∅ : gmap string string) !! "SERVER_URL" = None
   \/ (<["SECRET" := "hunter2"]> ∅ : gmap string string) !! "SERVER_URL" = Some EmptyString
   \/ (<["SECRET" := "hunter2"]> ∅ : gmap string string) !! "SECRET" = None
   \/ (<["SECRET" := "hunter2"]> ∅ : gmap string string) !! "SECRET" = Some EmptyString)
  /\ registered (start (<["SECRET" := "hunter2"]> ∅)) = [].
Proof.
  assert ((<["SECRET" := "hunter2"]> ∅ : gmap string string) !! "SERVER_URL" = None) as H
    by (vm_compute; reflexivity).
  split; [now left|].
  apply (C6_configuration_fatal (<["SECRET" := "hunter2"]> ∅) (or_introl H)).
Defined.

(** ** C7 *)

(** C7, counterexample: the remote reports an explicit failure,
    [success: false] with an error message, and sends a [data] object with
    it; [structure_tool] returns the instructions, and the error message is
    nowhere in the report. *)
Lemma C7_explicit_failure_reported_as_success :
  let result := JObject [("success", JBool false);
                         ("error", JString "generation failed");
                         ("data", JObject [("structure", JNull)])] in
  let run := structure_tool sample_env (always (JsonResolves result)) sample_clock
               "1. Add a Grid" "build a page" in
  get result "success" = Normal (JBool false)
  /\ get result "error" = Normal (JString "generation failed")
  /\ is_failure run = false
  /\ includes (report_text run) "generation failed" = false.
Proof. vm_compute. repeat split. Qed.

(** C7, as amended: a handler never lets a fault escape, it always returns a
    report.  A rejected [fetch] or [response.json()], a reply without
    [data], and a reply whose [success] and [data] are both falsy are
    reported as failures: the last one by the API-error return, or by the
    [catch] clause when the conversion of [result.error] to a string
    throws.  A report is the instructions only when the remote resolved and
    [data] was neither [undefined] nor [null].  Every failure report
    contains every line of the advice of its template, the heading of the
    advice among them, and the time stamp; and it contains the cause (the
    remote's error text or the default one, or the message of the caught
    error) whenever that is a single line free of backslashes ([dedent]
    strips the indentation of the lines that follow the first one, and
    rewrites escapes).  A reply with a truthy
    [data], an explicit failure included, never takes the API-error
    return: the handler writes the instructions, and the call is a failure
    only when writing them throws, which the [catch] clause reports. *)
Theorem C7_failures_reported (env : Env) (remote : Remote) (clock : Clock) (c : tool_call) :
  let run := handler env remote clock c in
  let stamp := timestamp_label ++ toISOString (report_time clock) in
  (forall e, remote (sent run) = FetchRejects e \/ remote (sent run) = JsonRejects e ->
      exit run = CatchReturn /\ logged run = [e])
  /\ (forall result d, remote (sent run) = JsonResolves result ->
      get result "data" = Normal d -> d = JUndefined \/ d = JNull ->
      is_failure run = true)
  /\ (forall result s d error, remote (sent run) = JsonResolves result ->
      get result "success" = Normal s -> get result "data" = Normal d ->
      truthy s = false -> truthy d = false -> get result "error" = Normal error ->
      is_failure run = true
      /\ match to_string (or_else error (JString (unknown_error c))) with
         | Normal _ => exit run = ApiErrorReturn
         | Throw e => exit run = CatchReturn /\ logged run = [e]
         end)
  /\ (exit run = ApiErrorReturn ->
      exists result error cause,
        remote (sent run) = JsonResolves result /\ get result "error" = Normal error
        /\ to_string (or_else error (JString (unknown_error c))) = Normal cause
        /\ (plain_line cause = true -> includes (report_text run) cause = true))
  /\ (exit run = CatchReturn ->
      exists e,
        logged run = [e]
        /\ let cause := error_message e in
           plain_line cause = true -> includes (report_text run) cause = true)
  /\ (is_failure run = true ->
      In (remediation_heading (exit run)) (advice c (exit run))
      /\ (forall h, In h (advice c (exit run)) -> includes (report_text run) h = true)
      /\ includes (report_text run) stamp = true)
  /\ (exit run = InstructionsReturn ->
      exists result d,
        remote (sent run) = JsonResolves result /\ get result "data" = Normal d
        /\ d <> JUndefined /\ d <> JNull /\ logged run = [])
  /\ (forall result d, remote (sent run) = JsonResolves result ->
      get result "data" = Normal d -> truthy d = true ->
      exit run <> ApiErrorReturn
      /\ match instructions_of c result with
         | Normal t => exit run = InstructionsReturn /\ report_text run = t
         | Throw e => exit run = CatchReturn /\ logged run = [e]
         end).
Proof.
  intros run stamp.
  split.
  { intros e He. subst run. rewrite request_sent in He. rewrite handler_stage.
    destruct (stage_rejects _ (api_error_template c) (network_error_template c)
                (unknown_error c) (instructions_of c) _ clock e He) as [H1 [H2 _]].
    now split. }
  split; [intros result d Hr Hd Habs; now apply (no_data_is_failure _ _ _ _ result d)|].
  split.
  { intros result s d error Hr Hs Hd Hts Htd He.
    assert (no_success_no_data result = Normal true) as Hg
      by (apply guard_spec; now exists s, d).
    split; [exact (guard_true_is_failure env remote clock c result Hr Hg)|].
    pose proof (guard_true_report env remote clock c result error Hr Hg He) as H.
    cbv zeta in H. fold run in H. destruct (to_string _); tauto. }
  split.
  { intros H. destruct (api_error_report env remote clock c H)
      as [result [error [cause [Hr [_ [He [Hc [_ [Hin _]]]]]]]]].
    exists result, error, cause. now repeat split. }
  split.
  { intros H. destruct (catch_report env remote clock c H) as [e [Hl [Hc _]]].
    exists e. now split. }
  split.
  { unfold is_failure. destruct (exit run) eqn:E; [| discriminate |]; intros _.
    - split; [now apply advice_heading|].
      destruct (api_error_report env remote clock c E)
        as [_ [_ [_ [_ [_ [_ [_ [_ [_ H]]]]]]]]].
      exact H.
    - split; [now apply advice_heading|].
      destruct (catch_report env remote clock c E) as [_ [_ [_ H]]]. exact H. }
  split.
  { intros H. subst run. rewrite request_sent. rewrite handler_stage in *.
    destruct (stage_instructions _ _ _ _ _ _ _ H) as [result [t [Hr [_ [Hi [Hl _]]]]]].
    destruct (instructions_read_data c result t Hi) as [d [Hd [Hu Hn]]].
    exists result, d. now repeat split. }
  intros result d Hr Hd Ht.
  pose proof (data_passes_guard env remote clock c result d Hr Hd Ht) as H. fold run in H.
  split; [|exact H].
  destruct (instructions_of c result); destruct H as [-> _]; discriminate.
Qed.

(** ** C8 *)

(** C8: when the remote answers [{success: false, error: "rate limited"}]
    without a [data] field, each handler leaves by its API-error return,
    the failure the specification calls [RemoteRejected], and the text of
    the report contains [rate limited]. *)
Theorem C8_rate_limited (env : Env) (remote : Remote) (clock : Clock) (c : tool_call)
    (fields : list (string * value)) :
  let run := handler env remote clock c in
  remote (sent run) = JsonResolves (JObject fields) ->
  field "success" fields = JBool false ->
  lookup "data" fields = None ->
  field "error" fields = JString "rate limited" ->
  exit run = ApiErrorReturn
  /\ error_kind run = Some RemoteRejected
  /\ includes (report_text run) "rate limited" = true.
Proof.
  intros run Hr Hs Hd He.
  assert (exit run = ApiErrorReturn) as Hexit.
  { apply (guard_is_api_error env remote clock c _ Hr).
    exists (JBool false), JUndefined, (JString "rate limited"), "rate limited".
    cbn [get]. rewrite Hs, He. unfold field. rewrite Hd. now repeat split. }
  split; [exact Hexit|]. split; [unfold error_kind; now rewrite Hexit|].
  destruct (api_error_report env remote clock c Hexit)
    as [result [error [cause [Hr' [_ [He' [Hcause [_ [Hc _]]]]]]]]].
  fold run in Hr'. rewrite Hr in Hr'. injection Hr' as <-.
  cbn [get] in He'. rewrite He in He'.
  injection He' as <-. cbn in Hcause. injection Hcause as <-. apply Hc. reflexivity.
Qed.

(** C8, witness: [merger_tool] meets exactly the reply of the scenario. *)
Lemma C8_rate_limited_witness :
  let fields := [("success", JBool false); ("error", JString "rate limited")] in
  let remote := always (JsonResolves (JObject fields)) in
  let run := handler sample_env remote sample_clock (call_merger (JString "x")) in
  (remote (sent run) = JsonResolves (JObject fields)
   /\ field "success" fields = JBool false
   /\ lookup "data" fields = None
   /\ field "error" fields = JString "rate limited")
  /\ includes (report_text run) "rate limited" = true.
Proof.
  split; [repeat split|].
  apply (C8_rate_limited sample_env
           (always (JsonResolves (JObject [("success", JBool false);
                                           ("error", JString "rate limited")])))
           sample_clock (call_merger (JString "x"))
           [("success", JBool false); ("error", JString "rate limited")]
           eq_refl eq_refl eq_refl eq_refl).
Defined.

(** ** C9 *)

(** C9, counterexample: the same failed outcome, formatted at two readings
    of the clock, gives two different reports. *)
Lemma C9_same_outcome_two_reports :
  let reply := JsonResolves (JObject [("success", JBool false);
                                      ("error", JString "rate limited")]) in
  let first := planner_tool sample_env (always reply) sample_clock "build a login form" in
  let second := planner_tool sample_env (always reply) later_clock "build a login form" in
  exit first = ApiErrorReturn
  /\ exit second = ApiErrorReturn
  /\ String.eqb (report_text first) (report_text second) = false.
Proof. vm_compute. repeat split. Qed.

(** C9, as amended: the report is a function of what the remote did and of
    the clock.  Two calls that differ only in the time at which the report
    is written send the same request, leave by the same return and log the
    same; when that return is the instructions the two reports are
    identical (the instructions do not read the clock), and when it is a
    failure each report carries the time at which it was written.  The
    report of [planner_tool] contains the plan as the remote gave it when
    the plan is a single line, free of backslashes, that neither starts nor
    ends with white space. *)
Theorem C9_report_of_reply_and_clock (env : Env) (remote : Remote) (c : tool_call)
    (ms : N) (t1 t2 : UTC) :
  let r1 := handler env remote {| request_ms := ms; report_time := t1 |} c in
  let r2 := handler env remote {| request_ms := ms; report_time := t2 |} c in
  sent r1 = sent r2 /\ exit r1 = exit r2 /\ logged r1 = logged r2
  /\ (exit r1 = InstructionsReturn -> returned r1 = returned r2)
  /\ (is_failure r1 = true ->
      includes (report_text r1) (timestamp_label ++ toISOString t1) = true
      /\ includes (report_text r2) (timestamp_label ++ toISOString t2) = true)
  /\ (forall query result fields plan,
        c = call_planner query ->
        remote (sent r1) = JsonResolves result ->
        get result "data" = Normal (JObject fields) ->
        field "plan" fields = JString plan ->
        anchored plan = true ->
        exit r1 = InstructionsReturn /\ includes (report_text r1) plan = true).
Proof.
  intros r1 r2.
  assert (sent r1 = sent r2 /\ exit r1 = exit r2 /\ logged r1 = logged r2
          /\ (exit r1 = InstructionsReturn -> returned r1 = returned r2)) as H.
  { subst r1 r2. rewrite !handler_stage.
    rewrite (request_ignores_report_time env ms t1 t2 c). apply stage_two_clocks. }
  destruct H as [Hs [He [Hl Hi]]]. do 4 (split; [assumption|]). split.
  - intros Hf. assert (is_failure r2 = true) as Hf2 by (unfold is_failure in *; now rewrite <- He).
    split.
    + unfold is_failure in Hf. destruct (exit r1) eqn:E; [| discriminate |].
      * destruct (api_error_report env remote _ c E)
          as [_ [_ [_ [_ [_ [_ [_ [_ [_ [_ H]]]]]]]]]].
        exact H.
      * destruct (catch_report env remote _ c E) as [_ [_ [_ [_ H]]]]. exact H.
    + unfold is_failure in Hf2. destruct (exit r2) eqn:E; [| discriminate |].
      * destruct (api_error_report env remote _ c E)
          as [_ [_ [_ [_ [_ [_ [_ [_ [_ [_ H]]]]]]]]]].
        exact H.
      * destruct (catch_report env remote _ c E) as [_ [_ [_ [_ H]]]]. exact H.
  - intros query result fields plan -> Hr Hd Hp Ha.
    subst r1.
    pose proof (data_passes_guard env remote _ (call_planner query) result _ Hr Hd eq_refl) as H.
    rewrite (instructions_planner _ _ _ Hd), Hp in H.
    rewrite dedent_of_string in H. destruct H as [Hexit Htext].
    split; [exact Hexit|]. rewrite Htext.
    now apply planner_success_text.
Qed.

(** ** C10 *)

(** C10, counterexample: the remote puts the secret in its error message;
    the report given to the caller contains the secret. *)
Lemma C10_report_repeats_echoed_secret :
  let reply := JsonResolves (JObject [("success", JBool false);
                                      ("error", JString "invalid secret: hunter2")]) in
  let run := planner_tool sample_env (always reply) sample_clock "build a login form" in
  SECRET sample_env = "hunter2"
  /\ includes (report_text run) (SECRET sample_env) = true.
Proof. vm_compute. repeat split. Qed.

(** C10, as amended: a handler uses the secret in one place, the [secret]
    field that ends the body of the request it sends; the address, the
    method and the headers of the request are made without it.  What the
    handler returns and logs is determined by the reply of the remote and
    by the clock: two configurations, whatever their secrets, that meet the
    same reply return the same report.  The text of a report can still hold
    the characters of the secret when the reply itself brings them. *)
Theorem C10_secret_only_in_request_body (env1 env2 : Env) (remote1 remote2 : Remote)
    (clock : Clock) (c : tool_call) :
  let r1 := handler env1 remote1 clock c in
  let r2 := handler env2 remote2 clock c in
  url (sent r1) = SERVER_URL env1 ++ endpoint c
  /\ method (sent r1) = "POST"
  /\ headers (sent r1) = json_headers
  /\ body (sent r1)
     = stringify (JObject (payload clock c ++ [("secret", JString (SECRET env1))])%list)
  /\ (remote1 (sent r1) = remote2 (sent r2) ->
      exit r1 = exit r2 /\ logged r1 = logged r2 /\ returned r1 = returned r2).
Proof.
  intros r1 r2. subst r1 r2. rewrite !request_sent. do 4 (split; [reflexivity|]).
  intros Hr. rewrite !handler_stage. now apply stage_reply_only.
Qed.

(** ** The scenarios of the specification *)

(** Scenario 1: the plan comes back and is reported. *)
Example scenario_1 :
  let result := JObject [("success", JBool true);
                         ("data", JObject [("plan", JString "1. Add a login form")])] in
  let run := planner_tool sample_env (always (JsonResolves result)) sample_clock
               "build a login form" in
  exit run = InstructionsReturn
  /\ includes (report_text run) "1. Add a login form" = true.
Proof. vm_compute. repeat split. Qed.

(** Scenario 4: the connection is refused. *)
Example scenario_4 :
  let run := merger_tool sample_env
               (always (FetchRejects (ErrorObject "connect ECONNREFUSED 127.0.0.1:3000")))
               sample_clock (node (JString "Grid") (JString "Users") JNull (JArray [])) in
  exit run = CatchReturn
  /\ error_kind run = Some TransportFault
  /\ includes (report_text run) "connect ECONNREFUSED 127.0.0.1:3000" = true
  /\ includes (report_text run) "Generated Code" = false.
Proof. vm_compute. repeat split. Qed.

(** The indentation of an interpolated plan is not kept: [dedent] strips
    the template and the plan together. *)
Example dedent_changes_indented_plan :
  let plan := "- Grid" ++ NL ++ "  - Column" in
  let result := JObject [("success", JBool true);
                         ("data", JObject [("plan", JString plan)])] in
  let run := planner_tool sample_env (always (JsonResolves result)) sample_clock
               "build a page" in
  exit run = InstructionsReturn
  /\ includes (report_text run) plan = false
  /\ includes (report_text run) ("- Grid" ++ NL ++ "- Column") = true.
Proof. vm_compute. repeat split. Qed.

(** A line feed inside a string of the tree is written [\n] by
    [JSON.stringify] and turned back into a line feed by [dedent]. *)
Example dedent_changes_escaped_line_feed :
  let structure := node (JString "Grid") (JString ("Users" ++ NL ++ "by name")) JNull
                     (JArray []) in
  let result := JObject [("success", JBool true);
                         ("data", JObject [("structure", structure)])] in
  let run := structure_tool sample_env (always (JsonResolves result)) sample_clock
               "1. Add a Grid" "build a page" in
  includes (interpolated (stringify2 structure)) "Users\nby name" = true
  /\ exit run = InstructionsReturn
  /\ includes (report_text run) "Users\nby name" = false
  /\ includes (report_text run) ("Users" ++ NL ++ "by name") = true.
Proof. vm_compute. repeat split. Qed.

(** An [error] that cannot be converted to a string: an object with an own
    [toString] key.  The guard holds, [dedent] throws while the API-error
    report is written, and the [catch] clause reports the [TypeError]. *)
Example unconvertible_error_is_caught :
  let result := JObject [("success", JBool false);
                         ("error", JObject [("toString", JNumber "1")])] in
  let run := planner_tool sample_env (always (JsonResolves result)) sample_clock
               "build a page" in
  no_success_no_data result = Normal true
  /\ exit run = CatchReturn
  /\ logged run = [not_primitive]
  /\ includes (report_text run) "Cannot convert object to primitive value" = true.
Proof. vm_compute. repeat split. Qed.

(** The same for a plan: [planner_tool] interpolates [result.data.plan] as
    it is. *)
Example unconvertible_plan_is_caught :
  let result := JObject [("success", JBool true);
                         ("data", JObject [("plan", JArray [JObject [("toString", JNull)]])])] in
  let run := planner_tool sample_env (always (JsonResolves result)) sample_clock
               "build a page" in
  exit run = CatchReturn /\ logged run = [not_primitive].
Proof. vm_compute. repeat split. Qed.

(** An object without that key is written [[object Object]]. *)
Example object_error_is_reported :
  let result := JObject [("success", JBool false);
                         ("error", JObject [("code", JNumber "429")])] in
  let run := planner_tool sample_env (always (JsonResolves result)) sample_clock
               "build a page" in
  exit run = ApiErrorReturn /\ includes (report_text run) "[object Object]" = true.
Proof. vm_compute. repeat split. Qed.

(* ===================================================================== *)
(** * Further properties of the code *)
(* ===================================================================== *)

Import Legacy Shapes.

(** ** The ACT schema: what it returns and what it reports *)

(** Induction on a value that reaches the elements of an array [children]. *)
Lemma children_ind (P : value -> Prop) :
  (forall v,
     (forall fields items, v = JObject fields ->
        field "children" fields = JArray items -> Forall P items) -> P v) ->
  forall v, P v.
Proof.
  intros step v.
  enough (P v /\ (forall items, v = JArray items -> Forall P items)) as [H _] by exact H.
  induction v as [| |b|r|s|items IH|fields IH] using value_ind';
    try (split; [apply step; discriminate | discriminate]).
  - split; [apply step; discriminate|]. intros items' [= <-].
    eapply List.Forall_impl; [|exact IH]. intros y [Hy _]. exact Hy.
  - split; [|discriminate]. apply step. intros fields' items [= <-] Hch.
    unfold field in Hch. destruct (lookup "children" fields) as [x|] eqn:Ex; [|discriminate].
    subst x. apply lookup_In in Ex. rewrite List.Forall_forall in IH.
    destruct (IH _ Ex) as [_ Hitems]. exact (Hitems items eq_refl).
Qed.

Lemma merge_array_all_valid (parsed : list (result value)) (xs : list value) :
  merge_array parsed = Valid xs -> parsed = map Valid xs.
Proof.
  revert xs. induction parsed as [|r rest IH]; intros xs; cbn [merge_array].
  - now intros [= <-].
  - destruct r as [x|ix]; [|discriminate].
    destruct (merge_array rest) as [ys|iy]; [|discriminate].
    intros [= <-]. cbn [map]. now rewrite (IH ys eq_refl).
Qed.

Lemma merge_array_map_Valid (xs : list value) : merge_array (map Valid xs) = Valid xs.
Proof. induction xs as [|x xs IH]; [reflexivity|]. cbn [map merge_array]. now rewrite IH. Qed.

Lemma merge_array_issues (parsed : list (result value)) :
  issues_of (merge_array parsed) = concat (map issues_of parsed).
Proof.
  induction parsed as [|r rest IH]; [reflexivity|].
  cbn [merge_array map concat]. rewrite <- IH.
  destruct r as [x|ix], (merge_array rest) as [ys|iy]; reflexivity.
Qed.

Lemma merge_object_issues (parsed : list (string * result value)) :
  issues_of (merge_object parsed) = concat (map (fun kr => issues_of (snd kr)) parsed).
Proof.
  induction parsed as [|[k r] rest IH]; [reflexivity|].
  cbn [merge_object map concat snd]. rewrite <- IH.
  destruct r as [x|ix], (merge_object rest) as [ys|iy]; reflexivity.
Qed.

Lemma map_result_issues {A B} (f : A -> B) (r : result A) :
  issues_of (map_result f r) = issues_of r.
Proof. destruct r; reflexivity. Qed.

(** What an accepted [children] is, and what is returned for it. *)
Lemma parse_children_accepts (path : list path_elem) (x ch : value) :
  parse_children path x = Valid ch ->
  (exists s, x = JString s /\ ch = JString s)
  \/ (exists items outs, x = JArray items /\ ch = JArray outs
                         /\ parse_items path 0 items = map Valid outs).
Proof.
  unfold parse_children. destruct x as [| | | |s|items|]; cbn; try discriminate.
  - intros [= <-]. left. now exists s.
  - destruct (merge_array (parse_items path 0 items)) as [outs|iss] eqn:E; cbn;
      [|discriminate].
    intros [= <-]. right. exists items, outs. apply merge_array_all_valid in E. auto.
Qed.

(** What an accepted object is, and what is returned for it. *)
Lemma ACTComponentSchema_accepts (path : list path_elem) (fields : list (string * value))
    (out : value) :
  ACTComponentSchema path (JObject fields) = Valid out ->
  exists c d q ch,
    field "component" fields = JString c /\ field "description" fields = JString d
    /\ field "mcpQuery" fields = q /\ is_nullable_string q = true
    /\ parse_children (path ++ [Key "children"]) (field "children" fields) = Valid ch
    /\ out = node (JString c) (JString d) q ch.
Proof.
  rewrite ACTComponentSchema_object.
  destruct (field "component" fields) as [| | | |c| |]; try discriminate.
  destruct (field "description" fields) as [| | | |d| |]; try discriminate.
  destruct (parse_children _ _) as [ch|iss] eqn:Ech.
  - destruct (field "mcpQuery" fields) as [| | | |q| |] eqn:Eq; try discriminate;
      cbn; intros [= <-]; exists c, d; eexists; exists ch; repeat split.
  - destruct (field "mcpQuery" fields) as [| | | |q| |]; discriminate.
Qed.

Lemma output_normalized (v : value) :
  forall path out, ACTComponentSchema path v = Valid out -> normalized out = true.
Proof.
  induction v as [v IH] using children_ind. intros path out.
  destruct v as [| | | | | |fields]; try discriminate.
  intros H. apply ACTComponentSchema_accepts in H as [c [d [q [ch [_ [_ [_ [Hq [Hch ->]]]]]]]]].
  apply parse_children_accepts in Hch as [[s [_ ->]] | [items [outs [Hx [-> Hitems]]]]].
  - destruct q; try discriminate; reflexivity.
  - assert (forallb normalized outs = true) as Houts.
    { specialize (IH fields items eq_refl Hx). revert Hitems. generalize 0.
      clear Hx. revert outs.
      induction IH as [|y ys Hy _ IHys]; intros outs i; cbn [parse_items].
      - destruct outs; [reflexivity | discriminate].
      - destruct outs as [|o outs]; [discriminate|]. cbn [map forallb].
        intros [= Ho Hrest]. rewrite (Hy _ _ Ho). exact (IHys _ _ Hrest). }
    destruct q; try discriminate; cbn; now rewrite Houts.
Qed.

Lemma normalized_fixed (v : value) :
  normalized v = true -> forall path, ACTComponentSchema path v = Valid v.
Proof.
  induction v as [v IH] using children_ind. intros Hn path.
  destruct v as [| | | | | |fields]; try discriminate.
  destruct fields as [|[k1 [| | | |c| |]] [|[k2 [| | | |d| |]] [|[k3 q] [|[k4 ch] [|]]]]];
    try discriminate.
  cbn [normalized] in Hn. rewrite !andb_true_iff in Hn.
  destruct Hn as [[[[[H1 H2] H3] H4] Hq] Hch].
  apply String.eqb_eq in H1, H2, H3, H4. subst k1 k2 k3 k4.
  rewrite ACTComponentSchema_object. cbn [field lookup String.eqb Ascii.eqb Bool.eqb].
  cbn [zstring].
  assert (parse_children (path ++ [Key "children"]) ch = Valid ch) as ->.
  { destruct ch as [| | | |s|items|]; try discriminate; [reflexivity|].
    unfold parse_children.
    assert (parse_items (path ++ [Key "children"]) 0 items = map Valid items) as ->.
    { specialize (IH _ items eq_refl eq_refl). generalize 0.
      induction IH as [|y ys Hy _ IHys]; intros i; [reflexivity|].
      cbn [forallb] in Hch. apply andb_true_iff in Hch as [Hny Hnys].
      cbn [parse_items map]. rewrite (Hy Hny), (IHys Hnys). reflexivity. }
    now rewrite merge_array_map_Valid. }
  destruct q; try discriminate; reflexivity.
Qed.

Lemma lookup_skip (k' k : string) (v : value) (pre post : list (string * value)) :
  k' <> k -> lookup k' (pre ++ (k, v) :: post)%list = lookup k' (pre ++ post)%list.
Proof.
  intros Hne. induction pre as [|[a x] pre IH]; cbn [app lookup].
  - destruct (String.eqb_spec k' k); [contradiction | reflexivity].
  - now rewrite IH.
Qed.

Lemma zstring_issues (path : list path_elem) (x : value) :
  length (issues_of (zstring path x)) = if is_string x then 0 else 1.
Proof. destruct x; reflexivity. Qed.

Lemma znullable_issues (path : list path_elem) (x : value) :
  length (issues_of (znullable zstring path x)) = if is_nullable_string x then 0 else 1.
Proof. destruct x; reflexivity. Qed.

Lemma parse_children_issues (path : list path_elem) (x : value) :
  length (issues_of (parse_children path x)) = if children_accepted x then 0 else 1.
Proof.
  rewrite <- (children_accepted_spec path). unfold parse_children.
  destruct x as [| | | |s|items|]; try reflexivity.
  destruct (merge_array _); reflexivity.
Qed.

Lemma is_prefix_app (p q : list path_elem) : is_prefix p (p ++ q)%list = true.
Proof.
  induction p as [|[k|i] p IH]; [reflexivity| |]; cbn [app is_prefix]; rewrite IH.
  - now rewrite String.eqb_refl.
  - now rewrite Nat.eqb_refl.
Qed.

Lemma is_prefix_refl (p : list path_elem) : is_prefix p p = true.
Proof. rewrite <- (app_nil_r p) at 2. apply is_prefix_app. Qed.

Lemma is_prefix_trans (p q r : list path_elem) :
  is_prefix p q = true -> is_prefix q r = true -> is_prefix p r = true.
Proof.
  revert q r. induction p as [|a p IH]; intros q r; [reflexivity|].
  destruct q as [|b q]; [discriminate|]. destruct r as [|c r]; [destruct b; discriminate|].
  cbn [is_prefix].
  destruct a as [k|i], b as [k'|i'], c as [k''|i'']; try discriminate;
    rewrite !andb_true_iff; intros [Hab Hpq] [Hbc Hqr];
    (split; [|exact (IH _ _ Hpq Hqr)]).
  - apply String.eqb_eq in Hab, Hbc. subst. apply String.eqb_refl.
  - apply Nat.eqb_eq in Hab, Hbc. subst. apply Nat.eqb_refl.
Qed.

Lemma located_under_weaken (p p' : list path_elem) (i : issue) :
  is_prefix p p' = true -> located_under p' i = true -> located_under p i = true.
Proof.
  intros Hp. induction i as [path e r|path n|path errs IH] using issue_ind';
    cbn [located_under issue_path]; rewrite !andb_true_iff.
  - intros [H _]. split; [exact (is_prefix_trans _ _ _ Hp H) | reflexivity].
  - intros [H _]. split; [exact (is_prefix_trans _ _ _ Hp H) | reflexivity].
  - intros [H Hall]. split; [exact (is_prefix_trans _ _ _ Hp H)|].
    clear H. induction IH as [|l ls Hl _ IHls]; [reflexivity|].
    cbn [forallb] in *. apply andb_true_iff in Hall as [Hl' Hls'].
    rewrite (IHls Hls'), andb_true_r. clear IHls Hls'.
    induction Hl as [|x xs Hx _ IHxs]; [reflexivity|].
    cbn [forallb] in *. apply andb_true_iff in Hl' as [Hx' Hxs'].
    now rewrite (Hx Hx'), (IHxs Hxs').
Qed.

Lemma forallb_concat {A} (f : A -> bool) (ls : list (list A)) :
  forallb f (concat ls) = forallb (forallb f) ls.
Proof.
  induction ls as [|l ls IH]; [reflexivity|].
  cbn [concat forallb]. now rewrite forallb_app, IH.
Qed.

Lemma at_key_prefix (path : list path_elem) (k : string) :
  is_prefix path (path ++ [Key k])%list = true.
Proof. apply is_prefix_app. Qed.


(** ** [src/types.ts]: the schema as a normalising validator *)

(** X1: what [ACTComponentSchema] returns for an accepted value is an
    object with exactly the four keys of the shape, in the order of the
    shape, and so are, recursively, the elements of an array [children]:
    every other key of the input is stripped at every depth. *)
Theorem accepted_data_normal_form (path : list path_elem) (input out : value) :
  ACTComponentSchema path input = Valid out -> normalized out = true.
Proof. apply output_normalized. Qed.

(** Witness: a toolbar with a [props] key, its fields out of order, and a button with an [id] key: both keys are gone from the data, and the fields are in the order of the shape. *)
Lemma accepted_data_normal_form_witness :
  let input := JObject [("props", JObject [("primary", JBool true)]);
                        ("children", JArray [JObject [("children", JString "Save");
                                                      ("id", JNumber "7");
                                                      ("mcpQuery", JString "button");
                                                      ("description", JString "Saves");
                                                      ("component", JString "Button")]]);
                        ("component", JString "Toolbar");
                        ("description", JString "Actions");
                        ("mcpQuery", JNull)] in
  let out := node (JString "Toolbar") (JString "Actions") JNull
               (JArray [node (JString "Button") (JString "Saves") (JString "button")
                          (JString "Save")]) in
  validate input = Valid out /\ normalized out = true.
Proof.
  intros input out. split; [reflexivity|].
  exact (accepted_data_normal_form [] input out eq_refl).
Defined.

(** X2: validation is idempotent.  The data returned for an accepted value
    is accepted again, at any path, and returned unchanged. *)
Theorem validation_idempotent (path path' : list path_elem) (input out : value) :
  ACTComponentSchema path input = Valid out ->
  ACTComponentSchema path' out = Valid out.
Proof. intros H. apply normalized_fixed. exact (output_normalized _ _ _ H). Qed.

(** Witness: a grid with a key outside the shape; the data returned for it is accepted again as the [actStructure] of [merger_tool]. *)
Lemma validation_idempotent_witness :
  let input := JObject [("children", JArray []); ("extra", JNull);
                        ("component", JString "Grid"); ("description", JString "Users");
                        ("mcpQuery", JNull)] in
  let out := node (JString "Grid") (JString "Users") JNull (JArray []) in
  validate input = Valid out
  /\ ACTComponentSchema [Key "actStructure"] out = Valid out.
Proof.
  intros input out. split; [reflexivity|].
  exact (validation_idempotent [] [Key "actStructure"] input out eq_refl).
Defined.

(** X3: the schema does not stop at the first bad field.  For an object it
    reports one issue for each of the four fields it rejects (a rejected
    [children] is one [invalid_union] issue, whatever is wrong inside);
    anything that is not an object gets a single issue. *)
Theorem every_rejected_field_reported (path : list path_elem) (input : value) :
  length (issues_of (ACTComponentSchema path input))
  = match input with
    | JObject fields => rejected_fields fields
    | _ => 1
    end.
Proof.
  destruct input as [| | | | | |fields]; try reflexivity.
  rewrite ACTComponentSchema_object, map_result_issues, merge_object_issues.
  cbn [map concat snd]. rewrite !length_app, !zstring_issues, znullable_issues,
    parse_children_issues.
  unfold rejected_fields. cbn [length]. lia.
Qed.

(** X4: every issue the schema reports for a value parsed at [path], the
    issues nested in a failed union included, is located at [path] or below
    it: the issues of the element [i] of [children] never point outside of
    that element. *)
Theorem issues_located_under_path (path : list path_elem) (input : value) :
  forallb (located_under path) (issues_of (ACTComponentSchema path input)) = true.
Proof.
  revert path. induction input as [v IH] using children_ind. intros path.
  destruct v as [| | | | | |fields];
    try (cbn; now rewrite is_prefix_refl).
  rewrite ACTComponentSchema_object, map_result_issues, merge_object_issues.
  cbn [map concat snd]. rewrite !forallb_app.
  change (forallb (located_under path) []) with true. rewrite andb_true_r.
  assert (forall k x, forallb (located_under path) (issues_of (zstring (path ++ [Key k]) x))
                      = true) as Hz.
  { intros k x. destruct x; cbn; now rewrite ?at_key_prefix. }
  rewrite !Hz. cbn [andb].
  apply andb_true_iff. split.
  { destruct (field "mcpQuery" fields); cbn; now rewrite ?at_key_prefix. }
  set (cp := (path ++ [Key "children"])%list).
  assert (is_prefix path cp = true) as Hcp by apply at_key_prefix.
  unfold parse_children.
  destruct (field "children" fields) as [| | | |s|items|] eqn:Ex;
    try (cbn; now rewrite ?Hcp).
  assert (forall i, forallb (forallb (located_under path))
                      (map issues_of (parse_items cp i items)) = true) as Hall.
  { specialize (IH fields items eq_refl Ex). clear Ex.
    induction IH as [|y ys Hy _ IHys]; intros i; [reflexivity|].
    cbn [parse_items map forallb]. rewrite (IHys (S i)), andb_true_r.
    specialize (Hy (cp ++ [Index i])%list).
    rewrite forallb_forall in Hy |- *. intros x Hx.
    apply (located_under_weaken path (cp ++ [Index i])%list).
    - unfold cp. rewrite <- app_assoc. apply is_prefix_app.
    - now apply Hy. }
  cbn [zstring getParsedType].
  destruct (merge_array (parse_items cp 0 items)) as [outs|iss] eqn:Em; [reflexivity|].
  assert (iss = issues_of (merge_array (parse_items cp 0 items))) as -> by now rewrite Em.
  rewrite merge_array_issues. cbn. rewrite !Hcp, forallb_concat, Hall. reflexivity.
Qed.

(** The issues of a tree whose third child has a first child without
    [description]: one [invalid_union] issue at [children], and in its
    first option the issue of the missing field, at
    [children[2].children[0].description]. *)
Example nested_issue_path :
  let leaf := node (JString "Button") (JString "Saves") JNull (JString "Save") in
  let bad := JObject [("component", JString "Input"); ("mcpQuery", JNull);
                      ("children", JString EmptyString)] in
  let inner := node (JString "Form") (JString "Editor") JNull (JArray [bad]) in
  let root := node (JString "Panel") (JString "Page") JNull (JArray [leaf; leaf; inner]) in
  let deep := [Key "children"; Index 2; Key "children"; Index 0; Key "description"] in
  validate root
  = Invalid
      [invalid_union [Key "children"]
         [[invalid_union [Key "children"; Index 2; Key "children"]
             [[invalid_type deep t_string t_undefined];
              [invalid_type [Key "children"; Index 2; Key "children"] t_string t_array]]];
          [invalid_type [Key "children"] t_string t_array]]].
Proof. reflexivity. Qed.

(** X5: a key that is not in the shape never changes the result, wherever
    it stands among the fields: it is neither reported nor returned. *)
Theorem unknown_key_ignored (path : list path_elem) (pre post : list (string * value))
    (k : string) (v : value) :
  in_shape k = false ->
  ACTComponentSchema path (JObject (pre ++ (k, v) :: post))
  = ACTComponentSchema path (JObject (pre ++ post)).
Proof.
  intros Hk. unfold in_shape, shape_keys in Hk. cbn [existsb] in Hk.
  rewrite !orb_false_iff in Hk. destruct Hk as [H1 [H2 [H3 [H4 _]]]].
  apply String.eqb_neq in H1, H2, H3, H4.
  rewrite !ACTComponentSchema_object. unfold field.
  rewrite !(lookup_skip _ k v pre post) by congruence. reflexivity.
Qed.

(** Witness: [className] between [component] and [description]. *)
Lemma unknown_key_ignored_witness :
  let pre := [("component", JString "Grid")] in
  let post := [("description", JString "Users"); ("mcpQuery", JNull);
               ("children", JString "rows")] in
  in_shape "className" = false
  /\ validate (JObject (pre ++ ("className", JString "wide") :: post))
     = validate (JObject (pre ++ post)).
Proof.
  intros pre post. split; [reflexivity|].
  exact (unknown_key_ignored [] pre post "className" (JString "wide") eq_refl).
Defined.

(** ** [src/server.ts]: the input schema of [merger_tool] and its request *)

(** X6: what [merger_tool] sends is the parsed tree, not the tree it was
    called with.  A call reaches the handler only with a tree its input
    schema accepts, and the [actStructure] of the request body is the data
    the schema returned: an object of the shape, every other key of the
    caller's tree stripped at every depth. *)
Theorem merger_sends_parsed_tree (env : Env) (server : McpServer) (remote : Remote)
    (clock : Clock) (input : value) (run : Run) :
  invoke (Serving env server) remote clock (call_merger input) = Handled run ->
  exists actStructure,
    ACTComponentSchema [Key "actStructure"] input = Valid actStructure
    /\ normalized actStructure = true
    /\ body (sent run)
       = stringify (JObject [("actStructure", actStructure);
                             ("secret", JString (SECRET env))]).
Proof.
  cbn [invoke].
  destruct (ACTComponentSchema [Key "actStructure"] input) as [a|issues] eqn:E;
    [|discriminate].
  intros [= <-]. exists a. split; [reflexivity|].
  split; [exact (output_normalized _ _ _ E)|].
  change (merger_tool env remote clock a) with (handler env remote clock (call_merger a)).
  now rewrite request_sent.
Qed.

(** Witness: a grid called with a [props] key; the request carries the grid without it. *)
Lemma merger_sends_parsed_tree_witness :
  let input := JObject [("component", JString "Grid"); ("description", JString "Users");
                        ("mcpQuery", JNull); ("children", JArray []);
                        ("props", JObject [("pageSize", JNumber "20")])] in
  let server := {| name := "kendoai-mcp"; version := "1.0.0"; tools := [] |} in
  let remote := always (FetchRejects (ErrorObject "connect ECONNREFUSED")) in
  let run := merger_tool sample_env remote sample_clock
               (node (JString "Grid") (JString "Users") JNull (JArray [])) in
  exists actStructure,
    ACTComponentSchema [Key "actStructure"] input = Valid actStructure
    /\ normalized actStructure = true
    /\ body (sent run)
       = stringify (JObject [("actStructure", actStructure);
                             ("secret", JString (SECRET sample_env))]).
Proof.
  intros input server remote run.
  exact (merger_sends_parsed_tree sample_env server remote sample_clock input run eq_refl).
Defined.

(** ** [src/env.ts]: the configuration *)

Lemma zstring_min_env (process_env : gmap string string) (name : string) :
  zstring_min 1 [Key name] (env_var process_env name)
  = match process_env !! name with
    | Some s => if is_empty s then Invalid [too_small [Key name] 1] else Valid (JString s)
    | None => Invalid [invalid_type [Key name] t_string t_undefined]
    end.
Proof.
  unfold env_var. destruct (process_env !! name) as [s|]; [|reflexivity].
  destruct s; reflexivity.
Qed.

(** X7: the configuration is accepted exactly when both variables are set
    and non-empty, and the two values are taken as they are: nothing is
    trimmed, so a value made of blanks is accepted. *)
Theorem configuration_accepted_iff (process_env : gmap string string) (env : Env) :
  envSchema process_env = Valid env <->
  process_env !! "SECRET" = Some (SECRET env) /\ SECRET env <> EmptyString
  /\ process_env !! "SERVER_URL" = Some (SERVER_URL env) /\ SERVER_URL env <> EmptyString.
Proof.
  split; [apply envSchema_valid|].
  intros [Hs [Hsne [Hu Hune]]]. unfold envSchema. rewrite !zstring_min_env, Hs, Hu.
  destruct env as [secret server_url]. cbn in *.
  destruct secret; [congruence|]. destruct server_url; [congruence|]. reflexivity.
Qed.

(** X8: the issues of a rejected configuration: one for each variable
    that is missing ([invalid_type]) or empty ([too_small]), [SECRET]
    first; both variables are always checked. *)
Theorem configuration_issues (process_env : gmap string string) :
  issues_of (envSchema process_env)
  = (variable_issues process_env "SECRET" ++ variable_issues process_env "SERVER_URL")%list.
Proof.
  unfold envSchema, variable_issues. rewrite !zstring_min_env.
  destruct (process_env !! "SECRET") as [[|a s]|];
    destruct (process_env !! "SERVER_URL") as [[|b u]|]; reflexivity.
Qed.

(** X9: no other variable of the environment matters: setting or
    unsetting it changes neither the verdict nor the parsed values. *)
Theorem other_variables_ignored (process_env : gmap string string) (name value : string) :
  name <> "SECRET" -> name <> "SERVER_URL" ->
  envSchema (<[name := value]> process_env) = envSchema process_env
  /\ envSchema (delete name process_env) = envSchema process_env.
Proof.
  intros H1 H2. unfold envSchema. rewrite !zstring_min_env.
  rewrite !lookup_insert_ne, !lookup_delete_ne by congruence. auto.
Qed.

(** Witness: [PATH] next to a complete configuration. *)
Lemma other_variables_ignored_witness :
  let process_env : gmap string string :=
    <["SECRET" := "hunter2"]> (<["SERVER_URL" := "http://localhost:3000"]> ∅) in
  envSchema (<["PATH" := "/usr/bin"]> process_env) = envSchema process_env
  /\ envSchema (delete "PATH" process_env) = envSchema process_env.
Proof.
  intros process_env.
  apply (other_variables_ignored process_env "PATH" "/usr/bin"); discriminate.
Defined.

(** ** [dedent]: the first and the last line of the result *)

Lemma trim_start_all_space (s : string) :
  all_chars is_space s = true -> trim_start s = EmptyString.
Proof.
  induction s as [|c s IH]; [reflexivity|]. simpl.
  rewrite andb_true_iff. intros [-> Hs]. exact (IH Hs).
Qed.

Lemma trim_end_all_space (s : string) :
  all_chars is_space s = true -> trim_end s = EmptyString.
Proof.
  induction s as [|c s IH]; [reflexivity|]. simpl.
  rewrite andb_true_iff. intros [Hc Hs]. now rewrite (IH Hs), Hc.
Qed.

Lemma blank_all_space (s : string) :
  all_chars is_blank s = true -> all_chars is_space s = true.
Proof. apply all_chars_impl, blank_is_space. Qed.

Lemma strip_line_all_blank (m : nat) (y : string) :
  all_chars is_blank y = true -> all_chars is_blank (strip_line m y) = true.
Proof.
  intros Hy. unfold strip_line. destruct y as [|c y]; [reflexivity|].
  destruct (is_blank c); [now apply drop_all_chars | exact Hy].
Qed.

Lemma ends_with_spec (p a : string) : ends_with p (a ++ p) = true.
Proof.
  unfold ends_with. rewrite append_length.
  replace (String.length a + String.length p - String.length p) with (String.length a) by lia.
  rewrite drop_app by lia.
  assert (Dedent.drop (String.length a) a = EmptyString) as ->.
  { induction a as [|c a IH]; [reflexivity | exact IH]. }
  apply String.eqb_refl.
Qed.

(** Two strings that start the same string: one starts the other. *)
Lemma starts_with_comparable (a b s : string) :
  starts_with a s = true -> starts_with b s = true ->
  starts_with a b = true \/ starts_with b a = true.
Proof.
  revert b s. induction a as [|x a IH]; intros b s; [now left|].
  destruct b as [|y b]; [now right|]. destruct s as [|z s]; [discriminate|].
  simpl. rewrite !andb_true_iff. intros [Hx Ha] [Hy Hb].
  apply Ascii.eqb_eq in Hx, Hy. subst y z. rewrite Ascii.eqb_refl.
  destruct (IH _ _ Ha Hb); auto.
Qed.

(** The text [finish] trims, when the interpolated text has a line made of
    blanks, [h] and blanks: the line is still there, after blanks; nothing
    stands before it when nothing did, and only blanks follow it when only
    blanks did. *)
Lemma finish_line_form (x y ind h w : string) :
  all_chars is_blank ind = true -> anchored h = true -> all_chars is_blank w = true ->
  exists x' ind' y',
    all_chars is_blank ind' = true
    /\ finish (x ++ NL ++ ind ++ h ++ w ++ NL ++ y)
       = replace_escaped "n" NL (trim (x' ++ NL ++ ind' ++ h ++ w ++ NL ++ y'))
    /\ (x = EmptyString -> x' = EmptyString)
    /\ (all_chars is_blank y = true -> all_chars is_blank y' = true).
Proof.
  intros Hind Hh Hw. pose proof (anchored_parts h Hh) as [Hclean [Hstart Hend]].
  pose proof (starts_nonspace_app h w Hstart) as Hstart'.
  unfold finish.
  assert (split_lines (x ++ NL ++ ind ++ h ++ w ++ NL ++ y)
          = (split_lines x ++ (ind ++ h ++ w)%string :: split_lines y)%list) as Hlines.
  { rewrite NL_app, split_lines_app_LF.
    assert (ind ++ h ++ w ++ NL ++ y = (ind ++ h ++ w) ++ String LF y) as ->
      by now rewrite !append_assoc.
    rewrite split_lines_app_LF.
    rewrite (split_lines_single (ind ++ h ++ w)); [reflexivity|].
    rewrite !all_chars_app, (blank_no_LF ind), (blank_no_LF w), (clean_no_LF h)
      by assumption.
    reflexivity. }
  rewrite Hlines.
  destruct (mindent_of _) as [m|] eqn:Hm.
  - rewrite map_app. cbn [map].
    rewrite join_lines_mid.
    2:{ intros E. apply map_eq_nil in E. now apply split_lines_nonempty in E. }
    2:{ intros E. apply map_eq_nil in E. now apply split_lines_nonempty in E. }
    destruct (strip_line_blank_app m ind (h ++ w) Hind Hstart') as [ind' [Hind' ->]].
    { intros Hne. unfold mindent_of in Hm.
      destruct (mindent_fold_bound
                  (split_lines x ++ (ind ++ h ++ w)%string :: split_lines y)%list None
                  (ind ++ h ++ w) (String.length ind)) as [m' [Hm' Hle]].
      - discriminate.
      - apply in_or_app. right. now left.
      - now apply indent_of_blank_app.
      - rewrite Hm in Hm'. injection Hm' as <-. lia. }
    exists (join_lines (map (strip_line m) (split_lines x))), ind',
           (join_lines (map (strip_line m) (split_lines y))).
    split; [exact Hind'|]. split; [now rewrite !append_assoc|]. split.
    + intros ->. reflexivity.
    + intros Hy. rewrite (split_lines_single y) by now apply blank_no_LF.
      now apply strip_line_all_blank.
  - exists x, ind, y. auto.
Qed.

(** The first line of the template is the first line of the result. *)
Lemma first_line_kept (y ind h w : string) :
  all_chars is_blank ind = true -> anchored h = true -> all_chars is_blank w = true ->
  starts_with h (finish (NL ++ ind ++ h ++ w ++ NL ++ y)) = true.
Proof.
  intros Hind Hh Hw.
  destruct (finish_line_form EmptyString y ind h w Hind Hh Hw)
    as [x' [ind' [y' [Hind' [Heq [Hx _]]]]]].
  rewrite (Hx eq_refl) in Heq.
  change (finish (NL ++ ind ++ h ++ w ++ NL ++ y)
          = replace_escaped "n" NL (trim ((NL ++ ind') ++ h ++ w ++ NL ++ y'))) in Heq.
  apply anchored_parts in Hh as [Hclean [Hstart Hend]].
  rewrite Heq. apply starts_with_spec. unfold trim.
  rewrite trim_start_app by (destruct h; [discriminate | exact Hstart]).
  rewrite trim_start_all_space.
  2:{ rewrite all_chars_app. apply andb_true_iff. split; [reflexivity|].
      now apply blank_all_space. }
  cbn [String.append]. rewrite trim_end_app by exact Hend.
  rewrite replace_escaped_app_plain by now apply clean_no_backslash.
  eexists. reflexivity.
Qed.

(** A line followed by blanks only is the last line of the result. *)
Lemma last_line_kept (x y ind h : string) :
  all_chars is_blank ind = true -> anchored h = true -> all_chars is_blank y = true ->
  ends_with h (finish (x ++ NL ++ ind ++ h ++ NL ++ y)) = true.
Proof.
  intros Hind Hh Hy.
  destruct (finish_line_form x y ind h EmptyString Hind Hh eq_refl)
    as [x' [ind' [y' [Hind' [Heq [_ Hy']]]]]].
  specialize (Hy' Hy).
  apply anchored_parts in Hh as [Hclean [Hstart Hend]].
  change (finish (x ++ NL ++ ind ++ h ++ NL ++ y)
          = replace_escaped "n" NL (trim (x' ++ NL ++ ind' ++ h ++ NL ++ y'))) in Heq.
  rewrite Heq.
  assert (x' ++ NL ++ ind' ++ h ++ NL ++ y' = (x' ++ NL ++ ind') ++ h ++ NL ++ y')
    as -> by now rewrite !append_assoc.
  set (p := x' ++ NL ++ ind').
  unfold trim. rewrite trim_start_app by (destruct h; [discriminate | exact Hstart]).
  rewrite <- append_assoc, trim_end_app by now apply ends_nonspace_app.
  rewrite trim_end_all_space.
  2:{ rewrite all_chars_app. apply andb_true_iff. split; [reflexivity|].
      now apply blank_all_space. }
  rewrite append_nil_r.
  assert (ends_ok (trim_start p) = true) as Hok.
  { apply ends_ok_trim_start. subst p. rewrite <- append_assoc.
    destruct ind' as [|c ind'].
    - rewrite append_nil_r. now apply ends_ok_space_end.
    - rewrite append_assoc. apply ends_ok_space_end; [|discriminate].
      rewrite all_chars_app. apply andb_true_iff. split; [reflexivity|].
      now apply blank_all_space. }
  destruct (replace_escaped_prefix "n" NL _ (trim_start p) h (le_n _) Hok) as [p' ->].
  assert (replace_escaped "n" NL h = h) as ->.
  { rewrite <- (append_nil_r h) at 1.
    rewrite replace_escaped_app_plain by now apply clean_no_backslash.
    apply append_nil_r. }
  apply ends_with_spec.
Qed.

(** ** The reports, by the template they are written from *)

Lemma heads_spec (h u : string) :
  heads h u = true ->
  exists ind w b, u = NL ++ ind ++ h ++ w ++ NL ++ b
                  /\ all_chars is_blank ind = true /\ all_chars is_blank w = true.
Proof.
  unfold heads. destruct (locate h u) as [[[[a ind] w] b]|] eqn:E; [|discriminate].
  destruct a; [|discriminate]. intros _. apply locate_spec in E as [-> [Hi Hw]].
  now exists ind, w, b.
Qed.

Lemma headings_ok (c : tool_call) : headings_shape c = true.
Proof. destruct c; vm_compute; reflexivity. Qed.

Lemma success_template_ok (c : tool_call) : success_template_shape c = true.
Proof. destruct c; vm_compute; reflexivity. Qed.

Lemma failure_template_end_ok (c : tool_call) :
  failure_template_end (api_error_template c) = true
  /\ failure_template_end (network_error_template c) = true.
Proof. destruct c; vm_compute; split; reflexivity. Qed.

Lemma unknown_error_anchored (c : tool_call) : anchored (unknown_error c) = true.
Proof. destruct c; vm_compute; reflexivity. Qed.

Lemma heading_first (c : tool_call) (e : exit_point) :
  match template_of c e with
  | r0 :: _ => heads (report_heading c e) (unescape r0) = true
  | [] => False
  end
  /\ anchored (report_heading c e) = true.
Proof.
  pose proof (headings_ok c) as H. unfold headings_shape in H.
  rewrite forallb_forall in H.
  assert (In e [ApiErrorReturn; InstructionsReturn; CatchReturn]) as He
    by (destruct e; cbn; tauto).
  specialize (H e He). rewrite !andb_true_iff in H. destruct H as [[H1 H2] _].
  split; [|exact H2]. destruct (template_of c e); [discriminate | exact H1].
Qed.

Lemma headings_apart (c : tool_call) (e e' : exit_point) :
  e <> e' -> starts_with (report_heading c e) (report_heading c e') = false.
Proof.
  intros Hne. pose proof (headings_ok c) as H. unfold headings_shape in H.
  rewrite forallb_forall in H.
  assert (forall x, In x [ApiErrorReturn; InstructionsReturn; CatchReturn]) as Hall
    by (intros x; destruct x; cbn; tauto).
  specialize (H e (Hall e)). rewrite !andb_true_iff in H. destruct H as [_ H].
  rewrite forallb_forall in H. specialize (H e' (Hall e')).
  destruct e, e'; try congruence; now apply negb_true_iff in H.
Qed.

(** A [dedent] template whose first line is [h] gives a text that starts
    with [h], whatever is interpolated. *)
Lemma dedent_starts_with (r0 : string) (rest texts : list string) (h : string) :
  heads h (unescape r0) = true -> anchored h = true ->
  starts_with h (dedent_strings (r0 :: rest) texts) = true.
Proof.
  intros Hh Ha. apply heads_spec in Hh as [ind [w [b [Hu [Hi Hw]]]]].
  unfold dedent_strings. cbn [interpolate_strings]. rewrite Hu.
  set (tail := match texts with [] => _ | _ :: _ => _ end).
  assert ((NL ++ ind ++ h ++ w ++ NL ++ b) ++ tail = NL ++ ind ++ h ++ w ++ NL ++ (b ++ tail))
    as -> by now rewrite !append_assoc.
  now apply first_line_kept.
Qed.

(** A failure template gives a text that ends with the time stamp. *)
Lemma dedent_ends_with_stamp (heading : string) (template : list string) (v t : string) :
  failure_template heading template = true -> failure_template_end template = true ->
  anchored (timestamp_label ++ t) = true ->
  ends_with (timestamp_label ++ t) (dedent_strings template [v; t]) = true.
Proof.
  destruct template as [|r0 [|r1 [|r2 [|]]]]; try discriminate.
  unfold failure_template, failure_template_end, hole_after, closes.
  rewrite !andb_true_iff. intros [_ Hstamp] Hend Ht.
  destruct (rcut (unescape r1)) as [[a p]|] eqn:Ea; [|discriminate].
  destruct (lcut (unescape r2)) as [y|] eqn:Ey; [|discriminate].
  destruct (span_blank p) as [ind rest] eqn:Ep. cbn [snd] in Hstamp.
  apply String.eqb_eq in Hstamp. subst rest.
  apply rcut_spec in Ea. apply strip_prefix_spec in Ey.
  apply span_blank_spec in Ep as [-> Hind].
  unfold dedent_strings. cbn [interpolate_strings]. rewrite append_nil_r, Ea, Ey.
  assert (unescape r0 ++ v ++ (a ++ NL ++ ind ++ timestamp_label) ++ t ++ NL ++ y
          = (unescape r0 ++ v ++ a) ++ NL ++ ind ++ (timestamp_label ++ t) ++ NL ++ y)
    as -> by now rewrite !append_assoc.
  now apply last_line_kept.
Qed.

(** What a [dedent] that does not throw returns. *)
Lemma dedent_one_normal (raw : list string) (v : value) (t : string) :
  dedent raw [v] = Normal t -> exists text, t = dedent_strings raw [text].
Proof.
  unfold dedent, dedent_strings. destruct raw as [|r0 raw]; cbn [interpolate JS.bind].
  - intros [= <-]. now exists EmptyString.
  - destruct (to_string v) as [text|e]; cbn [JS.bind]; [|discriminate].
    rewrite interpolate_nil. cbn [JS.bind]. intros [= <-]. now exists text.
Qed.

Lemma dedent_two_normal (raw : list string) (v : value) (s t : string) :
  dedent raw [v; JString s] = Normal t -> exists text, t = dedent_strings raw [text; s].
Proof.
  unfold dedent, dedent_strings. destruct raw as [|r0 raw]; cbn [interpolate JS.bind].
  - intros [= <-]. now exists EmptyString.
  - destruct (to_string v) as [text|e]; cbn [JS.bind]; [|discriminate].
    rewrite interpolate_string. cbn [JS.bind]. intros [= <-]. now exists text.
Qed.

Lemma instructions_text (c : tool_call) (result : value) (t : string) :
  instructions_of c result = Normal t ->
  exists text, t = dedent_strings (success_template c) [text].
Proof.
  destruct c; unfold instructions_of; unfold_monad;
    (destruct (get result "data") as [data|e]; [|discriminate]); cbn.
  - destruct (get data "plan") as [plan|e]; [|discriminate].
    apply dedent_one_normal.
  - destruct (get data "structure") as [structure|e]; [|discriminate].
    apply dedent_one_normal.
  - destruct (get data "code") as [code|e]; [|discriminate]. cbn.
    destruct (get code "mainComponent") as [main|e]; [|discriminate].
    apply dedent_one_normal.
Qed.

(** Every report is the [dedent] of the template of the return it comes
    from. *)
Lemma report_from_template (env : Env) (remote : Remote) (clock : Clock) (c : tool_call) :
  let run := handler env remote clock c in
  exists texts, report_text run = dedent_strings (template_of c (exit run)) texts.
Proof.
  cbv zeta. destruct (exit (handler env remote clock c)) eqn:E; rewrite handler_stage in *.
  - destruct (stage_api_error _ _ _ _ _ _ _ E) as [result [error [t [_ [_ [_ [Ht [_ Hx]]]]]]]].
    cbv beta zeta in Ht. apply dedent_two_normal in Ht as [text ->]. eexists. exact Hx.
  - destruct (stage_instructions _ _ _ _ _ _ _ E) as [result [t [_ [_ [Hi [_ Ht]]]]]].
    apply instructions_text in Hi as [v ->]. eexists. exact Ht.
  - destruct (stage_catch _ _ _ _ _ _ _ E) as [e [_ Ht]]. eexists. exact Ht.
Qed.

Lemma report_starts_with_heading (env : Env) (remote : Remote) (clock : Clock)
    (c : tool_call) :
  let run := handler env remote clock c in
  starts_with (report_heading c (exit run)) (report_text run) = true.
Proof.
  cbv zeta. destruct (report_from_template env remote clock c) as [values ->].
  destruct (heading_first c (exit (handler env remote clock c))) as [H1 H2].
  destruct (template_of c _) as [|r0 rest]; [contradiction|].
  now apply dedent_starts_with.
Qed.

(** When the guard throws, the call leaves by the [catch] clause. *)
Lemma guard_false_of_truthy_success (result s : value) :
  get result "success" = Normal s -> truthy s = true ->
  no_success_no_data result = Normal false.
Proof.
  intros Hs Ht. unfold no_success_no_data. unfold_monad. now rewrite Hs, Ht.
Qed.

Lemma primitive_guard (result : value) :
  is_object result = false -> result <> JUndefined -> result <> JNull ->
  no_success_no_data result = Normal true /\ get result "error" = Normal JUndefined.
Proof. destruct result; try discriminate; try congruence; intros _ _ _; now split. Qed.

Lemma nullish_is_caught (env : Env) (remote : Remote) (clock : Clock) (c : tool_call)
    (result : value) :
  remote (sent (handler env remote clock c)) = JsonResolves result ->
  result = JUndefined \/ result = JNull ->
  exit (handler env remote clock c) = CatchReturn.
Proof.
  rewrite request_sent, handler_stage. intros Hr Hn.
  unfold stage. unfold_monad. rewrite Hr. destruct Hn as [-> | ->]; reflexivity.
Qed.

(** ** [src/server.ts]: what the reports look like *)

(** X10: the first line of a report tells the return statement it comes
    from.  Every report starts with the heading of its template, and the
    three headings of a tool do not start with one another: the report
    starts with the heading of a return exactly when the call left the
    handler by that return. *)
Theorem report_heading_tells_exit (env : Env) (remote : Remote) (clock : Clock)
    (c : tool_call) (e : exit_point) :
  let run := handler env remote clock c in
  starts_with (report_heading c e) (report_text run) = true <-> exit run = e.
Proof.
  cbv zeta. pose proof (report_starts_with_heading env remote clock c) as Hown.
  cbv zeta in Hown. split.
  - intros He.
    assert ({exit (handler env remote clock c) = e} + {exit (handler env remote clock c) <> e})
      as [Heq|Hne] by decide equality; [exact Heq|].
    destruct (starts_with_comparable _ _ _ He Hown) as [H|H].
    + rewrite headings_apart in H by congruence. discriminate.
    + now rewrite (headings_apart c _ _ Hne) in H.
  - intros <-. exact Hown.
Qed.

(** The headings of the reports of the three tools, by the return they come
    from: the API-error return, the instructions, the [catch] clause. *)
Example report_headings :
  let exits := [ApiErrorReturn; InstructionsReturn; CatchReturn] in
  map (report_heading (call_planner EmptyString)) exits
  = ["## ❌ Planner Tool API Error"; "## 📋 Kendo React Page Generation Plan";
     "## ⚠️ Planner Tool Network Error"]
  /\ map (report_heading (call_structure EmptyString EmptyString)) exits
     = ["## ❌ Structure Tool API Error"; "## 🏗️ Abstract Component Tree (ACT) Generated";
        "## ⚠️ Structure Tool Network Error"]
  /\ map (report_heading (call_merger JNull)) exits
     = ["## ❌ Code Generator API Error"; "## 🚀 Kendo React Code Generated Successfully!";
        "## ⚠️ Code Generator Network Error"].
Proof. vm_compute. repeat split. Qed.

(** X11: a failure report ends with its time stamp: nothing follows the
    line [**Timestamp:** ...], whatever the cause is. *)
Theorem failure_report_ends_with_stamp (env : Env) (remote : Remote) (clock : Clock)
    (c : tool_call) :
  let run := handler env remote clock c in
  is_failure run = true ->
  ends_with (timestamp_label ++ toISOString (report_time clock)) (report_text run) = true.
Proof.
  cbv zeta. unfold is_failure.
  destruct (exit (handler env remote clock c)) eqn:E; try discriminate; intros _;
    rewrite handler_stage in *.
  - destruct (stage_api_error _ _ _ _ _ _ _ E)
      as [result [error [t [_ [_ [_ [Ht [_ ->]]]]]]]].
    cbv beta zeta in Ht. apply dedent_two_normal in Ht as [text ->].
    eapply dedent_ends_with_stamp;
      [apply api_error_template_ok | apply failure_template_end_ok | apply timestamp_anchored].
  - destruct (stage_catch _ _ _ _ _ _ _ E) as [e [_ ->]].
    eapply dedent_ends_with_stamp;
      [apply network_error_template_ok | apply failure_template_end_ok
       | apply timestamp_anchored].
Qed.

(** Witness: [planner_tool] meets [{error: rate limited}]. *)
Lemma failure_report_ends_with_stamp_witness :
  let remote := always (JsonResolves (JObject [("error", JString "rate limited")])) in
  let run := planner_tool sample_env remote sample_clock "build a login form" in
  is_failure run = true
  /\ ends_with "**Timestamp:** 2026-11-03T09:30:15.007Z" (report_text run) = true.
Proof.
  intros remote run. split; [reflexivity|].
  exact (failure_report_ends_with_stamp sample_env remote sample_clock
           (call_planner "build a login form") eq_refl).
Defined.



(** ** [src/server.ts]: replies at the edges *)

Lemma type_error_anchored (c : tool_call) (d : value) (e : thrown) :
  d = JUndefined \/ d = JNull -> get d (artifact_key c) = Throw e ->
  anchored (error_message e) = true.
Proof.
  intros [-> | ->]; destruct c; cbn [get artifact_key]; intros [= <-];
    vm_compute; reflexivity.
Qed.

Lemma instructions_throw (c : tool_call) (result d : value) :
  get result "data" = Normal d -> d = JUndefined \/ d = JNull ->
  instructions_of c result = bind (get d (artifact_key c)) (fun _ => Normal EmptyString).
Proof.
  intros Hd Hn. destruct c; unfold instructions_of; unfold_monad; rewrite Hd;
    destruct Hn as [-> | ->]; reflexivity.
Qed.

Lemma catch_cause (env : Env) (remote : Remote) (clock : Clock) (c : tool_call) (e : thrown) :
  let run := handler env remote clock c in
  exit run = CatchReturn -> logged run = [e] ->
  anchored (error_message e) = true ->
  includes (report_text run) (error_message e) = true.
Proof.
  cbv zeta. intros E Hl Ha.
  destruct (catch_report env remote clock c E) as [e' [Hl' [Hcause _]]].
  rewrite Hl in Hl'. injection Hl' as <-. exact (Hcause (anchored_plain _ Ha)).
Qed.

(** X13: a reply that announces a success without [data] is not an API
    error.  The guard lets it pass, the read of the artifact from
    [undefined] or [null] throws a [TypeError], and the call leaves by the
    [catch] clause: the report is the network-error report, with the
    message of the [TypeError] as its cause. *)
Theorem success_without_data_is_caught (env : Env) (remote : Remote) (clock : Clock)
    (c : tool_call) (result s d : value) :
  let run := handler env remote clock c in
  remote (sent run) = JsonResolves result ->
  get result "success" = Normal s -> truthy s = true ->
  get result "data" = Normal d -> d = JUndefined \/ d = JNull ->
  exit run = CatchReturn
  /\ error_kind run = Some TransportFault
  /\ exists e, get d (artifact_key c) = Throw e /\ logged run = [e]
               /\ includes (report_text run) (error_message e) = true.
Proof.
  cbv zeta. intros Hr Hs Ht Hd Hn.
  pose proof (guard_false_of_truthy_success result s Hs Ht) as Hg.
  assert (exists e, get d (artifact_key c) = Throw e) as [e He]
    by (destruct Hn as [-> | ->]; eexists; reflexivity).
  assert (exit (handler env remote clock c) = CatchReturn
          /\ logged (handler env remote clock c) = [e]) as [E Hl].
  { rewrite request_sent in Hr. rewrite handler_stage.
    pose proof (stage_guard_false _ (api_error_template c) (network_error_template c)
                  (unknown_error c) (instructions_of c) _ clock _ Hr Hg) as H.
    rewrite (instructions_throw c result d Hd Hn), He in H. exact H. }
  split; [exact E|]. split; [unfold error_kind; now rewrite E|].
  exists e. split; [exact He|]. split; [exact Hl|].
  apply catch_cause; [exact E | exact Hl | exact (type_error_anchored c d e Hn He)].
Qed.

(** Witness: [structure_tool] meets [{success: true}]. *)
Lemma success_without_data_is_caught_witness :
  let result := JObject [("success", JBool true)] in
  let remote := always (JsonResolves result) in
  let run := structure_tool sample_env remote sample_clock "1. Add a Grid" "build a page" in
  exit run = CatchReturn
  /\ error_kind run = Some TransportFault
  /\ exists e, get JUndefined "structure" = Throw e /\ logged run = [e]
               /\ includes (report_text run) (error_message e) = true.
Proof.
  intros result remote run.
  exact (success_without_data_is_caught sample_env remote sample_clock
           (call_structure "1. Add a Grid" "build a page") result (JBool true) JUndefined
           eq_refl eq_refl eq_refl eq_refl (or_introl eq_refl)).
Defined.

(** X14: a reply that is valid JSON but not an object.  A string, a number,
    a boolean or an array has neither [success] nor [data]: it is reported
    as an API error with the default cause of the tool.  On [null] the
    guard itself throws, and the call leaves by the [catch] clause. *)
Theorem reply_that_is_no_object (env : Env) (remote : Remote) (clock : Clock)
    (c : tool_call) (result : value) :
  let run := handler env remote clock c in
  remote (sent run) = JsonResolves result -> is_object result = false ->
  match result with
  | JUndefined | JNull => exit run = CatchReturn
  | _ => exit run = ApiErrorReturn /\ includes (report_text run) (unknown_error c) = true
  end.
Proof.
  cbv zeta. intros Hr Hobj.
  assert (result <> JUndefined -> result <> JNull ->
          exit (handler env remote clock c) = ApiErrorReturn
          /\ includes (report_text (handler env remote clock c)) (unknown_error c) = true) as H.
  { intros H1 H2. destruct (primitive_guard result Hobj H1 H2) as [Hg He].
    pose proof (guard_true_report env remote clock c result JUndefined Hr Hg He) as H.
    cbv zeta in H. cbn [or_else truthy to_string] in H. destruct H as [E [_ Ht]].
    split; [exact E|]. rewrite Ht.
    destruct (failure_template_text _ _ (unknown_error c) (toISOString (report_time clock))
                (api_error_template_ok c)) as [Hcause _].
    apply Hcause, unknown_error_anchored. }
  destruct result; try discriminate;
    try (apply H; discriminate);
    apply (nullish_is_caught env remote clock c _ Hr); auto.
Qed.

(** Witness: [merger_tool] meets the JSON string [Service Unavailable]. *)
Lemma reply_that_is_no_object_witness :
  let remote := always (JsonResolves (JString "Service Unavailable")) in
  let run := merger_tool sample_env remote sample_clock
               (node (JString "Grid") (JString "Users") JNull (JArray [])) in
  exit run = ApiErrorReturn
  /\ includes (report_text run)
       "Unknown error occurred while generating the Kendo React code" = true.
Proof.
  intros remote run.
  exact (reply_that_is_no_object sample_env remote sample_clock
           (call_merger (node (JString "Grid") (JString "Users") JNull (JArray [])))
           (JString "Service Unavailable") eq_refl eq_refl).
Defined.

(** X15: [result.error || '...'].  When the API-error return is taken and
    the error of the reply is falsy (absent, [null], [false], 0 or the
    empty string), the report gives the default cause of the tool. *)
Theorem falsy_error_default_cause (env : Env) (remote : Remote) (clock : Clock)
    (c : tool_call) (result error : value) :
  let run := handler env remote clock c in
  remote (sent run) = JsonResolves result -> exit run = ApiErrorReturn ->
  get result "error" = Normal error -> truthy error = false ->
  includes (report_text run) (unknown_error c) = true.
Proof.
  cbv zeta. intros Hr E He Ht.
  destruct (api_error_report env remote clock c E)
    as [result' [error' [cause [Hr' [_ [He' [Hc [_ [Hcause _]]]]]]]]].
  rewrite Hr in Hr'. injection Hr' as <-. rewrite He in He'. injection He' as <-.
  unfold or_else in Hc. rewrite Ht in Hc. cbn [to_string] in Hc. injection Hc as <-.
  apply Hcause, anchored_plain, unknown_error_anchored.
Qed.

(** Witness: [planner_tool] meets [{success: false, error: }]. *)
Lemma falsy_error_default_cause_witness :
  let result := JObject [("success", JBool false); ("error", JString EmptyString)] in
  let remote := always (JsonResolves result) in
  let run := planner_tool sample_env remote sample_clock "build a page" in
  includes (report_text run)
    "Unknown error occurred while generating the execution plan" = true.
Proof.
  intros result remote run.
  exact (falsy_error_default_cause sample_env remote sample_clock
           (call_planner "build a page") result (JString EmptyString)
           eq_refl eq_refl eq_refl eq_refl).
Defined.

(** X16: [error instanceof Error ? error.message : 'Unknown network error'].
    When what [fetch] or [response.json()] rejects with is not an [Error],
    the call leaves by the [catch] clause, the value is logged, and the
    report gives [Unknown network error] as its cause. *)
Theorem thrown_value_that_is_no_error (env : Env) (remote : Remote) (clock : Clock)
    (c : tool_call) (v : value) :
  let run := handler env remote clock c in
  remote (sent run) = FetchRejects (NonError v) \/ remote (sent run) = JsonRejects (NonError v) ->
  exit run = CatchReturn /\ logged run = [NonError v]
  /\ includes (report_text run) "Unknown network error" = true.
Proof.
  cbv zeta. intros Hr. rewrite request_sent in Hr.
  assert (exit (handler env remote clock c) = CatchReturn
          /\ logged (handler env remote clock c) = [NonError v]) as [E Hl].
  { rewrite handler_stage.
    destruct (stage_rejects _ (api_error_template c) (network_error_template c)
                (unknown_error c) (instructions_of c) _ clock _ Hr) as [E [Hl _]].
    now split. }
  split; [exact E|]. split; [exact Hl|].
  exact (catch_cause env remote clock c (NonError v) E Hl eq_refl).
Qed.

(** Witness: [response.json()] rejects with the string [aborted]. *)
Lemma thrown_value_that_is_no_error_witness :
  let remote := always (JsonRejects (NonError (JString "aborted"))) in
  let run := planner_tool sample_env remote sample_clock "build a page" in
  exit run = CatchReturn /\ logged run = [NonError (JString "aborted")]
  /\ includes (report_text run) "Unknown network error" = true.
Proof.
  intros remote run.
  exact (thrown_value_that_is_no_error sample_env remote sample_clock
           (call_planner "build a page") (JString "aborted") (or_intror eq_refl)).
Defined.

(** X17: a [data] object that lacks the artifact.  [planner_tool] and
    [structure_tool] do not notice: the read gives [undefined], and the
    call returns the success report with the word [undefined] where the
    plan or the structure should stand.  [merger_tool] reads one level
    deeper, [data.code.mainComponent], and the read from the missing [code]
    throws: the call leaves by the [catch] clause. *)
Theorem missing_artifact (env : Env) (remote : Remote) (clock : Clock)
    (c : tool_call) (result : value) (fields : list (string * value)) :
  let run := handler env remote clock c in
  remote (sent run) = JsonResolves result ->
  get result "data" = Normal (JObject fields) ->
  lookup (artifact_key c) fields = None ->
  match c with
  | call_merger _ =>
      exit run = CatchReturn
      /\ logged run
         = [ErrorObject "Cannot read properties of undefined (reading 'mainComponent')"]
  | _ => exit run = InstructionsReturn /\ includes (report_text run) "undefined" = true
  end.
Proof.
  cbv zeta. intros Hr Hd Hk.
  pose proof (data_passes_guard env remote clock c result _ Hr Hd eq_refl) as H.
  pose proof (success_template_ok c) as Hshape.
  rewrite request_sent in Hr.
  pose proof (stage_guard_false _ (api_error_template c) (network_error_template c)
                (unknown_error c) (instructions_of c) _ clock _ Hr
                (guard_false_truthy _ _ Hd eq_refl)) as H'.
  rewrite <- handler_stage in H'.
  destruct c as [query|plan query|actStructure]; cbn [artifact_key] in Hk.
  - rewrite (instructions_planner _ _ _ Hd) in H. unfold field in H. rewrite Hk in H.
    change (dedent planner_success [JUndefined])
      with (dedent planner_success (map JString ["undefined"])) in H.
    rewrite dedent_of_strings in H. destruct H as [E ->].
    split; [exact E|]. now apply planner_success_text.
  - rewrite (instructions_structure _ _ _ _ Hd) in H. destruct H as [E ->].
    split; [exact E|]. unfold field. rewrite Hk.
    unfold success_template_shape in Hshape. cbn [success_template] in Hshape.
    destruct structure_success as [|r0 [|r1 [|]]]; try discriminate.
    rewrite !andb_true_iff in Hshape. destruct Hshape as [[Hhole _] _].
    unfold dedent_strings. cbn [interpolate_strings stringify2 serialize interpolated].
    rewrite append_nil_r. apply includes_spec.
    rewrite <- (append_nil_r (unescape r1)).
    now apply hole_line_survives.
  - assert (instructions_of (call_merger actStructure) result
            = Throw (ErrorObject
                       "Cannot read properties of undefined (reading 'mainComponent')")) as Hi.
    { unfold instructions_of. unfold_monad. rewrite Hd. cbn [get]. unfold field.
      now rewrite Hk. }
    rewrite Hi in H'. exact H'.
Qed.

(** Witness: [planner_tool] meets a [data] that holds a [structure] and no [plan]. *)
Lemma missing_artifact_witness :
  let result := JObject [("success", JBool true);
                         ("data", JObject [("structure", JNull)])] in
  let remote := always (JsonResolves result) in
  let run := planner_tool sample_env remote sample_clock "build a page" in
  exit run = InstructionsReturn /\ includes (report_text run) "undefined" = true.
Proof.
  intros result remote run.
  exact (missing_artifact sample_env remote sample_clock (call_planner "build a page")
           result [("structure", JNull)] eq_refl eq_refl eq_refl).
Defined.

(** ** [generate_page]: the ways out of the handler *)

Lemma drop_suffix (n : nat) (b p : string) : Dedent.drop n b = p -> exists r, b = r ++ p.
Proof.
  revert b. induction n as [|n IH]; intros b; [intros <-; now exists EmptyString|].
  destruct b as [|x b]; [intros <-; now exists EmptyString|]. cbn [Dedent.drop].
  intros H. destruct (IH b H) as [r ->]. now exists (String x r).
Qed.

Lemma ends_with_app (p a b : string) : ends_with p b = true -> ends_with p (a ++ b) = true.
Proof.
  unfold ends_with at 1. intros H. apply String.eqb_eq, drop_suffix in H as [r ->].
  rewrite <- append_assoc. apply ends_with_spec.
Qed.

(** The JSON text of a failure report of [generate_page]. *)
Lemma json_text_failure (error : value) (clock : Clock) :
  let text := json_text [("success", JBool false); ("error", error);
                         ("timestamp", JString (toISOString (report_time clock)))] in
  text = failure_opening
         ++ match stringify error with
            | Some s => "," ++ quote "error" ++ ":" ++ s
            | None => EmptyString
            end
         ++ failure_closing clock.
Proof.
  cbv zeta. unfold json_text, stringify, failure_opening, failure_closing.
  cbn [serialize]. change (EmptyString ++ EmptyString) with EmptyString.
  destruct (serialize EmptyString EmptyString error) as [s|];
    cbn [wrap is_empty join_with]; rewrite !append_assoc; reflexivity.
Qed.

Lemma generate_page_sent (env : Env) (remote : Remote) (clock : Clock) (query : string) :
  sent (generate_page env remote clock query) = generate_page_request env query.
Proof.
  unfold generate_page, try_catch. destruct (_ ≫= _) as [[e t]|e]; reflexivity.
Qed.

(** The three ways out of [generate_page]. *)
Lemma generate_page_cases (env : Env) (remote : Remote) (clock : Clock) (query : string) :
  let run := generate_page env remote clock query in
  let stamp := JString (toISOString (report_time clock)) in
  (exists result error,
     remote (sent run) = JsonResolves result /\ no_success_no_data result = Normal true
     /\ get result "error" = Normal error /\ exit run = ApiErrorReturn /\ logged run = []
     /\ report_text run
        = json_text [("success", JBool false); ("error", error); ("timestamp", stamp)])
  \/ (exists result code,
        remote (sent run) = JsonResolves result /\ no_success_no_data result = Normal false
        /\ exit run = InstructionsReturn /\ logged run = []
        /\ report_text run
           = instructions_before ++ interpolated (stringify2 code) ++ instructions_after)
  \/ (exists e,
        exit run = CatchReturn /\ logged run = [e]
        /\ (forall result, remote (sent run) = JsonResolves result ->
            no_success_no_data result <> Normal true)
        /\ report_text run
           = json_text [("success", JBool false); ("error", caught_message e);
                        ("timestamp", stamp)]).
Proof.
  cbv zeta. rewrite generate_page_sent. unfold generate_page.
  fold (generate_page_request env query). unfold_monad.
  destruct (remote (generate_page_request env query)) as [e|e|result] eqn:Hr; cbn.
  1,2: right; right; exists e; repeat split; discriminate.
  destruct (no_success_no_data result) as [[|]|e] eqn:Hg; cbn.
  - pose proof Hg as Hg'. apply guard_spec in Hg' as [s [d [Hs _]]].
    destruct (get_total result "success" "error" s Hs) as [err Herr].
    rewrite Herr. cbn. left. exists result, err. repeat split; assumption.
  - destruct (get result "data") as [data|e]; cbn.
    2:{ right; right. exists e. repeat split. intros r [= <-]. congruence. }
    destruct (get data "kendoComponents") as [kendo|e]; cbn.
    2:{ right; right. exists e. repeat split. intros r [= <-]. congruence. }
    destruct (get kendo "code") as [code|e]; cbn.
    2:{ right; right. exists e. repeat split. intros r [= <-]. congruence. }
    right; left. exists result, code. repeat split. assumption.
  - right; right. exists e. repeat split. intros r [= <-]. congruence.
Qed.

(** ** The server with a single tool: the reports of [generate_page] *)

(** X18: the failure reports of [generate_page] are JSON texts.  A report
    starts with an opening brace exactly when the call failed (the
    instructions start with a line feed); a failure report starts with
    [{"success":false] and ends with the time stamp as its last member. *)
Theorem generate_page_failure_is_json (env : Env) (remote : Remote) (clock : Clock)
    (query : string) :
  let run := generate_page env remote clock query in
  (is_failure run = true <-> starts_with "{" (report_text run) = true)
  /\ (exit run = InstructionsReturn <-> starts_with instructions_before (report_text run) = true)
  /\ (is_failure run = true
      -> starts_with failure_opening (report_text run) = true
         /\ ends_with (failure_closing clock) (report_text run) = true).
Proof.
  cbv zeta. unfold is_failure.
  destruct (generate_page_cases env remote clock query)
    as [[result [error [_ [_ [_ [-> [_ ->]]]]]]]
       | [[result [code [_ [_ [-> [_ ->]]]]]] | [e [-> [_ [_ ->]]]]]];
    try rewrite json_text_failure.
  - repeat split; try reflexivity; try discriminate.
    rewrite <- append_assoc. apply ends_with_spec.
  - repeat split; try reflexivity; try discriminate.
  - repeat split; try reflexivity; try discriminate.
    rewrite <- append_assoc. apply ends_with_spec.
Qed.

(** X19: the guard of [generate_page] is the guard of the three tools, and
    its API-error report copies [result.error] as it is: the member
    [error] holds the JSON text of the value, and is left out when the
    reply has no [error], so that the report then names no cause. *)
Theorem generate_page_api_error (env : Env) (remote : Remote) (clock : Clock)
    (query : string) (result : value) :
  let run := generate_page env remote clock query in
  remote (sent run) = JsonResolves result ->
  (exit run = ApiErrorReturn <->
   exists s d, get result "success" = Normal s /\ get result "data" = Normal d
               /\ truthy s = false /\ truthy d = false)
  /\ (exit run = ApiErrorReturn ->
      forall error, get result "error" = Normal error ->
      report_text run
      = failure_opening
        ++ match stringify error with
           | Some s => "," ++ quote "error" ++ ":" ++ s
           | None => EmptyString
           end
        ++ failure_closing clock).
Proof.
  cbv zeta. intros Hr. rewrite <- guard_spec.
  destruct (generate_page_cases env remote clock query)
    as [[result' [error' [Hr' [Hg [He [E [_ Ht]]]]]]]
       | [[result' [code [Hr' [Hg [E _]]]]] | [e [E [_ [Hno _]]]]]].
  - rewrite Hr in Hr'. injection Hr' as <-. split; [tauto|].
    intros _ error He'. rewrite He in He'. injection He' as <-.
    rewrite Ht. apply json_text_failure.
  - rewrite Hr in Hr'. injection Hr' as <-. rewrite E, Hg.
    split; [split; discriminate | discriminate].
  - rewrite E. split; [split; [discriminate|]|discriminate].
    intros Hg. now apply (Hno result Hr) in Hg.
Qed.

(** Witness: [generate_page] meets [{success: false}]; the report has no [error] member. *)
Lemma generate_page_api_error_witness :
  let result := JObject [("success", JBool false)] in
  let remote := always (JsonResolves result) in
  let run := generate_page sample_env remote sample_clock "build a page" in
  exit run = ApiErrorReturn
  /\ report_text run
     = "{" ++ DQ ++ "success" ++ DQ ++ ":false," ++ DQ ++ "timestamp" ++ DQ ++ ":"
       ++ DQ ++ "2026-11-03T09:30:15.007Z" ++ DQ ++ "}".
Proof.
  intros result remote run.
  destruct (generate_page_api_error sample_env remote sample_clock "build a page" result
              eq_refl) as [_ H].
  split; [reflexivity|]. exact (H eq_refl JUndefined eq_refl).
Defined.

(** X20: what the [catch] clause of [generate_page] reports.  When [fetch]
    or [response.json()] rejects with an [Error], the report is the JSON
    text of [{success: false, error: message, timestamp}]: the message is
    quoted by [JSON.stringify], never pasted as it is. *)
Theorem generate_page_catch (env : Env) (remote : Remote) (clock : Clock)
    (query message : string) :
  let run := generate_page env remote clock query in
  remote (sent run) = FetchRejects (ErrorObject message)
  \/ remote (sent run) = JsonRejects (ErrorObject message) ->
  exit run = CatchReturn /\ logged run = [ErrorObject message]
  /\ report_text run
     = failure_opening ++ ("," ++ quote "error" ++ ":" ++ quote message)
       ++ failure_closing clock.
Proof.
  cbv zeta. rewrite generate_page_sent. intros Hr.
  assert (generate_page env remote clock query
          = {| sent := generate_page_request env query; logged := [ErrorObject message];
               exit := CatchReturn;
               returned := text_result
                             (json_text [("success", JBool false);
                                         ("error", JString message);
                                         ("timestamp",
                                          JString (toISOString (report_time clock)))]) |})
    as ->.
  { unfold generate_page. fold (generate_page_request env query). unfold_monad.
    destruct Hr as [-> | ->]; reflexivity. }
  split; [reflexivity|]. split; [reflexivity|].
  unfold report_text. cbn [returned text_result content text].
  apply (json_text_failure (JString message) clock).
Qed.

(** Witness: [fetch] rejects with an [Error] whose message holds two quotes. *)
Lemma generate_page_catch_witness :
  let message := "bad " ++ DQ ++ "request" ++ DQ in
  let remote := always (FetchRejects (ErrorObject message)) in
  let run := generate_page sample_env remote sample_clock "build a page" in
  exit run = CatchReturn /\ logged run = [ErrorObject message]
  /\ report_text run
     = failure_opening ++ ("," ++ quote "error" ++ ":" ++ quote message)
       ++ failure_closing sample_clock.
Proof.
  intros message remote run.
  exact (generate_page_catch sample_env remote sample_clock "build a page" message
           (or_introl eq_refl)).
Defined.
